(** * Retention-coil calculator (app.py): a shallow embedding and its properties

    The calculation core of [app.py] is three functions over Python floats:
    [reynolds_number], [darcy_friction_factor] and [calculate_retention_coil].
    A Python float is an IEEE-754 binary64 number, which is what Rocq's
    primitive [float] is, so the arithmetic of the source is kept as it is:
    every [+], [*] and [/] below rounds as the interpreter's does.  What the
    interpreter adds on top of the hardware is kept too: a float division by
    zero raises [ZeroDivisionError], [math.ceil] of an infinity or of a NaN
    raises, [math.log10] rejects nonpositive arguments, [**] raises on
    overflow, and an [int] that is too large for a float raises when it meets
    one in a product.

    The two transcendental functions of the C library that the interpreter
    calls ([pow] and [log10]) are not part of the repository; they are taken
    as an interface ([Libm]). *)

From Stdlib Require Import String List.
From Stdlib Require Import ZArith Lia Bool Floats Reals Lra Psatz.

Local Open Scope float_scope.

(* A decimal literal denotes the binary64 number nearest to it, as it does in
   the source; see [literals_as_read]. *)
Set Warnings "-inexact-float".

(** ** Exceptions and the error monad *)

Inductive py_exception : Set :=
  | ZeroDivisionError
  | OverflowError
  | ValueError
  | ComplexResult.
  (* [ComplexResult] is not a Python exception: it marks the one place where
     [**] leaves the floats (a negative base under a fractional exponent,
     answered by a complex number).  No call of app.py reaches it, see
     [calculate_never_complex]. *)

Inductive result (A : Type) : Type :=
  | Ok (a : A)
  | Raise (e : py_exception).

Arguments Ok {A} a.
Arguments Raise {A} e.

Definition bind {A B : Type} (c : result A) (k : A -> result B) : result B :=
  match c with
  | Ok a => k a
  | Raise e => Raise e
  end.

Notation "x <- c ;; k" := (bind c (fun x => k))
  (at level 61, c at next level, right associativity).

(** ** Python's float operations *)

Definition is_finite (x : float) : bool :=
  negb (is_nan x) && negb (is_infinity x).

(** [a / b] on floats ([float_div]). *)
Definition py_truediv (a b : float) : result float :=
  if b =? 0 then Raise ZeroDivisionError else Ok (a / b).

(** The signed mantissa of a finite number. *)
Definition signed_mantissa (s : bool) (m : positive) : Z :=
  cond_Zopp s (Zpos m).

(** The least integer that is not below [z * 2^e]. *)
Definition ceil_scaled (z e : Z) : Z :=
  if (0 <=? e)%Z then (z * 2 ^ e)%Z else (- ((- z) / 2 ^ (- e)))%Z.

(** [math.ceil] on a float: an [int], or an exception for the values that have
    no integer above them. *)
Definition math_ceil (x : float) : result Z :=
  match Prim2SF x with
  | S754_zero _ => Ok 0%Z
  | S754_infinity _ => Raise OverflowError
  | S754_nan => Raise ValueError
  | S754_finite s m e => Ok (ceil_scaled (signed_mantissa s m) e)
  end.

(** An [int] meeting a float in arithmetic is converted to the nearest float
    (ties to even), and refused when that would be an infinity. *)
Definition float_of_int (n : Z) : result float :=
  match binary_normalize prec emax n 0 false with
  | S754_infinity _ => Raise OverflowError
  | sf => Ok (SF2Prim sf)
  end.

(** Whether a float is an integer, and whether it is an odd one. *)
Definition float_is_integer (x : float) : bool :=
  match Prim2SF x with
  | S754_finite _ m e =>
      if (0 <=? e)%Z then true else (Zpos m mod 2 ^ (- e) =? 0)%Z
  | S754_nan => false
  | _ => true
  end.

Definition float_is_odd_integer (x : float) : bool :=
  match Prim2SF x with
  | S754_finite _ m e =>
      if (0 <? e)%Z then false
      else (Zpos m mod 2 ^ (- e) =? 0)%Z && Z.odd (Zpos m / 2 ^ (- e))
  | _ => false
  end.

(** ** The C library *)

(** [libm_pow] is consulted only for a finite base that is positive and not
    1, with a finite exponent that is not 0; [libm_log10] only for a finite
    positive argument.  All that is assumed of them is that a power of a
    positive number is never a negative number. *)
Class Libm : Type := {
  libm_pow : float -> float -> float;
  libm_log10 : float -> float;
  libm_pow_not_negative :
    forall x y, (0 <? x) = true -> (libm_pow x y <? 0) = false
}.

Section WithLibm.

Context {libm : Libm}.

(** [x ** y] on floats ([float_pow]): the special cases are decided by the
    interpreter, the rest by the C library, whose infinite result is an
    overflow. *)
Definition py_pow (iv iw : float) : result float :=
  if iw =? 0 then Ok 1
  else if is_nan iv then Ok iv
  else if is_nan iw then Ok (if iv =? 1 then 1 else iw)
  else if is_infinity iw then
    let av := abs iv in
    if av =? 1 then Ok 1
    else if Bool.eqb (0 <? iw) (1 <? av) then Ok (abs iw)
    else Ok 0
  else if is_infinity iv then
    let odd := float_is_odd_integer iw in
    if 0 <? iw then Ok (if odd then iv else abs iv)
    else Ok (if odd then (if iv <? 0 then -0 else 0) else 0)
  else if iv =? 0 then
    if iw <? 0 then Raise ZeroDivisionError
    else Ok (if float_is_odd_integer iw then iv else 0)
  else if (iv <? 0) && negb (float_is_integer iw) then Raise ComplexResult
  else
    let negate_result := (iv <? 0) && float_is_odd_integer iw in
    let iv := if iv <? 0 then - iv else iv in
    if iv =? 1 then Ok (if negate_result then -1 else 1)
    else
      let ix := libm_pow iv iw in
      if is_infinity ix then Raise OverflowError
      else Ok (if negate_result then - ix else ix).

(** [math.log10] on a float ([m_log10] under [math_1]). *)
Definition math_log10 (x : float) : result float :=
  let r :=
    if is_finite x then
      if 0 <? x then libm_log10 x
      else if x =? 0 then neg_infinity else nan
    else if is_nan x then x
    else if 0 <? x then x
    else nan in
  if is_nan r && negb (is_nan x) then Raise ValueError
  else if is_infinity r && is_finite x then Raise ValueError
  else Ok r.

(** ** The source *)

(** [math.pi] *)
Definition math_pi : float := 0x1.921fb54442d18p+1.

(** app.py, lines 7-8 *)
Definition reynolds_number (rho velocity diameter_m mu_pa_s : float)
  : result float :=
  py_truediv (rho * velocity * diameter_m) mu_pa_s.

(** app.py, lines 11-19 *)
Definition darcy_friction_factor (re roughness_m diameter_m : float)
  : result float :=
  if re <=? 0 then Ok 0
  else if re <? 2300 then py_truediv 64 re
  else
    rel_roughness <- py_truediv roughness_m diameter_m ;;
    p <- py_pow re 0.9 ;;
    t <- py_truediv 5.74 p ;;
    l <- math_log10 (rel_roughness / 3.7 + t) ;;
    s <- py_pow l 2 ;;
    py_truediv 0.25 s.

(** The dictionary that [calculate_retention_coil] returns. *)
Record coil_result : Type := {
  flow_m3_s : float;
  velocity : float;
  required_volume_m3 : float;
  length_m : float;
  n_straights : Z;
  n_uturns : Z;
  elbows_90 : Z;
  re : float;
  f : float;
  k_total : float;
  dp_distributed_pa : float;
  dp_local_pa : float;
  dp_total_pa : float
}.

(** app.py, lines 22-74 *)
Definition calculate_retention_coil
    (flow_m3_h retention_time_s diameter_mm roughness_mm rho mu_mpa_s
     straight_segment_m k_elbow_90 : float)
    (include_inlet_outlet_k : bool) : result coil_result :=
  let q_m3_s := flow_m3_h / 3600 in
  let diameter_m := diameter_mm / 1000 in
  let roughness_m := roughness_mm / 1000 in
  let mu_pa_s := mu_mpa_s / 1000 in
  d2 <- py_pow diameter_m 2 ;;
  let area := math_pi * d2 / 4 in
  velocity <- py_truediv q_m3_s area ;;
  let required_volume_m3 := q_m3_s * retention_time_s in
  length_m <- py_truediv required_volume_m3 area ;;
  segments <- py_truediv length_m straight_segment_m ;;
  c <- math_ceil segments ;;
  let n_straights := Z.max 1 c in
  let n_uturns := Z.max 0 (n_straights - 1) in
  let elbows_90 := (n_uturns * 2)%Z in
  re <- reynolds_number rho velocity diameter_m mu_pa_s ;;
  f <- darcy_friction_factor re roughness_m diameter_m ;;
  elbows_f <- float_of_int elbows_90 ;;
  let k_total := elbows_f * k_elbow_90 in
  let k_total := if include_inlet_outlet_k then k_total + 1.5 else k_total in
  v2 <- py_pow velocity 2 ;;
  let dynamic_pressure := rho * v2 / 2 in
  ld <- py_truediv length_m diameter_m ;;
  let dp_distributed_pa := f * ld * dynamic_pressure in
  let dp_local_pa := k_total * dynamic_pressure in
  let dp_total_pa := dp_distributed_pa + dp_local_pa in
  Ok {|
    flow_m3_s := q_m3_s;
    velocity := velocity;
    required_volume_m3 := required_volume_m3;
    length_m := length_m;
    n_straights := n_straights;
    n_uturns := n_uturns;
    elbows_90 := elbows_90;
    re := re;
    f := f;
    k_total := k_total;
    dp_distributed_pa := dp_distributed_pa;
    dp_local_pa := dp_local_pa;
    dp_total_pa := dp_total_pa
  |}.

End WithLibm.

(** The Swamee-Jain expression of the specification,
    [0.25 / (log10(rel/3.7 + 5.74/re^0.9))^2], evaluated as the interpreter
    evaluates it; [rel] is the relative roughness. *)
Definition swamee_jain {libm : Libm} (re rel : float) : result float :=
  p <- py_pow re 0.9 ;;
  t <- py_truediv 5.74 p ;;
  l <- math_log10 (rel / 3.7 + t) ;;
  s <- py_pow l 2 ;;
  py_truediv 0.25 s.

(** ** The page (app.py, lines 83-134)

    The form that feeds the calculation: a select box of products, a table
    of their properties, eight bounded number inputs and a check box; then
    the one call of [calculate_retention_coil].  A number input is kept as
    the four numbers it is created with. *)

Module Page.

Import ListNotations.
Local Open Scope string_scope.

(** The arguments of [st.number_input]. *)
Record number_input : Type := {
  min_value : float;
  max_value : float;
  value : float;
  step : float
}.

(** An entry of [fluid_db]. *)
Record fluid : Type := { rho : float; mu : float }.

(** The options of the product select box, in order. *)
Definition fluid_options : list string :=
  [ "Вода (20°C)";
    "Мляко (цяло, ~20°C)";
    "Обезмаслено мляко (~20°C)";
    "Суроватка (~20°C)";
    "Сметана 20% (~20°C)";
    "Ръчно въвеждане" ].

Definition fluid_db : list (string * fluid) :=
  [ ("Вода (20°C)", {| rho := 998.0; mu := 1.00 |});
    ("Мляко (цяло, ~20°C)", {| rho := 1030.0; mu := 2.00 |});
    ("Обезмаслено мляко (~20°C)", {| rho := 1035.0; mu := 1.70 |});
    ("Суроватка (~20°C)", {| rho := 1025.0; mu := 1.30 |});
    ("Сметана 20% (~20°C)", {| rho := 1010.0; mu := 5.00 |}) ].

(** [fluid_db[key]], when [key in fluid_db]. *)
Fixpoint dict_get {V : Type} (key : string) (d : list (string * V))
  : option V :=
  match d with
  | [] => None
  | (k, v) :: d' => if String.eqb key k then Some v else dict_get key d'
  end.

(** Lines 98-102: the defaults of density and viscosity. *)
Definition default_rho (fluid_option : string) : float :=
  match dict_get fluid_option fluid_db with
  | Some entry => rho entry
  | None => 1000.0
  end.

Definition default_mu (fluid_option : string) : float :=
  match dict_get fluid_option fluid_db with
  | Some entry => mu entry
  | None => 1.0
  end.

(** Lines 104-105 *)
Definition rho_input (fluid_option : string) : number_input :=
  {| min_value := 800.0; max_value := 1300.0;
     value := default_rho fluid_option; step := 1.0 |}.

Definition mu_input (fluid_option : string) : number_input :=
  {| min_value := 0.2; max_value := 500.0;
     value := default_mu fluid_option; step := 0.1 |}.

(** Lines 108-110 *)
Definition flow_m3_h_input : number_input :=
  {| min_value := 0.01; max_value := 200.0; value := 5.0; step := 0.1 |}.

Definition retention_time_s_input : number_input :=
  {| min_value := 1.0; max_value := 3600.0; value := 60.0; step := 1.0 |}.

Definition diameter_mm_input : number_input :=
  {| min_value := 5.0; max_value := 300.0; value := 25.0; step := 0.5 |}.

(** Lines 112-118: the roughness input depends on the kind of pipe. *)
Definition roughness_mm_input (roughness_source : string) : number_input :=
  if String.eqb roughness_source "Неръждаема хранителна тръба (гладка)" then
    {| min_value := 0.0005; max_value := 0.1; value := 0.0015;
       step := 0.0005 |}
  else if String.eqb roughness_source "Техническа стомана" then
    {| min_value := 0.001; max_value := 0.2; value := 0.045; step := 0.001 |}
  else
    {| min_value := 0.0001; max_value := 1.0; value := 0.01;
       step := 0.0001 |}.

(** Lines 120-121 *)
Definition straight_segment_m_input : number_input :=
  {| min_value := 0.2; max_value := 20.0; value := 2.0; step := 0.1 |}.

Definition k_elbow_90_input : number_input :=
  {| min_value := 0.1; max_value := 2.0; value := 0.9; step := 0.05 |}.

(** The eight number inputs of the sidebar, top to bottom. *)
Definition number_inputs (fluid_option roughness_source : string)
  : list number_input :=
  [ rho_input fluid_option; mu_input fluid_option; flow_m3_h_input;
    retention_time_s_input; diameter_mm_input;
    roughness_mm_input roughness_source; straight_segment_m_input;
    k_elbow_90_input ].

(** A number input is well formed when its lower bound is positive and its
    default lies between its bounds. *)
Definition well_formed (i : number_input) : bool :=
  (0 <? min_value i)%float && (min_value i <=? value i)%float
  && (value i <=? max_value i)%float.

(** What a number input hands to the script: a number between its bounds. *)
Definition in_range (i : number_input) (x : float) : bool :=
  (min_value i <=? x)%float && (x <=? max_value i)%float.

(** What the sidebar hands to the script, given the two selections: each
    of the eight numbers is between the bounds of its input. *)
Definition in_ranges (fluid_option roughness_source : string)
    (rho mu flow_m3_h retention_time_s diameter_mm roughness_mm
     straight_segment_m k_elbow_90 : float) : bool :=
  in_range (rho_input fluid_option) rho
  && in_range (mu_input fluid_option) mu
  && in_range flow_m3_h_input flow_m3_h
  && in_range retention_time_s_input retention_time_s
  && in_range diameter_mm_input diameter_mm
  && in_range (roughness_mm_input roughness_source) roughness_mm
  && in_range straight_segment_m_input straight_segment_m
  && in_range k_elbow_90_input k_elbow_90.

(** Lines 124-134: the call of the page, on the values of the widgets in the
    order they are created; each is passed by keyword, [mu] as
    [mu_mpa_s]. *)
Definition results {libm : Libm}
    (rho mu flow_m3_h retention_time_s diameter_mm roughness_mm
     straight_segment_m k_elbow_90 : float) (include_io : bool)
  : result coil_result :=
  calculate_retention_coil flow_m3_h retention_time_s diameter_mm
    roughness_mm rho mu straight_segment_m k_elbow_90 include_io.

(** Lines 136-150: the eight floats that are formatted into the metrics, in
    the order they are shown (the number of elbows, an [int], is shown after
    the first); the three pressure drops are shown in kPa.  The formatting
    itself is not part of the model. *)
Definition metric_values (r : coil_result) : list float :=
  [ length_m r; k_total r; velocity r; re r; f r;
    (dp_distributed_pa r / 1000)%float; (dp_local_pa r / 1000)%float;
    (dp_total_pa r / 1000)%float ].

End Page.

(** ** Facts about binary64 numbers

    The primitive operations are specified on [spec_float], the view of a
    float as a zero, an infinity, a NaN or a signed mantissa and exponent. *)

Module FloatFacts.

Lemma Prim2SF_zero : Prim2SF 0 = S754_zero false.
Proof. reflexivity. Qed.

(** Not below zero: a zero of either sign, a positive number, [+infinity],
    or a NaN (which compares false with everything). *)
Definition sf_not_negative (x : spec_float) : bool :=
  match x with
  | S754_zero _ => true
  | S754_infinity s => negb s
  | S754_nan => true
  | S754_finite s _ _ => negb s
  end.

(** Strictly above zero. *)
Definition sf_positive (x : spec_float) : bool :=
  match x with
  | S754_infinity s | S754_finite s _ _ => negb s
  | _ => false
  end.

Definition sf_is_zero (x : spec_float) : bool :=
  match x with
  | S754_zero _ => true
  | _ => false
  end.

Ltac sf_cases x :=
  destruct (Prim2SF x) as [[|]|[|]| |[|] ? ?]; cbn; try intuition congruence.

Lemma ltb_0_false (x : float) :
  (x <? 0) = false <-> sf_not_negative (Prim2SF x) = true.
Proof. rewrite ltb_spec, Prim2SF_zero. unfold SFltb. sf_cases x. Qed.

Lemma ltb_0_true (x : float) :
  (0 <? x) = true <-> sf_positive (Prim2SF x) = true.
Proof. rewrite ltb_spec, Prim2SF_zero. unfold SFltb. sf_cases x. Qed.

Lemma leb_0_true (x : float) :
  (0 <=? x) = true <->
  sf_not_negative (Prim2SF x) = true /\ Prim2SF x <> S754_nan.
Proof. rewrite leb_spec, Prim2SF_zero. unfold SFleb. sf_cases x. Qed.

Lemma eqb_0_true (x : float) :
  (x =? 0) = true <-> sf_is_zero (Prim2SF x) = true.
Proof. rewrite eqb_spec, Prim2SF_zero. unfold SFeqb. sf_cases x. Qed.

Lemma sf_positive_not_negative (x : spec_float) :
  sf_positive x = true -> sf_not_negative x = true.
Proof. destruct x as [s|s| |s m e]; cbn; congruence. Qed.

Lemma eqb_0_cases (x : float) : (x =? 0) = true -> x = 0 \/ x = -0.
Proof.
  rewrite eqb_0_true. intros Hz.
  rewrite <- (SF2Prim_Prim2SF x).
  destruct (Prim2SF x) as [[|]|s| |s m e]; try discriminate; cbn; auto.
Qed.

Lemma positive_not_leb_0 (x : float) :
  (0 <? x) = true -> (x <=? 0) = false.
Proof.
  rewrite ltb_spec, leb_spec, Prim2SF_zero. unfold SFltb, SFleb. sf_cases x.
Qed.

Lemma positive_not_eqb_0 (x : float) :
  (0 <? x) = true -> (x =? 0) = false.
Proof.
  rewrite ltb_spec, eqb_spec, Prim2SF_zero. unfold SFltb, SFeqb. sf_cases x.
Qed.

Lemma negative_leb_0 (x : float) :
  (x <? 0) = true -> (x <=? 0) = true.
Proof.
  rewrite ltb_spec, leb_spec, Prim2SF_zero. unfold SFltb, SFleb. sf_cases x.
Qed.

Lemma not_leb_0_not_negative (x : float) :
  (x <=? 0) = false -> (x <? 0) = false.
Proof.
  intros H. destruct (x <? 0) eqn:E; [|reflexivity].
  apply negative_leb_0 in E. congruence.
Qed.

(** Comparing the other way round gives the opposite answer. *)
Lemma SFcompare_antisym (a b : spec_float) :
  SFcompare b a = option_map CompOpp (SFcompare a b).
Proof.
  destruct a as [[|]|[|]| |[|] ma ea], b as [[|]|[|]| |[|] mb eb];
    cbn; try reflexivity;
    rewrite (Z.compare_antisym ea eb);
    destruct (ea ?= eb)%Z; cbn; try reflexivity;
    rewrite (Pos.compare_cont_antisym ma mb Eq); cbn;
    try rewrite CompOpp_involutive; reflexivity.
Qed.

Lemma leb_not_ltb (a b : float) : (a <=? b) = true -> (b <? a) = false.
Proof.
  rewrite leb_spec, ltb_spec. unfold SFleb, SFltb.
  rewrite (SFcompare_antisym (Prim2SF a) (Prim2SF b)).
  destruct (SFcompare (Prim2SF a) (Prim2SF b)) as [[| |]|]; cbn; congruence.
Qed.

Lemma leb_2300_positive (x : float) :
  (2300 <=? x) = true -> sf_positive (Prim2SF x) = true.
Proof.
  rewrite leb_spec. unfold SFleb.
  let v := eval vm_compute in (Prim2SF 2300) in
  change (Prim2SF 2300) with v.
  sf_cases x.
Qed.

(** The sign of a rounded result is the sign that was asked for. *)
Lemma binary_round_aux_sign (s : bool) (mx ex : Z) (lx : location) :
  match binary_round_aux prec emax s mx ex lx with
  | S754_zero s' | S754_infinity s' | S754_finite s' _ _ => s' = s
  | S754_nan => True
  end.
Proof.
  unfold binary_round_aux.
  destruct (shr_fexp prec emax mx ex lx) as [mrs' e'].
  destruct (shr_fexp prec emax _ e' loc_Exact) as [mrs'' e''].
  destruct (shr_m mrs''); auto.
  destruct (e'' <=? emax - prec)%Z; auto.
Qed.

Lemma binary_round_aux_not_negative (mx ex : Z) (lx : location) :
  sf_not_negative (binary_round_aux prec emax false mx ex lx) = true.
Proof.
  pose proof (binary_round_aux_sign false mx ex lx) as H.
  destruct (binary_round_aux _ _ _ _ _ _); cbn; subst; auto.
Qed.

Lemma SFmul_not_negative (a b : spec_float) :
  sf_not_negative a = true -> sf_not_negative b = true ->
  sf_not_negative (SF64mul a b) = true.
Proof.
  unfold SF64mul.
  destruct a as [[|]|[|]| |[|] ma ea], b as [[|]|[|]| |[|] mb eb];
    cbn; auto; intros; try discriminate.
  apply binary_round_aux_not_negative.
Qed.

Lemma SFdiv_not_negative (a b : spec_float) :
  sf_not_negative a = true -> sf_not_negative b = true ->
  sf_is_zero b = false ->
  sf_not_negative (SF64div a b) = true.
Proof.
  unfold SF64div.
  destruct a as [[|]|[|]| |[|] ma ea], b as [[|]|[|]| |[|] mb eb];
    cbn -[SFdiv_core_binary]; auto; intros; try discriminate.
  destruct (SFdiv_core_binary _ _ _ _ _ _) as [[mz ez] lz].
  apply binary_round_aux_not_negative.
Qed.

Lemma SFadd_not_negative (a b : spec_float) :
  sf_not_negative a = true -> sf_not_negative b = true ->
  sf_not_negative (SF64add a b) = true.
Proof.
  unfold SF64add.
  destruct a as [[|]|[|]| |[|] ma ea], b as [[|]|[|]| |[|] mb eb];
    cbn -[shl_align]; auto; intros; try discriminate.
  unfold binary_normalize, binary_round.
  destruct (shl_align mb eb (Z.min ea eb)) as [m2 e2].
  destruct (shl_align ma ea (Z.min ea eb)) as [m1 e1]. cbn.
  destruct (shl_align _ _ _) as [mz ez].
  apply binary_round_aux_not_negative.
Qed.

Lemma mul_not_negative (a b : float) :
  (a <? 0) = false -> (b <? 0) = false -> (a * b <? 0) = false.
Proof.
  rewrite !ltb_0_false, mul_spec. apply SFmul_not_negative.
Qed.

Lemma div_not_negative (a b : float) :
  (a <? 0) = false -> (b <? 0) = false -> (b =? 0) = false ->
  (a / b <? 0) = false.
Proof.
  rewrite !ltb_0_false, div_spec. intros Ha Hb Hz.
  apply SFdiv_not_negative; auto.
  destruct (sf_is_zero (Prim2SF b)) eqn:E; [|reflexivity].
  apply eqb_0_true in E. congruence.
Qed.

Lemma add_not_negative (a b : float) :
  (a <? 0) = false -> (b <? 0) = false -> (a + b <? 0) = false.
Proof.
  rewrite !ltb_0_false, add_spec. apply SFadd_not_negative.
Qed.

Lemma positive_not_negative (a : float) :
  (0 <? a) = true -> (a <? 0) = false.
Proof.
  rewrite ltb_0_true, ltb_0_false. apply sf_positive_not_negative.
Qed.

Lemma leb_0_not_negative (a : float) :
  (0 <=? a) = true -> (a <? 0) = false.
Proof. apply leb_not_ltb. Qed.

Lemma SFcompare_refl (a : spec_float) :
  a <> S754_nan -> SFcompare a a = Some Eq.
Proof.
  destruct a as [[|]|[|]| |[|] m e]; cbn; try congruence; intros _;
    rewrite Z.compare_refl, Pos.compare_cont_refl; reflexivity.
Qed.

Lemma is_nan_spec (x : float) : is_nan x = true <-> Prim2SF x = S754_nan.
Proof.
  unfold is_nan. rewrite eqb_spec. unfold SFeqb. split.
  - intros H. destruct (Prim2SF x) as [s|s| |s m e] eqn:E; try reflexivity;
      rewrite SFcompare_refl in H by congruence; discriminate.
  - intros ->. reflexivity.
Qed.

Lemma is_nan_false (x : float) : is_nan x = false <-> Prim2SF x <> S754_nan.
Proof.
  rewrite <- is_nan_spec. destruct (is_nan x); split; congruence.
Qed.

Lemma nan_not_negative (x : float) : is_nan x = true -> (x <? 0) = false.
Proof. rewrite is_nan_spec, ltb_0_false. intros ->. reflexivity. Qed.

Lemma abs_not_negative (x : float) : (abs x <? 0) = false.
Proof.
  rewrite ltb_0_false, abs_spec. destruct (Prim2SF x); reflexivity.
Qed.

(** A number that is not a NaN, not a zero and not below zero is above it,
    and so is the opposite of a number below zero. *)
Lemma magnitude_positive (x : float) :
  is_nan x = false -> (x =? 0) = false ->
  (0 <? (if x <? 0 then - x else x)) = true.
Proof.
  rewrite is_nan_false. intros Hnan Hz.
  assert (Hz' : sf_is_zero (Prim2SF x) = false).
  { destruct (sf_is_zero (Prim2SF x)) eqn:E; [|reflexivity].
    apply eqb_0_true in E. congruence. }
  destruct (x <? 0) eqn:Hneg.
  - rewrite ltb_0_true, opp_spec.
    rewrite ltb_spec, Prim2SF_zero in Hneg. unfold SFltb in Hneg.
    destruct (Prim2SF x) as [[|]|[|]| |[|] m e]; cbn in *; congruence.
  - rewrite ltb_0_true. rewrite ltb_0_false in Hneg.
    destruct (Prim2SF x) as [[|]|[|]| |[|] m e]; cbn in *; congruence.
Qed.

(** The conversion of a natural number to a float is not below zero. *)
Lemma binary_round_sign (s : bool) (m : positive) (e : Z) :
  match binary_round prec emax s m e with
  | S754_zero s' | S754_infinity s' | S754_finite s' _ _ => s' = s
  | S754_nan => True
  end.
Proof.
  unfold binary_round. destruct (shl_align _ _ _) as [mz ez].
  apply binary_round_aux_sign.
Qed.

Lemma binary_normalize_not_negative (n e : Z) :
  (0 <= n)%Z ->
  sf_not_negative (binary_normalize prec emax n e false) = true.
Proof.
  intros Hn. destruct n as [|p|p]; cbn -[binary_round]; try lia; auto.
  pose proof (binary_round_sign false p e) as H.
  destruct (binary_round _ _ _ _ _); cbn; subst; auto.
Qed.

Lemma SFldexp_not_negative (a : spec_float) (e : Z) :
  sf_not_negative a = true ->
  sf_not_negative (SFldexp prec emax a e) = true.
Proof.
  destruct a as [s|s| |s m ex]; cbn -[binary_round]; auto. intros Hs.
  pose proof (binary_round_sign s m (ex + e)) as H.
  destruct (binary_round _ _ _ _ _); cbn in *; subst; auto.
Qed.

Lemma SF2Prim_not_negative (a : spec_float) :
  sf_not_negative a = true -> (SF2Prim a <? 0) = false.
Proof.
  intros Ha. rewrite ltb_0_false.
  destruct a as [[|]|[|]| |[|] m e]; try discriminate; try reflexivity.
  unfold SF2Prim, Z.ldexp. rewrite ldshiftexp_spec.
  apply SFldexp_not_negative. rewrite of_uint63_spec.
  apply binary_normalize_not_negative.
  apply Uint63.to_Z_bounded.
Qed.

End FloatFacts.

(** ** Reading a run of [calculate_retention_coil] *)

Lemma literals_as_read :
  (3.7 = 0x1.d99999999999ap+1) /\ (5.74 = 0x1.6f5c28f5c28f6p+2) /\
  (0.9 = 0x1.ccccccccccccdp-1) /\ (math_pi = 3.141592653589793).
Proof. repeat split. Qed.

Lemma bind_Ok {A B : Type} (c : result A) (k : A -> result B) (b : B) :
  bind c k = Ok b -> exists a, c = Ok a /\ k a = Ok b.
Proof. destruct c as [a|e]; cbn; [eauto | discriminate]. Qed.

(** Split a hypothesis [x <- c ;; k = Ok r] into [c = Ok x] and [k x = Ok r]. *)
Tactic Notation "bind_inv" hyp(H) ident(x) ident(Hx) :=
  apply bind_Ok in H; destruct H as (x & Hx & H).

Lemma py_truediv_Ok (a b q : float) :
  py_truediv a b = Ok q -> (b =? 0) = false /\ q = a / b.
Proof.
  unfold py_truediv. destruct (b =? 0); [discriminate|].
  intros [= <-]. auto.
Qed.

Lemma py_truediv_nonzero (a b : float) :
  (b =? 0) = false -> py_truediv a b = Ok (a / b).
Proof. unfold py_truediv. intros ->. reflexivity. Qed.

Lemma py_truediv_zero (a b : float) :
  (b =? 0) = true -> py_truediv a b = Raise ZeroDivisionError.
Proof. unfold py_truediv. intros ->. reflexivity. Qed.

(** Reduce the projections of a record that is written out, and nothing else
    (the floats stay as they are). *)
Ltac record_simpl :=
  cbn [flow_m3_s velocity required_volume_m3 length_m n_straights n_uturns
       elbows_90 re f k_total dp_distributed_pa dp_local_pa dp_total_pa].

Ltac record_simpl_in_all :=
  cbn [flow_m3_s velocity required_volume_m3 length_m n_straights n_uturns
       elbows_90 re f k_total dp_distributed_pa dp_local_pa dp_total_pa] in *.

Section Runs.

Context {libm : Libm}.

(** The steps of a run that returns a record, in the order of the source. *)
Inductive coil_run (flow_m3_h retention_time_s diameter_mm roughness_mm rho
    mu_mpa_s straight_segment_m k_elbow_90 : float)
    (include_inlet_outlet_k : bool) (r : coil_result) : Prop :=
  Coil_run (d2 segments elbows_f v2 ld : float) (c : Z)
    (run_pow_d : py_pow (diameter_mm / 1000) 2 = Ok d2)
    (run_flow : flow_m3_s r = flow_m3_h / 3600)
    (run_velocity :
       py_truediv (flow_m3_h / 3600) (math_pi * d2 / 4) = Ok (velocity r))
    (run_volume :
       required_volume_m3 r = flow_m3_h / 3600 * retention_time_s)
    (run_length :
       py_truediv (required_volume_m3 r) (math_pi * d2 / 4)
       = Ok (length_m r))
    (run_segments :
       py_truediv (length_m r) straight_segment_m = Ok segments)
    (run_ceil : math_ceil segments = Ok c)
    (run_n_straights : n_straights r = Z.max 1 c)
    (run_n_uturns : n_uturns r = Z.max 0 (n_straights r - 1))
    (run_elbows : elbows_90 r = (n_uturns r * 2)%Z)
    (run_re :
       reynolds_number rho (velocity r) (diameter_mm / 1000)
         (mu_mpa_s / 1000) = Ok (re r))
    (run_f :
       darcy_friction_factor (re r) (roughness_mm / 1000)
         (diameter_mm / 1000) = Ok (f r))
    (run_elbows_f : float_of_int (elbows_90 r) = Ok elbows_f)
    (run_k_total :
       k_total r =
       if include_inlet_outlet_k then elbows_f * k_elbow_90 + 1.5
       else elbows_f * k_elbow_90)
    (run_pow_v : py_pow (velocity r) 2 = Ok v2)
    (run_length_over_d :
       py_truediv (length_m r) (diameter_mm / 1000) = Ok ld)
    (run_dp_distributed :
       dp_distributed_pa r = f r * ld * (rho * v2 / 2))
    (run_dp_local : dp_local_pa r = k_total r * (rho * v2 / 2))
    (run_dp_total : dp_total_pa r = dp_distributed_pa r + dp_local_pa r).

Lemma calculate_Ok_run
    (flow_m3_h retention_time_s diameter_mm roughness_mm rho mu_mpa_s
     straight_segment_m k_elbow_90 : float) (io : bool) (r : coil_result) :
  calculate_retention_coil flow_m3_h retention_time_s diameter_mm
    roughness_mm rho mu_mpa_s straight_segment_m k_elbow_90 io = Ok r ->
  coil_run flow_m3_h retention_time_s diameter_mm roughness_mm rho mu_mpa_s
    straight_segment_m k_elbow_90 io r.
Proof.
  unfold calculate_retention_coil. intros H.
  bind_inv H d2 Hd2. bind_inv H v Hv. bind_inv H len Hlen.
  bind_inv H segs Hsegs. bind_inv H c Hc. bind_inv H re0 Hre.
  bind_inv H f0 Hf. bind_inv H ef Hef. bind_inv H v2 Hv2.
  bind_inv H ld Hld. injection H as <-.
  econstructor; record_simpl; try eassumption; reflexivity.
Qed.

Lemma run_calculate_Ok
    (flow_m3_h retention_time_s diameter_mm roughness_mm rho mu_mpa_s
     straight_segment_m k_elbow_90 : float) (io : bool) (r : coil_result) :
  coil_run flow_m3_h retention_time_s diameter_mm roughness_mm rho mu_mpa_s
    straight_segment_m k_elbow_90 io r ->
  calculate_retention_coil flow_m3_h retention_time_s diameter_mm
    roughness_mm rho mu_mpa_s straight_segment_m k_elbow_90 io = Ok r.
Proof.
  intros [d2 segs ef v2 ld c Hd2 Hq Hv Hvol Hlen Hsegs Hc Hn Hu He Hre
            Hf Hef Hk Hv2 Hld Hdd Hdl Hdt].
  unfold calculate_retention_coil.
  rewrite Hd2. cbn [bind]. rewrite Hv. cbn [bind].
  rewrite <- Hvol, Hlen. cbn [bind]. rewrite Hsegs. cbn [bind].
  rewrite Hc. cbn [bind]. rewrite <- Hn, <- Hu, <- He, Hre. cbn [bind].
  rewrite Hf. cbn [bind]. rewrite Hef. cbn [bind]. rewrite Hv2. cbn [bind].
  rewrite Hld. cbn [bind]. f_equal.
  destruct r; record_simpl_in_all. subst. reflexivity.
Qed.

End Runs.

(** ** A C library for concrete runs

    Squares are answered exactly (the correctly rounded [x * x]); nothing
    else is answered (NaN).  The concrete runs below either never reach the C
    library or ask it for squares only. *)

Definition square_pow (x y : float) : float :=
  if y =? 2 then x * x else nan.

Lemma square_pow_not_negative (x y : float) :
  (0 <? x) = true -> (square_pow x y <? 0) = false.
Proof.
  intros Hx. unfold square_pow. destruct (y =? 2); [|reflexivity].
  apply FloatFacts.mul_not_negative; apply FloatFacts.positive_not_negative, Hx.
Qed.

Definition square_libm : Libm := {|
  libm_pow := square_pow;
  libm_log10 := fun _ => nan;
  libm_pow_not_negative := square_pow_not_negative
|}.

(** A slow flow of water in a 25 mm pipe (laminar, Re = 141). *)
Definition laminar_example (roughness_mm : float) (io : bool)
  : result coil_result :=
  calculate_retention_coil (libm := square_libm)
    0.01 60 25 roughness_mm 998 1 2 0.9 io.

Definition laminar_record (io : bool) : coil_result := {|
  flow_m3_s := 0.01 / 3600;
  velocity := 0.0056588424210451673;
  required_volume_m3 := 0.00016666666666666669;
  length_m := 0.33953054526271009;
  n_straights := 1;
  n_uturns := 0;
  elbows_90 := 0;
  re := 141.18811840507692;
  f := 0.45329593398490003;
  k_total := if io then 1.5 else 0;
  dp_distributed_pa := 0.098373112461988849;
  dp_local_pa := if io then 0.023968839413345912 else 0;
  dp_total_pa := if io then 0.12234195187533475 else 0.098373112461988849
|}.

Lemma laminar_example_Ok (roughness_mm : float) (io : bool) :
  laminar_example roughness_mm io = Ok (laminar_record io).
Proof. destruct io; vm_compute; reflexivity. Qed.

(** ** The friction factor *)

(** C1: the Darcy friction factor follows a three-branch rule over the
    Reynolds number: it is 0 for every [re <= 0]; it is [64 / re] for every
    [0 < re < 2300]; and for every [re >= 2300], with a positive diameter, it
    is the Swamee-Jain value
    [0.25 / (log10((roughness_m/diameter_m)/3.7 + 5.74/re^0.9))^2]. *)
Theorem darcy_three_branches {libm : Libm} (re roughness_m diameter_m : float) :
  ((re <=? 0) = true ->
     darcy_friction_factor re roughness_m diameter_m = Ok 0) /\
  ((0 <? re) = true -> (re <? 2300) = true ->
     darcy_friction_factor re roughness_m diameter_m = Ok (64 / re)) /\
  ((2300 <=? re) = true -> (0 <? diameter_m) = true ->
     darcy_friction_factor re roughness_m diameter_m
     = swamee_jain re (roughness_m / diameter_m)).
Proof.
  unfold darcy_friction_factor. repeat split.
  - intros ->. reflexivity.
  - intros Hpos Hlam.
    rewrite (FloatFacts.positive_not_leb_0 _ Hpos), Hlam.
    apply py_truediv_nonzero, FloatFacts.positive_not_eqb_0, Hpos.
  - intros Hturb Hd.
    pose proof (FloatFacts.leb_2300_positive _ Hturb) as Hpos.
    apply FloatFacts.ltb_0_true in Hpos.
    rewrite (FloatFacts.positive_not_leb_0 _ Hpos).
    rewrite (FloatFacts.leb_not_ltb _ _ Hturb).
    rewrite (py_truediv_nonzero _ _ (FloatFacts.positive_not_eqb_0 _ Hd)).
    reflexivity.
Qed.

Lemma darcy_three_branches_witness :
  darcy_friction_factor (libm := square_libm) 0 0.0000015 0.025 = Ok 0 /\
  darcy_friction_factor (libm := square_libm) 2000 0.0000015 0.025
  = Ok 0.032 /\
  darcy_friction_factor (libm := square_libm) 100000 0.0000025 0.025
  = swamee_jain (libm := square_libm) 100000 (0.0000025 / 0.025).
Proof.
  split; [|split].
  - apply (darcy_three_branches (libm := square_libm) 0 0.0000015 0.025).
    reflexivity.
  - apply (darcy_three_branches (libm := square_libm) 2000 0.0000015 0.025);
      reflexivity.
  - apply (darcy_three_branches (libm := square_libm) 100000 0.0000025 0.025);
      reflexivity.
Defined.

(** The branches leave nothing out but the NaN, which compares false with
    0 and with 2300 and so reaches the Swamee-Jain expression. *)
Lemma darcy_branches_cover (re : float) :
  (re <=? 0) = true \/ ((0 <? re) = true /\ (re <? 2300) = true) \/
  (2300 <=? re) = true \/ is_nan re = true.
Proof.
  unfold is_nan.
  rewrite !leb_spec, !ltb_spec, eqb_spec, FloatFacts.Prim2SF_zero.
  unfold SFleb, SFltb, SFeqb.
  rewrite (FloatFacts.SFcompare_antisym (Prim2SF re) (Prim2SF 2300)).
  let v := eval vm_compute in (Prim2SF 2300) in change (Prim2SF 2300) with v.
  destruct (Prim2SF re) as [[|]|[|]| |[|] m e];
    cbn [SFcompare option_map CompOpp negb]; auto.
  destruct (e ?= -41)%Z; cbn [CompOpp]; auto.
  destruct (PosDef.Pos.compare_cont Eq m 5057753487769600); cbn [CompOpp]; auto.
Qed.

(** ** The record of a run *)

(** C3: in every record that is returned, [dp_total_pa] is the float sum
    [dp_distributed_pa + dp_local_pa] of the two fields beside it, with
    nothing done to it afterwards. *)
Theorem dp_total_is_sum {libm : Libm}
    (flow_m3_h retention_time_s diameter_mm roughness_mm rho mu_mpa_s
     straight_segment_m k_elbow_90 : float) (io : bool) (r : coil_result) :
  calculate_retention_coil flow_m3_h retention_time_s diameter_mm
    roughness_mm rho mu_mpa_s straight_segment_m k_elbow_90 io = Ok r ->
  dp_total_pa r = dp_distributed_pa r + dp_local_pa r.
Proof.
  intros H. destruct (calculate_Ok_run _ _ _ _ _ _ _ _ _ _ H). assumption.
Qed.

Lemma dp_total_is_sum_witness :
  laminar_example 0.0015 true = Ok (laminar_record true) /\
  dp_total_pa (laminar_record true)
  = dp_distributed_pa (laminar_record true) + dp_local_pa (laminar_record true).
Proof.
  split.
  - apply laminar_example_Ok.
  - apply (dp_total_is_sum (libm := square_libm)
             0.01 60 25 0.0015 998 1 2 0.9 true).
    vm_compute. reflexivity.
Defined.

(** C4: the [n_straights] of a returned record is at least 1, also when the
    required length is shorter than one straight segment. *)
Theorem n_straights_at_least_1 {libm : Libm}
    (flow_m3_h retention_time_s diameter_mm roughness_mm rho mu_mpa_s
     straight_segment_m k_elbow_90 : float) (io : bool) (r : coil_result) :
  calculate_retention_coil flow_m3_h retention_time_s diameter_mm
    roughness_mm rho mu_mpa_s straight_segment_m k_elbow_90 io = Ok r ->
  (1 <= n_straights r)%Z.
Proof.
  intros H. destruct (calculate_Ok_run _ _ _ _ _ _ _ _ _ _ H). lia.
Qed.

(** The example needs 0.34 m of pipe, less than its one straight segment of
    2 m. *)
Lemma n_straights_at_least_1_witness :
  (length_m (laminar_record true) <? 2) = true /\
  (1 <= n_straights (laminar_record true))%Z.
Proof.
  split.
  - reflexivity.
  - apply (n_straights_at_least_1 (libm := square_libm)
             0.01 60 25 0.0015 998 1 2 0.9 true).
    vm_compute. reflexivity.
Defined.

(** C5: in every record that is returned, [n_uturns] is
    [max(0, n_straights - 1)] and [elbows_90] is twice [n_uturns], hence
    even. *)
Theorem uturns_and_elbows {libm : Libm}
    (flow_m3_h retention_time_s diameter_mm roughness_mm rho mu_mpa_s
     straight_segment_m k_elbow_90 : float) (io : bool) (r : coil_result) :
  calculate_retention_coil flow_m3_h retention_time_s diameter_mm
    roughness_mm rho mu_mpa_s straight_segment_m k_elbow_90 io = Ok r ->
  n_uturns r = Z.max 0 (n_straights r - 1) /\
  elbows_90 r = (2 * n_uturns r)%Z /\
  Z.even (elbows_90 r) = true.
Proof.
  intros H. destruct (calculate_Ok_run _ _ _ _ _ _ _ _ _ _ H).
  split; [assumption|]. split; [lia|].
  rewrite run_elbows, Z.mul_comm. apply Z.even_even.
Qed.

(** Three straight segments: two U-turns, four elbows. *)
Definition three_segments : result coil_result :=
  calculate_retention_coil (libm := square_libm)
    0.01 900 25 0.0015 998 1 2 0.9 true.

Lemma uturns_and_elbows_witness :
  exists r, three_segments = Ok r /\
    n_straights r = 3%Z /\
    n_uturns r = Z.max 0 (n_straights r - 1) /\
    elbows_90 r = (2 * n_uturns r)%Z /\
    Z.even (elbows_90 r) = true.
Proof.
  destruct three_segments as [r|e] eqn:E; [|vm_compute in E; discriminate].
  exists r. split; [reflexivity|]. split.
  - vm_compute in E. injection E as <-. reflexivity.
  - apply (uturns_and_elbows (libm := square_libm)
             0.01 900 25 0.0015 998 1 2 0.9 true).
    exact E.
Defined.

(** C6: with the other eight inputs fixed, the [k_total] returned with the
    inlet/outlet loss included is the [k_total] returned without it plus
    1.5, and without it [k_total] is [elbows_90 * k_elbow_90]. *)
Theorem inlet_outlet_adds_1_5 {libm : Libm}
    (flow_m3_h retention_time_s diameter_mm roughness_mm rho mu_mpa_s
     straight_segment_m k_elbow_90 : float) (r1 : coil_result) :
  calculate_retention_coil flow_m3_h retention_time_s diameter_mm
    roughness_mm rho mu_mpa_s straight_segment_m k_elbow_90 true = Ok r1 ->
  exists (r0 : coil_result) (elbows_f : float),
    calculate_retention_coil flow_m3_h retention_time_s diameter_mm
      roughness_mm rho mu_mpa_s straight_segment_m k_elbow_90 false = Ok r0 /\
    k_total r1 = k_total r0 + 1.5 /\
    float_of_int (elbows_90 r0) = Ok elbows_f /\
    k_total r0 = elbows_f * k_elbow_90.
Proof.
  unfold calculate_retention_coil. intros H.
  bind_inv H d2 Hd2. bind_inv H v Hv. bind_inv H len Hlen.
  bind_inv H segs Hsegs. bind_inv H c Hc. bind_inv H re0 Hre.
  bind_inv H f0 Hf. bind_inv H ef Hef. bind_inv H v2 Hv2.
  bind_inv H ld Hld. injection H as <-.
  rewrite Hd2; cbn [bind]. rewrite Hv; cbn [bind]. rewrite Hlen; cbn [bind].
  rewrite Hsegs; cbn [bind]. rewrite Hc; cbn [bind]. rewrite Hre; cbn [bind].
  rewrite Hf; cbn [bind]. rewrite Hef; cbn [bind]. rewrite Hv2; cbn [bind].
  rewrite Hld; cbn [bind].
  eexists. exists ef. split; [reflexivity|]. record_simpl.
  repeat split. exact Hef.
Qed.

(** Four elbows at 0.9 each: 3.6 without the inlet and outlet, 5.1 with. *)
Lemma inlet_outlet_adds_1_5_witness :
  exists (r1 r0 : coil_result) (elbows_f : float),
    three_segments = Ok r1 /\
    k_total r1 = 5.1 /\
    calculate_retention_coil (libm := square_libm)
      0.01 900 25 0.0015 998 1 2 0.9 false = Ok r0 /\
    k_total r1 = k_total r0 + 1.5 /\
    float_of_int (elbows_90 r0) = Ok elbows_f /\
    k_total r0 = elbows_f * 0.9.
Proof.
  destruct three_segments as [r1|e] eqn:E; [|vm_compute in E; discriminate].
  destruct (inlet_outlet_adds_1_5 (libm := square_libm)
              0.01 900 25 0.0015 998 1 2 0.9 r1 E) as (r0 & ef & H).
  exists r1, r0, ef. split; [reflexivity|]. split; [|exact H].
  vm_compute in E. injection E as <-. reflexivity.
Defined.

(** Below 2300 the friction factor does not look at the roughness. *)
Lemma darcy_laminar_ignores_roughness {libm : Libm}
    (re roughness_m roughness_m' diameter_m : float) :
  (re <? 2300) = true ->
  darcy_friction_factor re roughness_m diameter_m
  = darcy_friction_factor re roughness_m' diameter_m.
Proof.
  intros H. unfold darcy_friction_factor. rewrite H.
  destruct (re <=? 0); reflexivity.
Qed.

(** C9: when the Reynolds number of a returned record is below 2300, the
    same call with any other roughness returns the same record. *)
Theorem laminar_ignores_roughness {libm : Libm}
    (flow_m3_h retention_time_s diameter_mm roughness_mm rho mu_mpa_s
     straight_segment_m k_elbow_90 : float) (io : bool)
    (roughness_mm' : float) (r : coil_result) :
  calculate_retention_coil flow_m3_h retention_time_s diameter_mm
    roughness_mm rho mu_mpa_s straight_segment_m k_elbow_90 io = Ok r ->
  (re r <? 2300) = true ->
  calculate_retention_coil flow_m3_h retention_time_s diameter_mm
    roughness_mm' rho mu_mpa_s straight_segment_m k_elbow_90 io = Ok r.
Proof.
  intros H Hlam. apply run_calculate_Ok.
  destruct (calculate_Ok_run _ _ _ _ _ _ _ _ _ _ H).
  econstructor; try eassumption.
  rewrite <- run_f. apply darcy_laminar_ignores_roughness, Hlam.
Qed.

(** The laminar example with a smooth pipe (0.0015 mm) and with a rough one
    (0.2 mm). *)
Lemma laminar_ignores_roughness_witness :
  laminar_example 0.0015 true = Ok (laminar_record true) /\
  (re (laminar_record true) <? 2300) = true /\
  laminar_example 0.2 true = Ok (laminar_record true).
Proof.
  split; [apply laminar_example_Ok|]. split; [reflexivity|].
  apply (laminar_ignores_roughness (libm := square_libm)
           0.01 60 25 0.0015 998 1 2 0.9 true 0.2).
  - vm_compute. reflexivity.
  - reflexivity.
Defined.

(** ** Zero diameter, zero viscosity *)

Lemma zero_over_1000 (z : float) : (z =? 0) = true -> (z / 1000 =? 0) = true.
Proof. intros H. destruct (FloatFacts.eqb_0_cases z H); subst; reflexivity. Qed.

(** The square of a zero is answered by the interpreter, not by libm. *)
Lemma py_pow_zero_2 {libm : Libm} (z : float) :
  (z =? 0) = true -> py_pow z 2 = Ok 0.
Proof.
  intros H. destruct (FloatFacts.eqb_0_cases z H); subst;
    vm_compute; reflexivity.
Qed.

Lemma zero_area : (math_pi * 0 / 4 =? 0) = true.
Proof. reflexivity. Qed.

(** A call either returns a record or raises. *)
Lemma result_cases {A : Type} (c : result A) :
  (exists a, c = Ok a) \/ (exists e, c = Raise e).
Proof. destruct c; eauto. Qed.

(** C2, as the code has it: with a zero diameter the call raises
    [ZeroDivisionError].  With a zero viscosity the call raises and returns
    no record; what it raises is [ZeroDivisionError], or else an exception
    that the call raises with the other eight inputs whatever the viscosity
    is (a step before the Reynolds number has raised it, and those steps do
    not look at the viscosity); and it is [ZeroDivisionError] whenever some
    viscosity turns the other eight inputs into a record. *)
Theorem zero_diameter_or_viscosity_raises {libm : Libm}
    (flow_m3_h retention_time_s diameter_mm roughness_mm rho mu_mpa_s
     straight_segment_m k_elbow_90 : float) (io : bool) :
  ((diameter_mm =? 0) = true ->
     calculate_retention_coil flow_m3_h retention_time_s diameter_mm
       roughness_mm rho mu_mpa_s straight_segment_m k_elbow_90 io
     = Raise ZeroDivisionError) /\
  ((mu_mpa_s =? 0) = true ->
     exists e : py_exception,
       calculate_retention_coil flow_m3_h retention_time_s diameter_mm
         roughness_mm rho mu_mpa_s straight_segment_m k_elbow_90 io
       = Raise e /\
       (e = ZeroDivisionError \/
        forall mu' : float,
          calculate_retention_coil flow_m3_h retention_time_s diameter_mm
            roughness_mm rho mu' straight_segment_m k_elbow_90 io
          = Raise e) /\
       (forall (mu' : float) (r' : coil_result),
          calculate_retention_coil flow_m3_h retention_time_s diameter_mm
            roughness_mm rho mu' straight_segment_m k_elbow_90 io = Ok r' ->
          e = ZeroDivisionError)).
Proof.
  split.
  - intros Hd. unfold calculate_retention_coil.
    rewrite (py_pow_zero_2 _ (zero_over_1000 _ Hd)). cbn [bind].
    rewrite (py_truediv_zero (flow_m3_h / 3600) (math_pi * 0 / 4) zero_area).
    reflexivity.
  - intros Hmu.
    assert (Hre : forall v d,
               reynolds_number rho v d (mu_mpa_s / 1000)
               = Raise ZeroDivisionError).
    { intros v d. apply py_truediv_zero, zero_over_1000, Hmu. }
    unfold calculate_retention_coil.
    destruct (py_pow _ 2) as [d2|e]; cbn [bind];
      [|exists e; split; [reflexivity|]; split;
        [right; reflexivity|discriminate]].
    destruct (py_truediv (flow_m3_h / 3600) _) as [v|e]; cbn [bind];
      [|exists e; split; [reflexivity|]; split;
        [right; reflexivity|discriminate]].
    destruct (py_truediv _ _) as [len|e]; cbn [bind];
      [|exists e; split; [reflexivity|]; split;
        [right; reflexivity|discriminate]].
    destruct (py_truediv _ _) as [segs|e]; cbn [bind];
      [|exists e; split; [reflexivity|]; split;
        [right; reflexivity|discriminate]].
    destruct (math_ceil _) as [c|e]; cbn [bind];
      [|exists e; split; [reflexivity|]; split;
        [right; reflexivity|discriminate]].
    rewrite Hre. cbn [bind]. exists ZeroDivisionError.
    split; [reflexivity|]. split; [left; reflexivity|reflexivity].
Qed.

(** A zero diameter; a zero viscosity where water returns a record; and a
    zero viscosity where [math.ceil] has raised before the viscosity is
    used. *)
Lemma zero_diameter_or_viscosity_raises_witness :
  calculate_retention_coil (libm := square_libm)
    0.01 60 0 0.0015 998 1 2 0.9 true = Raise ZeroDivisionError /\
  calculate_retention_coil (libm := square_libm)
    0.01 60 25 0.0015 998 0 2 0.9 true = Raise ZeroDivisionError /\
  (calculate_retention_coil (libm := square_libm)
     3600 1e300 1000 0.0015 998 0 1e-10 0.9 true = Raise OverflowError /\
   forall mu' : float,
     calculate_retention_coil (libm := square_libm)
       3600 1e300 1000 0.0015 998 mu' 1e-10 0.9 true = Raise OverflowError).
Proof.
  split; [|split].
  - apply (zero_diameter_or_viscosity_raises (libm := square_libm)
             0.01 60 0 0.0015 998 1 2 0.9 true).
    reflexivity.
  - destruct (zero_diameter_or_viscosity_raises (libm := square_libm)
                0.01 60 25 0.0015 998 0 2 0.9 true) as [_ H].
    destruct (H eq_refl) as (e & He & _ & Hz).
    rewrite He. f_equal.
    exact (Hz 1 (laminar_record true) (laminar_example_Ok 0.0015 true)).
  - destruct (zero_diameter_or_viscosity_raises (libm := square_libm)
                3600 1e300 1000 0.0015 998 0 1e-10 0.9 true) as [_ H].
    destruct (H eq_refl) as (e & He & [Hz|Hall] & _).
    + exfalso. rewrite Hz in He. vm_compute in He. discriminate.
    + assert (E : e = OverflowError).
      { vm_compute in He. congruence. }
      subst e. split; [apply Hall|exact Hall].
Defined.

(** With a zero viscosity and a retention time so long that the number of
    segments overflows, [math.ceil] raises before the Reynolds number is
    asked for, whatever the C library. *)
Lemma zero_viscosity_overflow {libm : Libm} :
  calculate_retention_coil 3600 1e300 1000 0.0015 998 0 1e-10 0.9 true
  = Raise OverflowError.
Proof. vm_compute. reflexivity. Qed.

Lemma zero_viscosity_counterexample :
  (0 =? 0) = true /\
  calculate_retention_coil (libm := square_libm)
    3600 1e300 1000 0.0015 998 0 1e-10 0.9 true <> Raise ZeroDivisionError.
Proof.
  split; [reflexivity|].
  rewrite (zero_viscosity_overflow (libm := square_libm)). discriminate.
Qed.

(** ** Signs *)

Section Signs.

Context {libm : Libm}.

(** [x ** 2], with the tests on the exponent carried out. *)
Lemma py_pow_2_unfold (x : float) :
  py_pow x 2 =
  if is_nan x then Ok x
  else if is_infinity x then Ok (abs x)
  else if x =? 0 then Ok 0
  else
    let a := if x <? 0 then - x else x in
    if a =? 1 then Ok 1
    else if is_infinity (libm_pow a 2) then Raise OverflowError
    else Ok (libm_pow a 2).
Proof.
  unfold py_pow.
  change (2 =? 0) with false. change (is_nan 2) with false.
  change (is_infinity 2) with false. change (0 <? 2) with true.
  change (2 <? 0) with false.
  replace (float_is_odd_integer 2) with false by (vm_compute; reflexivity).
  replace (float_is_integer 2) with true by (vm_compute; reflexivity).
  cbn [negb]. rewrite !andb_false_r. reflexivity.
Qed.

(** A square is never below zero. *)
Lemma py_pow_2_not_negative (x y : float) :
  py_pow x 2 = Ok y -> (y <? 0) = false.
Proof.
  rewrite py_pow_2_unfold.
  destruct (is_nan x) eqn:Hnan.
  { intros [= <-]. apply FloatFacts.nan_not_negative, Hnan. }
  destruct (is_infinity x).
  { intros [= <-]. apply FloatFacts.abs_not_negative. }
  destruct (x =? 0) eqn:Hz.
  { intros [= <-]. reflexivity. }
  cbv zeta.
  destruct (_ =? 1).
  { intros [= <-]. reflexivity. }
  destruct (is_infinity _); [discriminate|].
  intros [= <-].
  apply libm_pow_not_negative, FloatFacts.magnitude_positive; assumption.
Qed.

Lemma float_of_int_Ok (n : Z) (x : float) :
  float_of_int n = Ok x -> x = SF2Prim (binary_normalize prec emax n 0 false).
Proof.
  unfold float_of_int.
  destruct (binary_normalize prec emax n 0 false);
    try discriminate; intros [= <-]; reflexivity.
Qed.

Lemma float_of_int_not_negative (n : Z) (x : float) :
  (0 <= n)%Z -> float_of_int n = Ok x -> (x <? 0) = false.
Proof.
  intros Hn H. rewrite (float_of_int_Ok _ _ H).
  apply FloatFacts.SF2Prim_not_negative.
  apply FloatFacts.binary_normalize_not_negative, Hn.
Qed.

(** A friction factor is never below zero. *)
Lemma darcy_not_negative (re roughness_m diameter_m y : float) :
  darcy_friction_factor re roughness_m diameter_m = Ok y -> (y <? 0) = false.
Proof.
  unfold darcy_friction_factor.
  destruct (re <=? 0) eqn:Hle.
  { intros [= <-]. reflexivity. }
  destruct (re <? 2300).
  { intros H. apply py_truediv_Ok in H. destruct H as [Hz ->].
    apply FloatFacts.div_not_negative; auto.
    apply FloatFacts.not_leb_0_not_negative, Hle. }
  intros H. bind_inv H rel Hrel. bind_inv H p Hp. bind_inv H t Ht.
  bind_inv H l Hl. bind_inv H s Hs.
  apply py_truediv_Ok in H. destruct H as [Hz ->].
  apply FloatFacts.div_not_negative; auto.
  apply (py_pow_2_not_negative _ _ Hs).
Qed.

End Signs.

(** Lines 39 and 41-42 in exact real arithmetic: the velocity [q / area] and
    the length [q * t / area]. *)
Definition exact_velocity (q area : R) : R := (q / area)%R.
Definition exact_length (q t area : R) : R := (q * t / area)%R.

(** A negative viscosity gives a negative Reynolds number in the record
    (first run); a density and an elbow factor at the two ends of the float
    range give a [dp_local_pa] that is a NaN, infinity times zero (second
    run).  Every input that the claim constrains is as it asks. *)
Lemma negative_field_counterexample :
  (exists r : coil_result,
     calculate_retention_coil (libm := square_libm)
       0.01 60 25 0.0015 998 (-1) 2 0.9 true = Ok r /\
     (re r <? 0) = true /\ (0 <=? re r) = false) /\
  (exists r : coil_result,
     calculate_retention_coil (libm := square_libm)
       0.01 900 25 0.0015 5e-324 1 2 1e308 true = Ok r /\
     is_nan (dp_local_pa r) = true /\ (0 <=? dp_local_pa r) = false).
Proof.
  split; eexists; (split; [vm_compute; reflexivity|]); split; reflexivity.
Qed.

(** ** What can be raised *)

Section Raises.

Context {libm : Libm}.

(** A power of a base that is not below zero stays a float. *)
Lemma py_pow_not_complex (x y : float) :
  (x <? 0) = false -> py_pow x y <> Raise ComplexResult.
Proof.
  intros Hx. unfold py_pow. rewrite Hx. cbn [andb].
  repeat match goal with
         | |- context [if ?c then _ else _] => destruct c
         end; discriminate.
Qed.

Lemma py_pow_2_not_complex (x : float) : py_pow x 2 <> Raise ComplexResult.
Proof.
  rewrite py_pow_2_unfold. cbv zeta.
  repeat match goal with
         | |- context [if ?c then _ else _] => destruct c
         end; discriminate.
Qed.

Lemma py_truediv_raises (a b : float) (e : py_exception) :
  py_truediv a b = Raise e -> e = ZeroDivisionError.
Proof. unfold py_truediv. destruct (b =? 0); congruence. Qed.

Lemma math_log10_raises (x : float) (e : py_exception) :
  math_log10 x = Raise e -> e = ValueError.
Proof.
  unfold math_log10. cbv zeta.
  repeat match goal with
         | |- context [if ?c then _ else _] => destruct c
         end; congruence.
Qed.

Lemma math_ceil_raises (x : float) (e : py_exception) :
  math_ceil x = Raise e -> e = OverflowError \/ e = ValueError.
Proof.
  unfold math_ceil. destruct (Prim2SF x); intros [=]; auto.
Qed.

Lemma float_of_int_raises (n : Z) (e : py_exception) :
  float_of_int n = Raise e -> e = OverflowError.
Proof.
  unfold float_of_int. destruct (binary_normalize _ _ _ _ _); congruence.
Qed.

Lemma bind_Raise {A B : Type} (c : result A) (k : A -> result B)
    (e : py_exception) :
  bind c k = Raise e -> c = Raise e \/ exists a, c = Ok a /\ k a = Raise e.
Proof.
  destruct c as [a|e']; cbn; intros H; [right; eauto | left; congruence].
Qed.

Lemma darcy_not_complex (re roughness_m diameter_m : float) :
  darcy_friction_factor re roughness_m diameter_m <> Raise ComplexResult.
Proof.
  unfold darcy_friction_factor.
  destruct (re <=? 0) eqn:Hle; [discriminate|].
  destruct (re <? 2300).
  { intros H. apply py_truediv_raises in H. discriminate. }
  apply FloatFacts.not_leb_0_not_negative in Hle.
  intros H.
  apply bind_Raise in H. destruct H as [H|(rel & _ & H)].
  { apply py_truediv_raises in H. discriminate. }
  apply bind_Raise in H. destruct H as [H|(p & _ & H)].
  { exact (py_pow_not_complex _ _ Hle H). }
  apply bind_Raise in H. destruct H as [H|(t & _ & H)].
  { apply py_truediv_raises in H. discriminate. }
  apply bind_Raise in H. destruct H as [H|(l & _ & H)].
  { apply math_log10_raises in H. discriminate. }
  apply bind_Raise in H. destruct H as [H|(s & _ & H)].
  { exact (py_pow_2_not_complex _ H). }
  apply py_truediv_raises in H. discriminate.
Qed.

End Raises.

(** X1: the friction factor and the whole calculation stay within the floats:
    [re ** 0.9] is reached only past the two guards, with a base that is not
    below zero, and the other powers are squares.  What a call raises, if it
    raises, is [ZeroDivisionError], [OverflowError] or [ValueError]. *)
Theorem calculate_never_complex {libm : Libm}
    (flow_m3_h retention_time_s diameter_mm roughness_mm rho mu_mpa_s
     straight_segment_m k_elbow_90 : float) (io : bool) :
  (forall re roughness_m diameter_m : float,
     darcy_friction_factor re roughness_m diameter_m <> Raise ComplexResult) /\
  calculate_retention_coil flow_m3_h retention_time_s diameter_mm
    roughness_mm rho mu_mpa_s straight_segment_m k_elbow_90 io
  <> Raise ComplexResult.
Proof.
  split; [exact darcy_not_complex|].
  unfold calculate_retention_coil. intros H.
  apply bind_Raise in H. destruct H as [H|(d2 & _ & H)].
  { exact (py_pow_2_not_complex _ H). }
  apply bind_Raise in H. destruct H as [H|(v & _ & H)].
  { apply py_truediv_raises in H. discriminate. }
  apply bind_Raise in H. destruct H as [H|(len & _ & H)].
  { apply py_truediv_raises in H. discriminate. }
  apply bind_Raise in H. destruct H as [H|(segs & _ & H)].
  { apply py_truediv_raises in H. discriminate. }
  apply bind_Raise in H. destruct H as [H|(c & _ & H)].
  { apply math_ceil_raises in H. destruct H; discriminate. }
  apply bind_Raise in H. destruct H as [H|(re0 & _ & H)].
  { apply py_truediv_raises in H. discriminate. }
  apply bind_Raise in H. destruct H as [H|(f0 & _ & H)].
  { exact (darcy_not_complex _ _ _ H). }
  apply bind_Raise in H. destruct H as [H|(ef & _ & H)].
  { apply float_of_int_raises in H. discriminate. }
  apply bind_Raise in H. destruct H as [H|(v2 & _ & H)].
  { exact (py_pow_2_not_complex _ H). }
  apply bind_Raise in H. destruct H as [H|(ld & _ & H)].
  { apply py_truediv_raises in H. discriminate. }
  discriminate.
Qed.

(** ** A Reynolds number that is not a number *)

Lemma is_nan_eq (x : float) : is_nan x = true -> x = nan.
Proof.
  intros H. apply FloatFacts.is_nan_spec in H.
  rewrite <- (SF2Prim_Prim2SF x), H. reflexivity.
Qed.

Lemma add_nan_r (x : float) : x + nan = nan.
Proof.
  apply Prim2SF_inj. rewrite add_spec.
  change (Prim2SF nan) with S754_nan.
  destruct (Prim2SF x) as [[|]|[|]| |[|] m e]; reflexivity.
Qed.

(** X2: a NaN fails both guards of [darcy_friction_factor] ([re <= 0] and [re
    < 2300] are false of it), so the turbulent branch runs: with a zero
    diameter the relative roughness raises [ZeroDivisionError], and otherwise
    the Swamee-Jain expression gives a NaN, whatever the roughness. *)
Theorem darcy_of_nan {libm : Libm} (re roughness_m diameter_m : float) :
  is_nan re = true ->
  (re <=? 0) = false /\ (re <? 2300) = false /\
  darcy_friction_factor re roughness_m diameter_m =
  if diameter_m =? 0 then Raise ZeroDivisionError else Ok nan.
Proof.
  intros H. rewrite (is_nan_eq _ H).
  split; [reflexivity|]. split; [reflexivity|].
  unfold darcy_friction_factor.
  change (nan <=? 0) with false. change (nan <? 2300) with false.
  cbv iota. unfold py_truediv at 1.
  destruct (diameter_m =? 0); [reflexivity|]. cbn [bind].
  replace (py_pow nan 0.9) with (Ok nan) by (vm_compute; reflexivity).
  cbn [bind].
  replace (py_truediv 5.74 nan) with (Ok nan) by (vm_compute; reflexivity).
  cbn [bind]. rewrite add_nan_r.
  replace (math_log10 nan) with (Ok nan) by (vm_compute; reflexivity).
  cbn [bind].
  replace (py_pow nan 2) with (Ok nan) by (vm_compute; reflexivity).
  cbn [bind]. vm_compute. reflexivity.
Qed.

Lemma darcy_of_nan_witness :
  darcy_friction_factor (libm := square_libm) (0 / 0) 0.0000015 0.025 = Ok nan
  /\ darcy_friction_factor (libm := square_libm) (0 / 0) 0.0000015 0
     = Raise ZeroDivisionError.
Proof.
  split.
  - apply (darcy_of_nan (libm := square_libm) (0 / 0) 0.0000015 0.025).
    reflexivity.
  - apply (darcy_of_nan (libm := square_libm) (0 / 0) 0.0000015 0).
    reflexivity.
Defined.

(** ** Which inputs reach which fields *)

(** X3: the elbow factor and the inlet/outlet switch reach [k_total],
    [dp_local_pa] and [dp_total_pa] and nothing else: two calls that differ in
    them only raise the same exception, or return records that agree on the
    other ten fields. *)
Theorem elbow_inputs_reach_local_losses_only {libm : Libm}
    (flow_m3_h retention_time_s diameter_mm roughness_mm rho mu_mpa_s
     straight_segment_m : float)
    (k_elbow_90 k_elbow_90' : float) (io io' : bool) :
  match
    calculate_retention_coil flow_m3_h retention_time_s diameter_mm
      roughness_mm rho mu_mpa_s straight_segment_m k_elbow_90 io,
    calculate_retention_coil flow_m3_h retention_time_s diameter_mm
      roughness_mm rho mu_mpa_s straight_segment_m k_elbow_90' io'
  with
  | Ok r, Ok r' =>
      flow_m3_s r = flow_m3_s r' /\ velocity r = velocity r' /\
      required_volume_m3 r = required_volume_m3 r' /\
      length_m r = length_m r' /\ n_straights r = n_straights r' /\
      n_uturns r = n_uturns r' /\ elbows_90 r = elbows_90 r' /\
      re r = re r' /\ f r = f r' /\
      dp_distributed_pa r = dp_distributed_pa r'
  | Raise e, Raise e' => e = e'
  | _, _ => False
  end.
Proof.
  unfold calculate_retention_coil.
  destruct (py_pow _ 2) as [d2|e]; cbn [bind]; [|reflexivity].
  destruct (py_truediv (flow_m3_h / 3600) _) as [v|e]; cbn [bind];
    [|reflexivity].
  destruct (py_truediv _ _) as [len|e]; cbn [bind]; [|reflexivity].
  destruct (py_truediv _ _) as [segs|e]; cbn [bind]; [|reflexivity].
  destruct (math_ceil _) as [c|e]; cbn [bind]; [|reflexivity].
  destruct (reynolds_number _ _ _ _) as [re0|e]; cbn [bind]; [|reflexivity].
  destruct (darcy_friction_factor _ _ _) as [f0|e]; cbn [bind];
    [|reflexivity].
  destruct (float_of_int _) as [ef|e]; cbn [bind]; [|reflexivity].
  destruct (py_pow v 2) as [v2|e]; cbn [bind]; [|reflexivity].
  destruct (py_truediv len _) as [ld|e]; cbn [bind]; [|reflexivity].
  record_simpl. repeat split.
Qed.

(** X4: the layout does not look at the fluid or at the wall: two calls that
    differ in roughness, density and viscosity only, and both return, agree on
    the flow, the velocity, the volume, the length, the three counts and
    [k_total]. *)
Theorem layout_ignores_fluid {libm : Libm}
    (flow_m3_h retention_time_s diameter_mm straight_segment_m
     k_elbow_90 : float) (io : bool)
    (roughness_mm rho mu_mpa_s roughness_mm' rho' mu_mpa_s' : float)
    (r r' : coil_result) :
  calculate_retention_coil flow_m3_h retention_time_s diameter_mm
    roughness_mm rho mu_mpa_s straight_segment_m k_elbow_90 io = Ok r ->
  calculate_retention_coil flow_m3_h retention_time_s diameter_mm
    roughness_mm' rho' mu_mpa_s' straight_segment_m k_elbow_90 io = Ok r' ->
  flow_m3_s r = flow_m3_s r' /\ velocity r = velocity r' /\
  required_volume_m3 r = required_volume_m3 r' /\
  length_m r = length_m r' /\ n_straights r = n_straights r' /\
  n_uturns r = n_uturns r' /\ elbows_90 r = elbows_90 r' /\
  k_total r = k_total r'.
Proof.
  unfold calculate_retention_coil. intros H H'.
  bind_inv H d2 Hd2. bind_inv H v Hv. bind_inv H len Hlen.
  bind_inv H segs Hsegs. bind_inv H c Hc. bind_inv H re0 Hre.
  bind_inv H f0 Hf. bind_inv H ef Hef. bind_inv H v2 Hv2.
  bind_inv H ld Hld. injection H as <-.
  rewrite Hd2 in H'; cbn [bind] in H'. rewrite Hv in H'; cbn [bind] in H'.
  rewrite Hlen in H'; cbn [bind] in H'. rewrite Hsegs in H'; cbn [bind] in H'.
  rewrite Hc in H'; cbn [bind] in H'.
  bind_inv H' re1 Hre'. bind_inv H' f1 Hf'.
  rewrite Hef in H'; cbn [bind] in H'. rewrite Hv2 in H'; cbn [bind] in H'.
  rewrite Hld in H'; cbn [bind] in H'. injection H' as <-.
  record_simpl. repeat split.
Qed.

(** Water and cream (20 per cent) through the same coil. *)
Lemma layout_ignores_fluid_witness :
  exists r r' : coil_result,
    calculate_retention_coil (libm := square_libm)
      0.01 900 25 0.0015 998 1 2 0.9 true = Ok r /\
    calculate_retention_coil (libm := square_libm)
      0.01 900 25 0.045 1010 5 2 0.9 true = Ok r' /\
    (re r =? re r') = false /\
    length_m r = length_m r' /\ n_straights r = n_straights r' /\
    elbows_90 r = elbows_90 r' /\ k_total r = k_total r'.
Proof.
  destruct (calculate_retention_coil (libm := square_libm)
              0.01 900 25 0.0015 998 1 2 0.9 true) as [r|e] eqn:E;
    [|vm_compute in E; discriminate].
  destruct (calculate_retention_coil (libm := square_libm)
              0.01 900 25 0.045 1010 5 2 0.9 true) as [r'|e] eqn:E';
    [|vm_compute in E'; discriminate].
  exists r, r'. split; [reflexivity|]. split; [reflexivity|].
  split.
  - vm_compute in E, E'. injection E as <-. injection E' as <-. reflexivity.
  - pose proof (layout_ignores_fluid (libm := square_libm)
                  0.01 900 25 2 0.9 true 0.0015 998 1 0.045 1010 5 r r' E E')
      as (_ & _ & _ & Hl & Hn & _ & He & Hk).
    auto.
Defined.

(** X5: the flow regime does not look at the layout: two calls that differ in
    retention time and straight-segment length only, and both return, agree on
    the flow, the velocity, the Reynolds number and the friction factor. *)
Theorem regime_ignores_layout {libm : Libm}
    (flow_m3_h diameter_mm roughness_mm rho mu_mpa_s k_elbow_90 : float)
    (io : bool)
    (retention_time_s straight_segment_m retention_time_s'
     straight_segment_m' : float)
    (r r' : coil_result) :
  calculate_retention_coil flow_m3_h retention_time_s diameter_mm
    roughness_mm rho mu_mpa_s straight_segment_m k_elbow_90 io = Ok r ->
  calculate_retention_coil flow_m3_h retention_time_s' diameter_mm
    roughness_mm rho mu_mpa_s straight_segment_m' k_elbow_90 io = Ok r' ->
  flow_m3_s r = flow_m3_s r' /\ velocity r = velocity r' /\
  re r = re r' /\ f r = f r'.
Proof.
  unfold calculate_retention_coil. intros H H'.
  bind_inv H d2 Hd2. bind_inv H v Hv. bind_inv H len Hlen.
  bind_inv H segs Hsegs. bind_inv H c Hc. bind_inv H re0 Hre.
  bind_inv H f0 Hf. bind_inv H ef Hef. bind_inv H v2 Hv2.
  bind_inv H ld Hld. injection H as <-.
  rewrite Hd2 in H'; cbn [bind] in H'. rewrite Hv in H'; cbn [bind] in H'.
  bind_inv H' len' Hlen'. bind_inv H' segs' Hsegs'. bind_inv H' c' Hc'.
  rewrite Hre in H'; cbn [bind] in H'. rewrite Hf in H'; cbn [bind] in H'.
  bind_inv H' ef' Hef'. rewrite Hv2 in H'; cbn [bind] in H'.
  bind_inv H' ld' Hld'. injection H' as <-.
  record_simpl. repeat split.
Qed.

(** One minute in 2 m segments and a quarter of an hour in 1 m segments. *)
Lemma regime_ignores_layout_witness :
  exists r r' : coil_result,
    calculate_retention_coil (libm := square_libm)
      0.01 60 25 0.0015 998 1 2 0.9 true = Ok r /\
    calculate_retention_coil (libm := square_libm)
      0.01 900 25 0.0015 998 1 1 0.9 true = Ok r' /\
    n_straights r = 1%Z /\ n_straights r' = 6%Z /\
    velocity r = velocity r' /\ re r = re r' /\ f r = f r'.
Proof.
  destruct (calculate_retention_coil (libm := square_libm)
              0.01 60 25 0.0015 998 1 2 0.9 true) as [r|e] eqn:E;
    [|vm_compute in E; discriminate].
  destruct (calculate_retention_coil (libm := square_libm)
              0.01 900 25 0.0015 998 1 1 0.9 true) as [r'|e] eqn:E';
    [|vm_compute in E'; discriminate].
  exists r, r'. split; [reflexivity|]. split; [reflexivity|].
  pose proof (regime_ignores_layout (libm := square_libm)
                0.01 25 0.0015 998 1 0.9 true 60 2 900 1 r r' E E')
    as (_ & Hv & Hre & Hf).
  vm_compute in E, E'. injection E as <-. injection E' as <-.
  repeat split.
Defined.

(** ** No flow *)

Module ZeroFacts.

Import FloatFacts.

Lemma sf_zero_or_nan (x : float) :
  (x =? 0) = true \/ is_nan x = true <->
  sf_is_zero (Prim2SF x) = true \/ Prim2SF x = S754_nan.
Proof. rewrite eqb_0_true, is_nan_spec. reflexivity. Qed.

(** Zero times anything is a zero or a NaN. *)
Lemma mul_zero_l (a b : float) :
  (a =? 0) = true -> (a * b =? 0) = true \/ is_nan (a * b) = true.
Proof.
  rewrite sf_zero_or_nan, eqb_0_true, mul_spec. unfold SF64mul.
  destruct (Prim2SF a) as [sa|sa| |sa ma ea]; try discriminate. intros _.
  destruct (Prim2SF b) as [sb|sb| |sb mb eb]; cbn; auto.
Qed.

(** Zero over anything but zero is a zero or a NaN. *)
Lemma div_zero_l (a b : float) :
  (a =? 0) = true -> (b =? 0) = false ->
  (a / b =? 0) = true \/ is_nan (a / b) = true.
Proof.
  rewrite sf_zero_or_nan, eqb_0_true, div_spec. unfold SF64div.
  destruct (Prim2SF a) as [sa|sa| |sa ma ea]; try discriminate. intros _ _.
  destruct (Prim2SF b) as [sb|sb| |sb mb eb]; cbn; auto.
Qed.

(** A NaN numerator or denominator gives a NaN quotient, and a zero
    numerator gives a NaN quotient for a NaN or zero denominator only. *)
Lemma div_nan_l (a b : float) : is_nan a = true -> is_nan (a / b) = true.
Proof.
  rewrite !is_nan_spec, div_spec. intros ->. reflexivity.
Qed.

Lemma div_nan_r (a b : float) : is_nan b = true -> is_nan (a / b) = true.
Proof.
  rewrite !is_nan_spec, div_spec. intros ->.
  destruct (Prim2SF a); reflexivity.
Qed.

Lemma div_zero_nan (a b : float) :
  (a =? 0) = true -> (b =? 0) = false -> is_nan (a / b) = true ->
  is_nan b = true.
Proof.
  rewrite eqb_0_true, !is_nan_spec, div_spec. unfold SF64div.
  intros Ha Hb.
  assert (Hb' : sf_is_zero (Prim2SF b) = false).
  { destruct (sf_is_zero (Prim2SF b)) eqn:E; [|reflexivity].
    apply eqb_0_true in E. congruence. }
  destruct (Prim2SF a) as [sa|sa| |sa ma ea]; try discriminate.
  destruct (Prim2SF b) as [sb|sb| |sb mb eb]; cbn in *; congruence.
Qed.

Lemma math_ceil_Ok_not_nan (x : float) (c : Z) :
  math_ceil x = Ok c -> is_nan x = false.
Proof.
  unfold math_ceil. intros H. apply is_nan_false.
  destruct (Prim2SF x); congruence.
Qed.

Lemma math_ceil_zero (x : float) : (x =? 0) = true -> math_ceil x = Ok 0%Z.
Proof.
  rewrite eqb_0_true. unfold math_ceil.
  destruct (Prim2SF x); try discriminate. reflexivity.
Qed.

End ZeroFacts.

(** X6: with a flow of zero, a call that returns gives the degenerate coil:
    the velocity, the volume and the length are zero, there is one straight
    segment and no U-turn or elbow, and [k_total] is what is left of [0 *
    k_elbow_90], plus 1.5 with the inlet and outlet. *)
Theorem zero_flow_record {libm : Libm}
    (flow_m3_h retention_time_s diameter_mm roughness_mm rho mu_mpa_s
     straight_segment_m k_elbow_90 : float) (io : bool) (r : coil_result) :
  (flow_m3_h =? 0) = true ->
  calculate_retention_coil flow_m3_h retention_time_s diameter_mm
    roughness_mm rho mu_mpa_s straight_segment_m k_elbow_90 io = Ok r ->
  (velocity r =? 0) = true /\ (required_volume_m3 r =? 0) = true /\
  (length_m r =? 0) = true /\
  n_straights r = 1%Z /\ n_uturns r = 0%Z /\ elbows_90 r = 0%Z /\
  k_total r = (if io then 0 * k_elbow_90 + 1.5 else 0 * k_elbow_90).
Proof.
  intros Hflow H.
  destruct (calculate_Ok_run _ _ _ _ _ _ _ _ _ _ H).
  assert (Hq : (flow_m3_h / 3600 =? 0) = true).
  { destruct (FloatFacts.eqb_0_cases _ Hflow); subst; reflexivity. }
  apply py_truediv_Ok in run_velocity. destruct run_velocity as [Za Hv].
  apply py_truediv_Ok in run_length. destruct run_length as [_ Hlen].
  apply py_truediv_Ok in run_segments. destruct run_segments as [Zs ->].
  pose proof (ZeroFacts.math_ceil_Ok_not_nan _ _ run_ceil) as Hsegs.
  assert (Hlen_nan : is_nan (length_m r) = false).
  { destruct (is_nan (length_m r)) eqn:E; [|reflexivity].
    rewrite (ZeroFacts.div_nan_l _ straight_segment_m E) in Hsegs.
    discriminate. }
  assert (Harea : is_nan (math_pi * d2 / 4) = false).
  { destruct (is_nan (math_pi * d2 / 4)) eqn:E; [|reflexivity].
    rewrite Hlen, (ZeroFacts.div_nan_r _ _ E) in Hlen_nan. discriminate. }
  assert (Hvol : (required_volume_m3 r =? 0) = true).
  { rewrite run_volume.
    destruct (ZeroFacts.mul_zero_l _ retention_time_s Hq) as [Hz|Hn];
      [exact Hz|].
    rewrite Hlen, run_volume, (ZeroFacts.div_nan_l _ _ Hn) in Hlen_nan.
    discriminate. }
  assert (Hlength : (length_m r =? 0) = true).
  { destruct (ZeroFacts.div_zero_l _ _ Hvol Za) as [Hz|Hn].
    - rewrite Hlen. exact Hz.
    - rewrite Hlen, Hn in Hlen_nan. discriminate. }
  assert (Hvel : (velocity r =? 0) = true).
  { rewrite Hv. destruct (ZeroFacts.div_zero_l _ _ Hq Za) as [Hz|Hn];
      [exact Hz|].
    rewrite (ZeroFacts.div_zero_nan _ _ Hq Za Hn) in Harea. discriminate. }
  assert (Hc : c = 0%Z).
  { destruct (ZeroFacts.div_zero_l _ _ Hlength Zs) as [Hz|Hn].
    - rewrite (ZeroFacts.math_ceil_zero _ Hz) in run_ceil. congruence.
    - rewrite Hn in Hsegs. discriminate. }
  subst c.
  assert (Hn : n_straights r = 1%Z) by (rewrite run_n_straights; reflexivity).
  assert (Hu : n_uturns r = 0%Z) by (rewrite run_n_uturns, Hn; reflexivity).
  assert (He : elbows_90 r = 0%Z) by (rewrite run_elbows, Hu; reflexivity).
  repeat (split; [assumption|]).
  rewrite He in run_elbows_f. injection run_elbows_f as <-.
  exact run_k_total.
Qed.

Lemma zero_flow_record_witness :
  exists r : coil_result,
    calculate_retention_coil (libm := square_libm)
      0 60 25 0.0015 998 1 2 0.9 true = Ok r /\
    n_straights r = 1%Z /\ elbows_90 r = 0%Z /\ k_total r = 1.5.
Proof.
  destruct (calculate_retention_coil (libm := square_libm)
              0 60 25 0.0015 998 1 2 0.9 true) as [r|e] eqn:E;
    [|vm_compute in E; discriminate].
  exists r. split; [reflexivity|].
  destruct (zero_flow_record (libm := square_libm)
              0 60 25 0.0015 998 1 2 0.9 true r eq_refl E)
    as (_ & _ & _ & Hn & _ & He & Hk).
  repeat split; assumption.
Defined.

(** ** The page's tables and bounds *)

Section PageFacts.

Import ListNotations Page.
Local Open Scope string_scope.

Lemma dict_get_fluid_db (key : string) :
  dict_get key fluid_db = None \/
  exists entry, In (key, entry) fluid_db /\ dict_get key fluid_db = Some entry.
Proof.
  unfold fluid_db. cbn [dict_get].
  repeat match goal with
         | |- context [String.eqb key ?k] =>
             destruct (String.eqb_spec key k) as [->|_];
             [right; eexists; split; [|reflexivity]; cbn [In]; tauto|]
         end.
  left. reflexivity.
Qed.

(** X7: whatever is selected in the two select boxes, every number input of
    the sidebar has a positive lower bound and a default within its bounds. *)
Theorem number_inputs_well_formed (fluid_option roughness_source : string) :
  forallb well_formed (number_inputs fluid_option roughness_source) = true.
Proof.
  assert (Hrho : well_formed (rho_input fluid_option) = true).
  { unfold rho_input, default_rho.
    destruct (dict_get_fluid_db fluid_option) as [->|(entry & Hin & ->)];
      [reflexivity|].
    cbn [In fluid_db] in Hin.
    repeat destruct Hin as [[= _ <-]|Hin]; try reflexivity. destruct Hin. }
  assert (Hmu : well_formed (mu_input fluid_option) = true).
  { unfold mu_input, default_mu.
    destruct (dict_get_fluid_db fluid_option) as [->|(entry & Hin & ->)];
      [reflexivity|].
    cbn [In fluid_db] in Hin.
    repeat destruct Hin as [[= _ <-]|Hin]; try reflexivity. destruct Hin. }
  assert (Hrough : well_formed (roughness_mm_input roughness_source) = true).
  { unfold roughness_mm_input.
    repeat match goal with
           | |- context [String.eqb ?a ?b] => destruct (String.eqb a b)
           end; reflexivity. }
  unfold number_inputs. cbn [forallb]. rewrite Hrho, Hmu, Hrough. reflexivity.
Qed.

(** X8: the select box and the table agree: each product of the select box has
    an entry in [fluid_db], the manual entry (the last option) has none and so
    starts from 1000 kg/m3 and 1 mPa.s, and the table has no entry that the
    select box does not offer. *)
Theorem fluid_options_match_fluid_db :
  map fst fluid_db = removelast fluid_options /\
  (forall o : string, In o (removelast fluid_options) ->
     exists entry, dict_get o fluid_db = Some entry) /\
  dict_get (last fluid_options EmptyString) fluid_db = None /\
  (default_rho (last fluid_options EmptyString),
   default_mu (last fluid_options EmptyString))
  = (1000.0, 1.0)%float.
Proof.
  split; [reflexivity|]. split; [|split; reflexivity].
  intros o Hin. cbn in Hin.
  repeat destruct Hin as [<-|Hin]; try (eexists; reflexivity). destruct Hin.
Qed.

End PageFacts.

Module Rounding.

Local Open Scope R_scope.

(** Powers of two with an integer exponent. *)
Definition bpow (e : Z) : R := powerRZ 2 e.

Lemma bpow_pos (e : Z) : 0 < bpow e.
Proof. apply powerRZ_lt. lra. Qed.

Lemma bpow_add (a b : Z) : bpow (a + b) = bpow a * bpow b.
Proof. apply powerRZ_add. lra. Qed.

Lemma bpow_succ (e : Z) : bpow (e + 1) = 2 * bpow e.
Proof.
  rewrite bpow_add. change (bpow 1) with (powerRZ 2 1).
  rewrite powerRZ_1. lra.
Qed.

Lemma bpow_nonneg_exp (n : Z) : (0 <= n)%Z -> bpow n = IZR (2 ^ n).
Proof.
  intros Hn. unfold bpow. destruct n as [|p|p]; try lia.
  - reflexivity.
  - cbn [powerRZ]. rewrite <- (positive_nat_Z p).
    rewrite <- pow_IZR. reflexivity.
Qed.

Lemma bpow_le (a b : Z) : (a <= b)%Z -> bpow a <= bpow b.
Proof.
  intros H. replace b with (a + (b - a))%Z by lia.
  rewrite bpow_add, (bpow_nonneg_exp (b - a)) by lia.
  pose proof (bpow_pos a).
  assert (1 <= IZR (2 ^ (b - a))).
  { apply IZR_le. pose proof (Z.pow_pos_nonneg 2 (b - a)). lia. }
  nra.
Qed.

Lemma bpow_lt (a b : Z) : (a < b)%Z -> bpow a < bpow b.
Proof.
  intros H. pose proof (bpow_le (a + 1) b ltac:(lia)) as Hle.
  rewrite bpow_succ in Hle. pose proof (bpow_pos a). lra.
Qed.

Lemma bpow_lt_inv (a b : Z) : bpow a < bpow b -> (a < b)%Z.
Proof.
  intros H. destruct (Z_lt_le_dec a b) as [|Hle]; [assumption|].
  apply bpow_le in Hle. lra.
Qed.

(** The number of binary digits. *)
Lemma digits2_pos_spec (p : positive) :
  (2 ^ (Z.pos (digits2_pos p) - 1) <= Z.pos p < 2 ^ Z.pos (digits2_pos p))%Z.
Proof.
  induction p as [p IH|p IH|]; cbn [digits2_pos].
  - rewrite Pos2Z.inj_succ.
    replace (Z.succ (Z.pos (digits2_pos p)) - 1)%Z
      with (Z.succ (Z.pos (digits2_pos p) - 1)) by lia.
    rewrite !Z.pow_succ_r by lia. lia.
  - rewrite Pos2Z.inj_succ.
    replace (Z.succ (Z.pos (digits2_pos p)) - 1)%Z
      with (Z.succ (Z.pos (digits2_pos p) - 1)) by lia.
    rewrite !Z.pow_succ_r by lia. lia.
  - cbn. lia.
Qed.

Lemma Zdigits2_nonneg (m : Z) : (0 <= Zdigits2 m)%Z.
Proof. destruct m; cbn; lia. Qed.

Lemma Zdigits2_upper (m : Z) : (0 <= m)%Z -> (m < 2 ^ Zdigits2 m)%Z.
Proof.
  destruct m as [|p|p]; cbn [Zdigits2]; intros H; try lia.
  apply digits2_pos_spec.
Qed.

Lemma Zdigits2_lower (m : Z) :
  (0 < m)%Z -> (2 ^ (Zdigits2 m - 1) <= m)%Z.
Proof.
  destruct m as [|p|p]; cbn [Zdigits2]; intros H; try lia.
  apply digits2_pos_spec.
Qed.

(** A number with at most [d] digits, and one with at least [d]. *)
Lemma Zdigits2_le (m d : Z) :
  (0 <= m)%Z -> (0 <= d)%Z -> (m < 2 ^ d)%Z -> (Zdigits2 m <= d)%Z.
Proof.
  intros Hm Hd H. destruct (Z.eq_dec m 0) as [->|Hz]; [exact Hd|].
  pose proof (Zdigits2_lower m ltac:(lia)) as Hl.
  destruct (Z_le_gt_dec (Zdigits2 m) d) as [|Hgt]; [assumption|].
  assert (2 ^ d <= 2 ^ (Zdigits2 m - 1))%Z
    by (apply Z.pow_le_mono_r; lia).
  lia.
Qed.

Lemma Zdigits2_ge (m d : Z) :
  (0 <= d)%Z -> (2 ^ d <= m)%Z -> (d + 1 <= Zdigits2 m)%Z.
Proof.
  intros Hd H.
  assert (Hm : (0 < m)%Z) by (pose proof (Z.pow_pos_nonneg 2 d); lia).
  pose proof (Zdigits2_upper m ltac:(lia)) as Hu.
  destruct (Z_le_gt_dec (d + 1) (Zdigits2 m)) as [|Hgt]; [assumption|].
  assert (2 ^ Zdigits2 m <= 2 ^ d)%Z
    by (apply Z.pow_le_mono_r; pose proof (Zdigits2_nonneg m); lia).
  lia.
Qed.


(** ** Located values

    [located x m e l]: the real [x] lies in the cell [m * 2^e, (m+1) * 2^e),
    at the place in it that [l] names: on its lower end, in its lower half,
    on its middle, or in its upper half. *)
Definition located (x : R) (m e : Z) (l : location) : Prop :=
  match l with
  | loc_Exact => x = IZR m * bpow e
  | loc_Inexact Lt => IZR m * bpow e < x < (IZR m + / 2) * bpow e
  | loc_Inexact Eq => x = (IZR m + / 2) * bpow e
  | loc_Inexact Gt => (IZR m + / 2) * bpow e < x < (IZR m + 1) * bpow e
  end.

Lemma located_bounds (x : R) (m e : Z) (l : location) :
  located x m e l -> IZR m * bpow e <= x < (IZR m + 1) * bpow e.
Proof.
  pose proof (bpow_pos e). destruct l as [|[| |]]; cbn; intros; nra.
Qed.

Lemma IZR_xO (p : positive) : IZR (Z.pos p~0) = 2 * IZR (Z.pos p).
Proof. rewrite Pos2Z.inj_xO, mult_IZR. reflexivity. Qed.

Lemma IZR_xI (p : positive) : IZR (Z.pos p~1) = 2 * IZR (Z.pos p) + 1.
Proof. rewrite Pos2Z.inj_xI, plus_IZR, mult_IZR. reflexivity. Qed.

(** One shift to the right keeps the value located, one exponent up. *)
Lemma shr_1_located (x : R) (mrs : shr_record) (e : Z) :
  (0 <= shr_m mrs)%Z ->
  located x (shr_m mrs) e (loc_of_shr_record mrs) ->
  (0 <= shr_m (shr_1 mrs))%Z /\
  located x (shr_m (shr_1 mrs)) (e + 1) (loc_of_shr_record (shr_1 mrs)).
Proof.
  pose proof (bpow_pos e) as HB.
  destruct mrs as [m r s]. cbn [shr_m]. intros Hm.
  destruct m as [|[p|p|]|p]; [ | | | | exfalso; lia ];
    destruct r, s;
    cbn [shr_1 shr_m loc_of_shr_record located orb];
    rewrite bpow_succ; try rewrite (IZR_xO p); try rewrite (IZR_xI p);
    generalize dependent (bpow e); intros B HB;
    try generalize (IZR (Z.pos p)); intros; (split; [lia | ]).
  all: timeout 10 lra.
Qed.

Lemma iter_pos_shr_1_located (x : R) (n : positive) :
  forall (mrs : shr_record) (e : Z),
    (0 <= shr_m mrs)%Z ->
    located x (shr_m mrs) e (loc_of_shr_record mrs) ->
    (0 <= shr_m (SpecFloat.iter_pos shr_1 n mrs))%Z /\
    located x (shr_m (SpecFloat.iter_pos shr_1 n mrs)) (e + Z.pos n)
      (loc_of_shr_record (SpecFloat.iter_pos shr_1 n mrs)).
Proof.
  induction n as [n IH|n IH|]; intros mrs e Hm Hl; cbn [SpecFloat.iter_pos].
  - destruct (shr_1_located x mrs e Hm Hl) as [Hm1 Hl1].
    destruct (IH _ _ Hm1 Hl1) as [Hm2 Hl2].
    destruct (IH _ _ Hm2 Hl2) as [Hm3 Hl3].
    split; [assumption|].
    replace (e + Z.pos n~1)%Z with (e + 1 + Z.pos n + Z.pos n)%Z by lia.
    assumption.
  - destruct (IH _ _ Hm Hl) as [Hm2 Hl2].
    destruct (IH _ _ Hm2 Hl2) as [Hm3 Hl3].
    split; [assumption|].
    replace (e + Z.pos n~0)%Z with (e + Z.pos n + Z.pos n)%Z by lia.
    assumption.
  - apply shr_1_located; assumption.
Qed.

Lemma loc_of_shr_record_of_loc (m : Z) (l : location) :
  loc_of_shr_record (shr_record_of_loc m l) = l /\
  shr_m (shr_record_of_loc m l) = m.
Proof. destruct l as [|[| |]]; split; reflexivity. Qed.

(** Shifting to the exponent that the format asks for. *)
Lemma shr_fexp_located (x : R) (m e : Z) (l : location) :
  (0 <= m)%Z -> located x m e l ->
  let '(mrs, e') := shr_fexp prec emax m e l in
  (0 <= shr_m mrs)%Z /\
  located x (shr_m mrs) e' (loc_of_shr_record mrs) /\
  e' = Z.max e (fexp prec emax (Zdigits2 m + e)).
Proof.
  intros Hm Hl. unfold shr_fexp, shr.
  destruct (loc_of_shr_record_of_loc m l) as [Hloc Hshr].
  destruct (fexp prec emax (Zdigits2 m + e) - e)%Z as [|n|n] eqn:En.
  - rewrite Hloc, Hshr. repeat split; [assumption..|lia].
  - destruct (iter_pos_shr_1_located x n (shr_record_of_loc m l) e)
      as [Hm' Hl']; rewrite ?Hloc, ?Hshr; try assumption.
    repeat split; [assumption..|lia].
  - rewrite Hloc, Hshr. repeat split; [assumption..|lia].
Qed.

(** ** The binary64 format *)

Lemma fexp_eq (e : Z) : fexp prec emax e = Z.max (e - 53) (-1074).
Proof. reflexivity. Qed.

Lemma mul_bpow_lt_reg (a b : R) (e : Z) :
  a * bpow e < b * bpow e -> a < b.
Proof. pose proof (bpow_pos e) as HB. intros H. nra. Qed.

Lemma mul_bpow_le_reg (a b : R) (e : Z) :
  a * bpow e <= b * bpow e -> a <= b.
Proof. pose proof (bpow_pos e) as HB. intros H. nra. Qed.

Lemma IZR_pow2 (n : Z) : (0 <= n)%Z -> IZR (2 ^ n) = bpow n.
Proof. intros H. symmetry. apply bpow_nonneg_exp, H. Qed.

(** The state after the first shift: the value is located at an exponent of
    the format, with a mantissa of at most 53 bits, of exactly 53 bits above
    the least exponent. *)
Definition stage1 (x : R) (m1 e1 : Z) (l1 : location) : Prop :=
  located x m1 e1 l1 /\ (0 <= m1 < 2 ^ 53)%Z /\ (-1074 <= e1)%Z /\
  ((-1074 < e1)%Z -> (2 ^ 52 <= m1)%Z).

Lemma shr_fexp_stage1 (x : R) (m e : Z) (l : location) :
  (0 <= m)%Z -> located x m e l ->
  (e <= fexp prec emax (Zdigits2 m + e))%Z ->
  let '(mrs, e1) := shr_fexp prec emax m e l in
  stage1 x (shr_m mrs) e1 (loc_of_shr_record mrs).
Proof.
  intros Hm Hl Hprec.
  pose proof (shr_fexp_located x m e l Hm Hl) as H.
  destruct (shr_fexp prec emax m e l) as [mrs e1].
  destruct H as (Hm1 & Hl1 & He1).
  rewrite fexp_eq in *.
  pose proof (Zdigits2_nonneg m) as Hd.
  pose proof (Zdigits2_upper m Hm) as Hu.
  pose proof (located_bounds _ _ _ _ Hl) as [Hlo Hhi].
  pose proof (located_bounds _ _ _ _ Hl1) as [Hlo1 Hhi1].
  assert (Hx : x < bpow (Zdigits2 m + e)).
  { rewrite bpow_add, <- IZR_pow2 by assumption.
    assert (IZR m + 1 <= IZR (2 ^ Zdigits2 m)).
    { rewrite <- plus_IZR. apply IZR_le. lia. }
    pose proof (bpow_pos e). nra. }
  unfold stage1. split; [assumption|]. split; [|split].
  - split; [assumption|].
    apply lt_IZR. rewrite IZR_pow2 by lia.
    apply (mul_bpow_lt_reg _ _ e1). rewrite <- bpow_add.
    pose proof (bpow_le (Zdigits2 m + e) (53 + e1) ltac:(lia)). lra.
  - lia.
  - intros Hn.
    assert (Hpos : (0 < m)%Z).
    { destruct (Z.eq_dec m 0) as [->|]; [|lia]. cbn in He1, Hprec. lia. }
    pose proof (Zdigits2_lower m Hpos) as Hlow.
    assert (He : (e1 = Zdigits2 m + e - 53)%Z) by lia.
    assert (H52 : bpow (52 + e1) <= x).
    { replace (52 + e1)%Z with (Zdigits2 m - 1 + e)%Z by lia.
      rewrite bpow_add, <- IZR_pow2 by lia.
      apply IZR_le in Hlow. pose proof (bpow_pos e). nra. }
    assert (Hlt : IZR (2 ^ 52) < IZR (shr_m mrs) + 1).
    { rewrite IZR_pow2 by lia. apply (mul_bpow_lt_reg _ _ e1).
      rewrite <- bpow_add. lra. }
    rewrite <- plus_IZR in Hlt. apply lt_IZR in Hlt. lia.
Qed.

Lemma round_nearest_even_cases (m : Z) (l : location) :
  round_nearest_even m l = m \/ round_nearest_even m l = (m + 1)%Z.
Proof.
  destruct l as [|[| |]]; cbn [round_nearest_even]; auto.
  destruct (Z.even m); auto.
Qed.

(** What is left to do once the rounded mantissa [m2] is known: renormalise
    a carry into the 54th bit, and check for overflow. *)
Definition finish (s : bool) (m2 e1 : Z) : spec_float :=
  if (m2 =? 0)%Z then S754_zero s
  else if (m2 =? 2 ^ 53)%Z then
    if (e1 + 1 <=? 971)%Z then S754_finite s (Z.to_pos (2 ^ 52)) (e1 + 1)
    else S754_infinity s
  else
    if (e1 <=? 971)%Z then S754_finite s (Z.to_pos m2) e1
    else S754_infinity s.

Lemma shr_fexp_exact_small (m2 e1 : Z) :
  (0 <= m2 < 2 ^ 53)%Z -> (-1074 <= e1)%Z ->
  shr_fexp prec emax m2 e1 loc_Exact
  = ({| shr_m := m2; shr_r := false; shr_s := false |}, e1).
Proof.
  intros Hm He. unfold shr_fexp, shr. rewrite fexp_eq.
  pose proof (Zdigits2_le m2 53 ltac:(lia) ltac:(lia) ltac:(lia)) as Hd.
  pose proof (Zdigits2_nonneg m2).
  destruct (Z.max (Zdigits2 m2 + e1 - 53) (-1074) - e1)%Z eqn:E;
    try reflexivity.
  lia.
Qed.

Lemma shr_fexp_exact_carry (e1 : Z) :
  (-1074 <= e1)%Z ->
  shr_fexp prec emax (2 ^ 53) e1 loc_Exact
  = ({| shr_m := 2 ^ 52; shr_r := false; shr_s := false |}, (e1 + 1)%Z).
Proof.
  intros He. unfold shr_fexp, shr. rewrite fexp_eq.
  change (Zdigits2 (2 ^ 53)) with 54%Z.
  replace (Z.max (54 + e1 - 53) (-1074) - e1)%Z with 1%Z by lia.
  reflexivity.
Qed.

Lemma binary_round_aux_finish (s : bool) (m e : Z) (l : location) :
  let '(mrs, e1) := shr_fexp prec emax m e l in
  (0 <= shr_m mrs < 2 ^ 53)%Z -> (-1074 <= e1)%Z ->
  binary_round_aux prec emax s m e l
  = finish s (round_nearest_even (shr_m mrs) (loc_of_shr_record mrs)) e1.
Proof.
  unfold binary_round_aux.
  destruct (shr_fexp prec emax m e l) as [mrs e1]. intros Hm He.
  set (m2 := round_nearest_even (shr_m mrs) (loc_of_shr_record mrs)).
  assert (Hm2 : (0 <= m2 <= 2 ^ 53)%Z).
  { subst m2. destruct (round_nearest_even_cases (shr_m mrs)
                          (loc_of_shr_record mrs)) as [-> | ->]; lia. }
  unfold finish.
  destruct (Z.eqb_spec m2 (2 ^ 53)) as [Hc|Hc].
  - rewrite Hc, shr_fexp_exact_carry by assumption. cbn [shr_m].
    change (2 ^ 53 =? 0)%Z with false.
    change (emax - prec)%Z with 971%Z. reflexivity.
  - rewrite shr_fexp_exact_small by lia. cbn [shr_m].
    change (emax - prec)%Z with 971%Z.
    destruct m2 as [|p|p]; try lia; reflexivity.
Qed.

(** ** Rounding is monotone *)

Lemma round_nearest_even_ge (m : Z) (l : location) :
  (m <= round_nearest_even m l)%Z.
Proof. destruct (round_nearest_even_cases m l) as [-> | ->]; lia. Qed.

Lemma stage1_order (x y : R) (mx ex my ey : Z) (lx ly : location) :
  stage1 x mx ex lx -> stage1 y my ey ly -> x <= y ->
  ((ex < ey)%Z /\ (2 ^ 52 <= round_nearest_even my ly)%Z) \/
  (ex = ey /\ (round_nearest_even mx lx <= round_nearest_even my ly)%Z).
Proof.
  intros (Hlx & Hmx & Hex & Hnx) (Hly & Hmy & Hey & Hny) Hxy.
  pose proof (located_bounds _ _ _ _ Hlx) as [Hxlo Hxhi].
  pose proof (located_bounds _ _ _ _ Hly) as [Hylo Hyhi].
  destruct (Z.lt_trichotomy ex ey) as [Hlt|[Heq|Hgt]].
  - left. split; [assumption|].
    pose proof (round_nearest_even_ge my ly). specialize (Hny ltac:(lia)). lia.
  - right. split; [assumption|]. subst ey.
    pose proof (bpow_pos ex) as HB.
    assert (Hle : (mx <= my)%Z).
    { destruct (Z_le_gt_dec mx my) as [|Hgt]; [assumption|]. exfalso.
      assert (IZR my + 1 <= IZR mx)
        by (rewrite <- plus_IZR; apply IZR_le; lia).
      nra. }
    destruct (Z.eq_dec mx my) as [->|Hne].
    + destruct lx as [|[| |]], ly as [|[| |]];
        cbn [round_nearest_even located] in *;
        try lia; try (destruct (Z.even my); lia);
        exfalso; generalize dependent (bpow ex);
        generalize dependent (IZR my); intros; nra.
    + pose proof (round_nearest_even_ge my ly).
      destruct (round_nearest_even_cases mx lx) as [-> | ->]; lia.
  - exfalso. specialize (Hnx ltac:(lia)).
    assert (H1 : bpow 53 * bpow ey <= x).
    { rewrite <- bpow_add.
      pose proof (bpow_le (53 + ey) (52 + ex) ltac:(lia)) as Hb.
      rewrite (bpow_add 52 ex), <- (IZR_pow2 52) in Hb by lia.
      apply IZR_le in Hnx. pose proof (bpow_pos ex). nra. }
    assert (H2 : IZR my + 1 <= bpow 53).
    { rewrite <- (IZR_pow2 53), <- plus_IZR by lia. apply IZR_le. lia. }
    pose proof (bpow_pos ey). nra.
Qed.

Lemma SFleb_finite_pos (m1 m2 : positive) (e1 e2 : Z) :
  (e1 < e2)%Z \/ (e1 = e2 /\ (m1 <= m2)%positive) ->
  SFleb (S754_finite false m1 e1) (S754_finite false m2 e2) = true.
Proof.
  unfold SFleb. cbn [SFcompare]. intros [H|[-> H]].
  - apply Z.compare_lt_iff in H. rewrite H. reflexivity.
  - rewrite Z.compare_refl. fold (Pos.compare m1 m2).
    destruct (Pos.compare_spec m1 m2); try reflexivity. lia.
Qed.

Lemma finish_mono (m2x ex m2y ey : Z) :
  (0 <= m2x <= 2 ^ 53)%Z -> (0 <= m2y <= 2 ^ 53)%Z ->
  ((ex < ey)%Z /\ (2 ^ 52 <= m2y)%Z) \/ (ex = ey /\ (m2x <= m2y)%Z) ->
  SFleb (finish false m2x ex) (finish false m2y ey) = true.
Proof.
  intros Hx Hy H. unfold finish.
  destruct (Z.eqb_spec m2x 0) as [Hx0|Hx0].
  { repeat match goal with
           | |- context [if ?c then _ else _] => destruct c
           end; reflexivity. }
  assert (Hy0 : m2y <> 0%Z) by lia.
  destruct (Z.eqb_spec m2y 0) as [|_]; [contradiction|].
  destruct (Z.eqb_spec m2x (2 ^ 53)) as [Hxc|Hxc];
    destruct (Z.eqb_spec m2y (2 ^ 53)) as [Hyc|Hyc];
    repeat match goal with
           | |- context [(?a <=? ?b)%Z] => destruct (Z.leb_spec a b)
           end;
    try reflexivity; try lia;
    apply SFleb_finite_pos; lia.
Qed.

(** Of two located values, the smaller rounds to the smaller float. *)
Lemma binary_round_aux_mono (x y : R) (mx ex my ey : Z) (lx ly : location) :
  (0 <= mx)%Z -> located x mx ex lx ->
  (ex <= fexp prec emax (Zdigits2 mx + ex))%Z ->
  (0 <= my)%Z -> located y my ey ly ->
  (ey <= fexp prec emax (Zdigits2 my + ey))%Z ->
  x <= y ->
  SFleb (binary_round_aux prec emax false mx ex lx)
        (binary_round_aux prec emax false my ey ly) = true.
Proof.
  intros Hmx Hlx Hpx Hmy Hly Hpy Hxy.
  pose proof (shr_fexp_stage1 x mx ex lx Hmx Hlx Hpx) as Hsx.
  pose proof (shr_fexp_stage1 y my ey ly Hmy Hly Hpy) as Hsy.
  pose proof (binary_round_aux_finish false mx ex lx) as Hfx.
  pose proof (binary_round_aux_finish false my ey ly) as Hfy.
  destruct (shr_fexp prec emax mx ex lx) as [mrsx e1x].
  destruct (shr_fexp prec emax my ey ly) as [mrsy e1y].
  pose proof Hsx as (_ & Hbx & Hex & _).
  pose proof Hsy as (_ & Hby & Hey & _).
  rewrite Hfx, Hfy by assumption.
  apply finish_mono.
  - destruct (round_nearest_even_cases (shr_m mrsx) (loc_of_shr_record mrsx))
      as [-> | ->]; lia.
  - destruct (round_nearest_even_cases (shr_m mrsy) (loc_of_shr_record mrsy))
      as [-> | ->]; lia.
  - exact (stage1_order _ _ _ _ _ _ _ _ Hsx Hsy Hxy).
Qed.

(** ** Signs and order *)

Lemma binary_round_aux_opp (s : bool) (m e : Z) (l : location) :
  binary_round_aux prec emax (negb s) m e l
  = SFopp (binary_round_aux prec emax s m e l).
Proof.
  unfold binary_round_aux.
  destruct (shr_fexp prec emax m e l) as [mrs' e'].
  destruct (shr_fexp prec emax _ e' loc_Exact) as [mrs'' e''].
  destruct (shr_m mrs''); try reflexivity.
  destruct (e'' <=? emax - prec)%Z; reflexivity.
Qed.

Lemma SFcompare_opp (a b : spec_float) :
  SFcompare (SFopp a) (SFopp b) = SFcompare b a.
Proof.
  destruct a as [[|]|[|]| |[|] ma ea], b as [[|]|[|]| |[|] mb eb];
    cbn [SFopp SFcompare negb]; try reflexivity;
    rewrite (Z.compare_antisym ea eb);
    destruct (ea ?= eb)%Z; cbn [CompOpp]; try reflexivity;
    first [ rewrite (Pos.compare_cont_antisym ma mb Eq)
          | rewrite (Pos.compare_cont_antisym mb ma Eq) ];
    reflexivity.
Qed.

Lemma SFleb_opp (a b : spec_float) :
  SFleb (SFopp a) (SFopp b) = SFleb b a.
Proof. unfold SFleb. rewrite SFcompare_opp. reflexivity. Qed.

Lemma SFleb_refl (a : spec_float) : a <> S754_nan -> SFleb a a = true.
Proof.
  intros H. unfold SFleb.
  destruct a as [[|]|[|]| |[|] m e]; cbn [SFcompare]; try congruence;
    rewrite Z.compare_refl, Pos.compare_cont_refl; reflexivity.
Qed.

(** ** Floats of the format *)

Lemma bounded_spec (m : positive) (e : Z) :
  SpecFloat.bounded prec emax m e = true ->
  (Zdigits2 (Z.pos m) <= 53)%Z /\ (-1074 <= e <= 971)%Z /\
  ((-1074 < e)%Z -> Zdigits2 (Z.pos m) = 53%Z) /\
  e = fexp prec emax (Zdigits2 (Z.pos m) + e).
Proof.
  unfold SpecFloat.bounded, canonical_mantissa. rewrite andb_true_iff.
  change (emax - prec)%Z with 971%Z.
  rewrite Z.eqb_eq, Z.leb_le, !fexp_eq. cbn [Zdigits2]. lia.
Qed.

Lemma bounded_mantissa (m : positive) (e : Z) :
  SpecFloat.bounded prec emax m e = true ->
  (Z.pos m < 2 ^ 53)%Z /\ ((-1074 < e)%Z -> (2 ^ 52 <= Z.pos m)%Z).
Proof.
  intros H. destruct (bounded_spec m e H) as (Hd & He & Hn & _).
  pose proof (Zdigits2_upper (Z.pos m) ltac:(lia)) as Hu.
  pose proof (Zdigits2_lower (Z.pos m) ltac:(lia)) as Hl.
  split.
  - assert (2 ^ Zdigits2 (Z.pos m) <= 2 ^ 53)%Z
      by (apply Z.pow_le_mono_r; lia).
    lia.
  - intros Hgt. rewrite (Hn Hgt) in Hl. exact Hl.
Qed.

(** The value of a finite float or of a zero. *)
Definition SF2R (x : spec_float) : R :=
  match x with
  | S754_finite s m e => IZR (cond_Zopp s (Z.pos m)) * bpow e
  | _ => 0
  end.

Definition is_finite_SF (x : spec_float) : bool :=
  match x with
  | S754_finite _ _ _ | S754_zero _ => true
  | _ => false
  end.

Lemma F2R_pos (m : positive) (e : Z) : 0 < IZR (Z.pos m) * bpow e.
Proof.
  pose proof (bpow_pos e). assert (0 < IZR (Z.pos m)) by (apply IZR_lt; lia).
  nra.
Qed.

(** On floats of the format, the order of the exponents, then of the
    mantissas, is the order of the values. *)
Lemma SFleb_finite_pos_value (ma mb : positive) (ea eb : Z) :
  SpecFloat.bounded prec emax ma ea = true ->
  SpecFloat.bounded prec emax mb eb = true ->
  SFleb (S754_finite false ma ea) (S754_finite false mb eb) = true ->
  IZR (Z.pos ma) * bpow ea <= IZR (Z.pos mb) * bpow eb.
Proof.
  intros Ha Hb. unfold SFleb. cbn [SFcompare].
  destruct (bounded_mantissa _ _ Ha) as [Hua _].
  destruct (bounded_mantissa _ _ Hb) as [_ Hlb].
  destruct (bounded_spec _ _ Ha) as (_ & Hea & _).
  destruct (Z.compare_spec ea eb) as [->|Hlt|Hgt]; try discriminate.
  - fold (Pos.compare ma mb).
    destruct (Pos.compare_spec ma mb) as [->|H|H]; try discriminate;
      intros _; [lra|].
    pose proof (bpow_pos eb).
    assert (IZR (Z.pos ma) <= IZR (Z.pos mb)) by (apply IZR_le; lia). nra.
  - intros _. specialize (Hlb ltac:(lia)).
    apply IZR_lt in Hua. apply IZR_le in Hlb.
    rewrite IZR_pow2 in Hua, Hlb by lia.
    pose proof (bpow_le (ea + 1) eb ltac:(lia)) as Hle.
    rewrite bpow_succ in Hle.
    change (bpow 53) with (bpow (52 + 1)) in Hua. rewrite bpow_succ in Hua.
    pose proof (bpow_pos ea). pose proof (bpow_pos eb).
    pose proof (bpow_pos 52).
    assert (0 < IZR (Z.pos ma)) by (apply IZR_lt; lia).
    nra.
Qed.

Lemma SFleb_value (a b : spec_float) :
  valid_binary a = true -> valid_binary b = true ->
  is_finite_SF a = true -> is_finite_SF b = true ->
  SFleb a b = true -> SF2R a <= SF2R b.
Proof.
  intros Va Vb Fa Fb.
  destruct a as [sa|sa| |sa ma ea], b as [sb|sb| |sb mb eb];
    try discriminate; cbn [SF2R].
  - lra.
  - destruct sb; [discriminate|]. intros _. cbn [cond_Zopp].
    pose proof (F2R_pos mb eb). lra.
  - destruct sa; [|discriminate]. intros _. cbn [cond_Zopp].
    pose proof (F2R_pos ma ea). rewrite opp_IZR. lra.
  - destruct sa, sb; try discriminate; cbn [cond_Zopp]; cbn [valid_binary] in *.
    + intros H.
      change (S754_finite true ma ea) with (SFopp (S754_finite false ma ea))
        in H.
      change (S754_finite true mb eb) with (SFopp (S754_finite false mb eb))
        in H.
      rewrite SFleb_opp in H.
      apply SFleb_finite_pos_value in H; try assumption.
      rewrite !opp_IZR. lra.
    + intros _. pose proof (F2R_pos ma ea). pose proof (F2R_pos mb eb).
      rewrite opp_IZR. lra.
    + apply SFleb_finite_pos_value; assumption.
Qed.

(** ** Operations that scale by a positive factor

    Multiplying by a positive float and dividing by one have the same
    shape: infinities and zeros keep their sign, and a finite number is
    rounded from a located value that is its own value times a positive
    real.  Such an operation is monotone. *)

Inductive signed_as (s : bool) : spec_float -> Prop :=
  | signed_zero : signed_as s (S754_zero s)
  | signed_finite (m : positive) (e : Z) : signed_as s (S754_finite s m e)
  | signed_infinity : signed_as s (S754_infinity s).

Lemma finish_signed (s : bool) (m2 e1 : Z) : signed_as s (finish s m2 e1).
Proof.
  unfold finish.
  repeat match goal with
         | |- context [if ?c then _ else _] => destruct c
         end; constructor.
Qed.

Lemma binary_round_aux_signed (s : bool) (x : R) (m e : Z) (l : location) :
  (0 <= m)%Z -> located x m e l ->
  (e <= fexp prec emax (Zdigits2 m + e))%Z ->
  signed_as s (binary_round_aux prec emax s m e l).
Proof.
  intros Hm Hl Hp.
  pose proof (shr_fexp_stage1 x m e l Hm Hl Hp) as Hs.
  pose proof (binary_round_aux_finish s m e l) as Hf.
  destruct (shr_fexp prec emax m e l) as [mrs e1].
  destruct Hs as (_ & Hb & He & _).
  rewrite Hf by assumption. apply finish_signed.
Qed.

(** A negative result is below a positive one, whatever their sizes. *)
Lemma SFleb_signed (a b : spec_float) :
  signed_as true a -> signed_as false b -> SFleb a b = true.
Proof. intros [] []; reflexivity. Qed.

Lemma SFleb_signed_zero_l (s : bool) (b : spec_float) :
  signed_as false b -> SFleb (S754_zero s) b = true.
Proof. intros []; reflexivity. Qed.

Lemma SFleb_signed_zero_r (s : bool) (a : spec_float) :
  signed_as true a -> SFleb a (S754_zero s) = true.
Proof. intros []; reflexivity. Qed.

Lemma SFleb_signed_infinity_r (s : bool) (a : spec_float) :
  signed_as s a -> SFleb a (S754_infinity false) = true.
Proof. intros []; destruct s; reflexivity. Qed.

Lemma SFleb_signed_infinity_l (s : bool) (b : spec_float) :
  signed_as s b -> SFleb (S754_infinity true) b = true.
Proof. intros []; destruct s; reflexivity. Qed.

Section Scaling.

Variable op : spec_float -> spec_float.
Variable core : positive -> Z -> Z * Z * location.
Variable k : R.

Hypothesis k_pos : 0 < k.
Hypothesis op_zero : forall s, op (S754_zero s) = S754_zero s.
Hypothesis op_infinity : forall s, op (S754_infinity s) = S754_infinity s.
Hypothesis op_finite : forall s m e,
  op (S754_finite s m e)
  = let '(mz, ez, lz) := core m e in binary_round_aux prec emax s mz ez lz.
Hypothesis core_located : forall m e,
  SpecFloat.bounded prec emax m e = true ->
  let '(mz, ez, lz) := core m e in
  (0 <= mz)%Z /\ located (k * (IZR (Z.pos m) * bpow e)) mz ez lz /\
  (ez <= fexp prec emax (Zdigits2 mz + ez))%Z.

Lemma op_finite_signed (s : bool) (m : positive) (e : Z) :
  SpecFloat.bounded prec emax m e = true ->
  signed_as s (op (S754_finite s m e)).
Proof.
  intros Hb. rewrite op_finite. pose proof (core_located m e Hb) as H.
  destruct (core m e) as [[mz ez] lz]. destruct H as (Hm & Hl & Hp).
  exact (binary_round_aux_signed s _ mz ez lz Hm Hl Hp).
Qed.

Lemma op_finite_pos_mono (ma mb : positive) (ea eb : Z) :
  SpecFloat.bounded prec emax ma ea = true ->
  SpecFloat.bounded prec emax mb eb = true ->
  SFleb (S754_finite false ma ea) (S754_finite false mb eb) = true ->
  SFleb (op (S754_finite false ma ea)) (op (S754_finite false mb eb)) = true.
Proof.
  intros Ha Hb Hle.
  pose proof (SFleb_finite_pos_value _ _ _ _ Ha Hb Hle) as Hv.
  rewrite !op_finite.
  pose proof (core_located ma ea Ha) as Hca.
  pose proof (core_located mb eb Hb) as Hcb.
  destruct (core ma ea) as [[mza eza] lza].
  destruct (core mb eb) as [[mzb ezb] lzb].
  destruct Hca as (Hma & Hla & Hpa). destruct Hcb as (Hmb & Hlb & Hpb).
  apply (binary_round_aux_mono _ _ _ _ _ _ _ _ Hma Hla Hpa Hmb Hlb Hpb).
  nra.
Qed.

Lemma op_finite_neg_mono (ma mb : positive) (ea eb : Z) :
  SpecFloat.bounded prec emax ma ea = true ->
  SpecFloat.bounded prec emax mb eb = true ->
  SFleb (S754_finite true ma ea) (S754_finite true mb eb) = true ->
  SFleb (op (S754_finite true ma ea)) (op (S754_finite true mb eb)) = true.
Proof.
  intros Ha Hb Hle.
  change (S754_finite true ma ea) with (SFopp (S754_finite false ma ea))
    in Hle.
  change (S754_finite true mb eb) with (SFopp (S754_finite false mb eb))
    in Hle.
  rewrite SFleb_opp in Hle.
  pose proof (op_finite_pos_mono _ _ _ _ Hb Ha Hle) as H.
  rewrite !op_finite in *.
  destruct (core ma ea) as [[mza eza] lza].
  destruct (core mb eb) as [[mzb ezb] lzb].
  change true with (negb false).
  rewrite !binary_round_aux_opp, SFleb_opp. exact H.
Qed.

(** The operation is monotone on the floats of the format. *)
Theorem op_mono (a b : spec_float) :
  valid_binary a = true -> valid_binary b = true ->
  SFleb a b = true -> SFleb (op a) (op b) = true.
Proof.
  intros Va Vb Hle.
  destruct a as [sa|sa| |sa ma ea]; try discriminate;
    destruct b as [sb|sb| |sb mb eb]; try discriminate;
    cbn [valid_binary] in *;
    rewrite ?op_zero, ?op_infinity.
  - reflexivity.
  - destruct sb; [discriminate|reflexivity].
  - destruct sb; [discriminate|].
    apply SFleb_signed_zero_l, op_finite_signed, Vb.
  - destruct sa; [reflexivity|discriminate].
  - destruct sa, sb; try discriminate; reflexivity.
  - destruct sa; [|destruct sb; discriminate].
    apply (SFleb_signed_infinity_l sb), op_finite_signed, Vb.
  - destruct sa; [|discriminate].
    apply SFleb_signed_zero_r, op_finite_signed, Va.
  - destruct sb; [destruct sa; discriminate|].
    apply (SFleb_signed_infinity_r sa), op_finite_signed, Va.
  - destruct sa, sb.
    + apply op_finite_neg_mono; assumption.
    + apply SFleb_signed; apply op_finite_signed; assumption.
    + discriminate.
    + apply op_finite_pos_mono; assumption.
Qed.

End Scaling.

(** ** Multiplication by a positive float *)

Lemma Zdigits2_mul (m1 m2 : positive) :
  (Zdigits2 (Z.pos m1) + Zdigits2 (Z.pos m2) - 1
   <= Zdigits2 (Z.pos (m1 * m2)))%Z.
Proof.
  pose proof (Zdigits2_lower (Z.pos m1) ltac:(lia)) as H1.
  pose proof (Zdigits2_lower (Z.pos m2) ltac:(lia)) as H2.
  assert (D1 : (1 <= Zdigits2 (Z.pos m1))%Z) by (cbn; lia).
  assert (D2 : (1 <= Zdigits2 (Z.pos m2))%Z) by (cbn; lia).
  set (d1 := Zdigits2 (Z.pos m1)) in *. set (d2 := Zdigits2 (Z.pos m2)) in *.
  replace (d1 + d2 - 1)%Z with ((d1 - 1 + (d2 - 1)) + 1)%Z by lia.
  apply Zdigits2_ge; [lia|].
  rewrite Z.pow_add_r by lia. rewrite Pos2Z.inj_mul.
  apply Z.mul_le_mono_nonneg; try assumption;
    apply Z.pow_nonneg; lia.
Qed.

Section MulBy.

Variables (mc : positive) (ec : Z).
Hypothesis c_bounded : SpecFloat.bounded prec emax mc ec = true.

Definition mul_core (m : positive) (e : Z) : Z * Z * location :=
  (Z.pos (mc * m), (ec + e)%Z, loc_Exact).

Lemma mul_core_located (m : positive) (e : Z) :
  SpecFloat.bounded prec emax m e = true ->
  let '(mz, ez, lz) := mul_core m e in
  (0 <= mz)%Z /\
  located (IZR (Z.pos mc) * bpow ec * (IZR (Z.pos m) * bpow e)) mz ez lz /\
  (ez <= fexp prec emax (Zdigits2 mz + ez))%Z.
Proof.
  intros Hb. unfold mul_core. split; [lia|]. split.
  - cbn [located]. rewrite Pos2Z.inj_mul, mult_IZR, bpow_add. ring.
  - destruct (bounded_spec _ _ c_bounded) as (Hdc & Hec & Hnc & _).
    destruct (bounded_spec _ _ Hb) as (Hd & He & Hn & _).
    pose proof (Zdigits2_mul mc m) as HD.
    assert (1 <= Zdigits2 (Z.pos m))%Z by (cbn; lia).
    assert (1 <= Zdigits2 (Z.pos mc))%Z by (cbn; lia).
    rewrite fexp_eq. lia.
Qed.

Lemma SFmul_finite_mono (a b : spec_float) :
  valid_binary a = true -> valid_binary b = true -> SFleb a b = true ->
  SFleb (SF64mul (S754_finite false mc ec) a)
        (SF64mul (S754_finite false mc ec) b) = true.
Proof.
  apply (op_mono (SF64mul (S754_finite false mc ec)) mul_core
           (IZR (Z.pos mc) * bpow ec)).
  - apply F2R_pos.
  - reflexivity.
  - reflexivity.
  - reflexivity.
  - exact mul_core_located.
Qed.

End MulBy.

(** ** Division by a positive float *)

(** Where a remainder [k] out of [nb] steps puts the quotient. *)
Lemma new_location_spec (nb k : Z) :
  (0 <= k < nb)%Z ->
  match new_location nb k with
  | loc_Exact => k = 0%Z
  | loc_Inexact Lt => (0 < 2 * k < nb)%Z
  | loc_Inexact Eq => (2 * k = nb)%Z
  | loc_Inexact Gt => (nb < 2 * k)%Z
  end.
Proof.
  intros Hk. unfold new_location, new_location_even, new_location_odd.
  destruct (Z.even nb) eqn:Hev; destruct (Z.eqb_spec k 0) as [|Hk0];
    try assumption.
  - destruct (Z.compare_spec (2 * k) nb); lia.
  - assert (Hodd : Z.odd nb = true)
      by (rewrite <- Z.negb_even, Hev; reflexivity).
    apply Z.odd_spec in Hodd. destruct Hodd as [t Ht].
    destruct (Z.compare_spec (2 * k + 1) nb); lia.
Qed.

Lemma located_of_remainder (q r m2 e : Z) :
  (0 < m2)%Z -> (0 <= r < m2)%Z ->
  located ((IZR q + IZR r / IZR m2) * bpow e) q e (new_location m2 r).
Proof.
  intros Hm Hr. pose proof (new_location_spec m2 r Hr) as H.
  pose proof (bpow_pos e) as HB.
  assert (HM : 0 < IZR m2) by (apply IZR_lt; lia).
  set (rho := IZR r / IZR m2).
  assert (Hrho : rho * IZR m2 = IZR r) by (unfold rho; field; lra).
  revert H. destruct (new_location m2 r) as [|[| |]]; intros H; cbn [located].
  - subst r. unfold rho. rewrite Rdiv_0_l. ring.
  - apply (f_equal IZR) in H. rewrite mult_IZR in H.
    assert (Hhalf : rho = / 2) by nra. rewrite Hhalf. reflexivity.
  - destruct H as [H1 H2]. apply IZR_lt in H1, H2.
    rewrite mult_IZR in H1, H2.
    assert (0 < rho < / 2) by (split; nra). nra.
  - destruct Hr as [_ Hr]. apply IZR_lt in H, Hr. rewrite mult_IZR in H.
    assert (/ 2 < rho < 1) by (split; nra). nra.
Qed.

Section DivBy.

Variables (mc : positive) (ec : Z).

Definition div_core (m : positive) (e : Z) : Z * Z * location :=
  SFdiv_core_binary prec emax (Z.pos m) e (Z.pos mc) ec.

Lemma div_core_located (m : positive) (e : Z) :
  let '(mz, ez, lz) := div_core m e in
  (0 <= mz)%Z /\
  located (/ (IZR (Z.pos mc) * bpow ec) * (IZR (Z.pos m) * bpow e))
    mz ez lz /\
  (ez <= fexp prec emax (Zdigits2 mz + ez))%Z.
Proof.
  unfold div_core, SFdiv_core_binary.
  set (d1 := Zdigits2 (Z.pos m)). set (d2 := Zdigits2 (Z.pos mc)).
  set (e' := Z.min (fexp prec emax (d1 + e - (d2 + ec))) (e - ec)).
  set (s := (e - ec - e')%Z).
  assert (Hs : (0 <= s)%Z) by (unfold s, e'; lia).
  set (m' := match s with
             | 0%Z => Z.pos m
             | Z.pos _ => Z.shiftl (Z.pos m) s
             | Z.neg _ => 0%Z
             end).
  assert (Hm' : m' = (Z.pos m * 2 ^ s)%Z).
  { unfold m'. destruct s as [|p|p] eqn:Es; try lia.
    rewrite Z.shiftl_mul_pow2 by lia. reflexivity. }
  pose proof (Z_div_mod m' (Z.pos mc) ltac:(lia)) as Hdiv.
  destruct (Z.div_eucl m' (Z.pos mc)) as [q r].
  destruct Hdiv as [Heq Hr].
  assert (H2s : (0 < 2 ^ s)%Z) by (apply Z.pow_pos_nonneg; lia).
  assert (Hq : (0 <= q)%Z) by nia.
  split; [assumption|]. split.
  - assert (Hval :
      / (IZR (Z.pos mc) * bpow ec) * (IZR (Z.pos m) * bpow e)
      = (IZR q + IZR r / IZR (Z.pos mc)) * bpow e').
    { assert (HM : 0 < IZR (Z.pos mc)) by (apply IZR_lt; lia).
      pose proof (bpow_pos ec) as HB.
      replace e with (s + e' + ec)%Z at 1 by (unfold s; lia).
      rewrite !bpow_add, <- (IZR_pow2 s) by assumption.
      assert (Hm1 : IZR (Z.pos m) * IZR (2 ^ s)
                    = IZR (Z.pos mc) * IZR q + IZR r).
      { rewrite <- !mult_IZR, <- plus_IZR. f_equal. lia. }
      field_simplify; [|lra|lra].
      replace (IZR (Z.pos m) * IZR (2 ^ s) * bpow e')
        with ((IZR (Z.pos m) * IZR (2 ^ s)) * bpow e') by ring.
      rewrite Hm1. field. lra. }
    rewrite Hval. apply located_of_remainder; lia.
  - rewrite fexp_eq.
    destruct (Z_le_gt_dec e' (-1074)) as [|Hgt]; [lia|].
    assert (He' : e' = Z.min (Z.max (d1 + e - (d2 + ec) - 53) (-1074))
                         (e - ec)) by reflexivity.
    assert (HD : (e' + 53 <= d1 + e - (d2 + ec))%Z) by lia.
    pose proof (Zdigits2_lower (Z.pos m) ltac:(lia)) as Hl1.
    pose proof (Zdigits2_upper (Z.pos mc) ltac:(lia)) as Hu2.
    fold d1 in Hl1. fold d2 in Hu2.
    assert (D1 : (1 <= d1)%Z) by (unfold d1; cbn; lia).
    assert (D2 : (1 <= d2)%Z) by (unfold d2; cbn; lia).
    assert (Hbig : (2 ^ 52 * 2 ^ d2 <= m')%Z).
    { rewrite Hm'.
      assert (Hp : (2 ^ (52 + d2) <= 2 ^ (d1 - 1 + s))%Z)
        by (apply Z.pow_le_mono_r; unfold s; lia).
      rewrite !Z.pow_add_r in Hp by lia.
      assert (2 ^ (d1 - 1) * 2 ^ s <= Z.pos m * 2 ^ s)%Z
        by (apply Z.mul_le_mono_nonneg_r; lia).
      lia. }
    assert (Hq52 : (2 ^ 52 <= q)%Z) by nia.
    pose proof (Zdigits2_ge q 52 ltac:(lia) Hq52). lia.
Qed.

Lemma xorb_false_r' (s : bool) : xorb s false = s.
Proof. destruct s; reflexivity. Qed.

Lemma SFdiv_finite_mono (a b : spec_float) :
  valid_binary a = true -> valid_binary b = true -> SFleb a b = true ->
  SFleb (SF64div a (S754_finite false mc ec))
        (SF64div b (S754_finite false mc ec)) = true.
Proof.
  apply (op_mono (fun a => SF64div a (S754_finite false mc ec)) div_core
           (/ (IZR (Z.pos mc) * bpow ec))).
  - apply Rinv_0_lt_compat, F2R_pos.
  - intros s. unfold SF64div, SFdiv. rewrite xorb_false_r'. reflexivity.
  - intros s. unfold SF64div, SFdiv. rewrite xorb_false_r'. reflexivity.
  - intros s m e. unfold SF64div, SFdiv, div_core.
    rewrite xorb_false_r'. reflexivity.
  - intros m e _. apply div_core_located.
Qed.

End DivBy.

End Rounding.

Module Order.

Import FloatFacts Rounding.

Local Open Scope R_scope.

Lemma SFleb_finite_pos_inv (m1 m2 : positive) (e1 e2 : Z) :
  SFleb (S754_finite false m1 e1) (S754_finite false m2 e2) = true ->
  (e1 < e2)%Z \/ (e1 = e2 /\ (m1 <= m2)%positive).
Proof.
  unfold SFleb. cbn [SFcompare].
  destruct (Z.compare_spec e1 e2) as [->|H|H]; try discriminate.
  - fold (Pos.compare m1 m2).
    destruct (Pos.compare_spec m1 m2); try discriminate; intros _; right;
      split; try reflexivity; lia.
  - intros _. left. exact H.
Qed.

Lemma SFleb_finite_pos_trans (m1 m2 m3 : positive) (e1 e2 e3 : Z) :
  SFleb (S754_finite false m1 e1) (S754_finite false m2 e2) = true ->
  SFleb (S754_finite false m2 e2) (S754_finite false m3 e3) = true ->
  SFleb (S754_finite false m1 e1) (S754_finite false m3 e3) = true.
Proof.
  intros H1 H2. apply SFleb_finite_pos_inv in H1, H2.
  apply SFleb_finite_pos. lia.
Qed.

(** The order of the floats is transitive. *)
Lemma SFleb_trans (a b c : spec_float) :
  SFleb a b = true -> SFleb b c = true -> SFleb a c = true.
Proof.
  destruct a as [[|]|[|]| |[|] ma ea], b as [[|]|[|]| |[|] mb eb],
           c as [[|]|[|]| |[|] mc ec];
    try reflexivity; try discriminate; intros H1 H2.
  - change (S754_finite true ?m ?e) with (SFopp (S754_finite false m e))
      in *.
    rewrite SFleb_opp in *.
    exact (SFleb_finite_pos_trans _ _ _ _ _ _ H2 H1).
  - exact (SFleb_finite_pos_trans _ _ _ _ _ _ H1 H2).
Qed.

Lemma SFmul_comm (a b : spec_float) : SF64mul a b = SF64mul b a.
Proof.
  unfold SF64mul.
  destruct a as [sa|sa| |sa ma ea], b as [sb|sb| |sb mb eb]; cbn [SFmul];
    rewrite ?(xorb_comm sa sb); try reflexivity.
  rewrite (Pos.mul_comm ma mb), (Z.add_comm ea eb). reflexivity.
Qed.

(** A quotient of finite numbers, and a product, has the sign of its
    operands and is never a NaN. *)
Lemma SFmul_finite_signed (sa sb : bool) (ma mb : positive) (ea eb : Z) :
  SpecFloat.bounded prec emax ma ea = true ->
  SpecFloat.bounded prec emax mb eb = true ->
  signed_as (xorb sa sb)
    (SF64mul (S754_finite sa ma ea) (S754_finite sb mb eb)).
Proof.
  intros Ha Hb. unfold SF64mul. cbn [SFmul].
  pose proof (mul_core_located ma ea Ha mb eb Hb) as H.
  unfold mul_core in H. destruct H as (Hm & Hl & Hp).
  exact (binary_round_aux_signed _ _ _ _ _ Hm Hl Hp).
Qed.

Lemma SFdiv_finite_signed (sa sb : bool) (ma mb : positive) (ea eb : Z) :
  signed_as (xorb sa sb)
    (SF64div (S754_finite sa ma ea) (S754_finite sb mb eb)).
Proof.
  unfold SF64div. cbn [SFdiv].
  pose proof (div_core_located mb eb ma ea) as H. unfold div_core in H.
  destruct (SFdiv_core_binary prec emax (Z.pos ma) ea (Z.pos mb) eb)
    as [[mz ez] lz].
  destruct H as (Hm & Hl & Hp).
  exact (binary_round_aux_signed _ _ _ _ _ Hm Hl Hp).
Qed.

(** Dividing a positive number by a larger positive number gives less. *)
Lemma SFdiv_finite_antitone (ma m1 m2 : positive) (ea e1 e2 : Z) :
  SpecFloat.bounded prec emax m1 e1 = true ->
  SpecFloat.bounded prec emax m2 e2 = true ->
  SFleb (S754_finite false m1 e1) (S754_finite false m2 e2) = true ->
  SFleb (SF64div (S754_finite false ma ea) (S754_finite false m2 e2))
        (SF64div (S754_finite false ma ea) (S754_finite false m1 e1)) = true.
Proof.
  intros H1 H2 Hle.
  pose proof (SFleb_finite_pos_value _ _ _ _ H1 H2 Hle) as Hv.
  unfold SF64div. cbn [SFdiv xorb].
  pose proof (div_core_located m1 e1 ma ea) as L1.
  pose proof (div_core_located m2 e2 ma ea) as L2.
  unfold div_core in L1, L2.
  destruct (SFdiv_core_binary prec emax (Z.pos ma) ea (Z.pos m1) e1)
    as [[mz1 ez1] lz1].
  destruct (SFdiv_core_binary prec emax (Z.pos ma) ea (Z.pos m2) e2)
    as [[mz2 ez2] lz2].
  destruct L1 as (Hm1 & Hl1 & Hp1). destruct L2 as (Hm2 & Hl2 & Hp2).
  apply (binary_round_aux_mono _ _ _ _ _ _ _ _ Hm2 Hl2 Hp2 Hm1 Hl1 Hp1).
  pose proof (F2R_pos ma ea) as Pa. pose proof (F2R_pos m1 e1) as P1.
  pose proof (F2R_pos m2 e2) as P2.
  apply Rmult_le_compat_r; [lra|].
  apply Rinv_le_contravar; assumption.
Qed.

End Order.

(** ** Monotone float operations *)

Module Monotone.

Import FloatFacts Rounding.

Lemma is_nan_false_SF (x : float) :
  is_nan x = false <-> Prim2SF x <> S754_nan.
Proof. apply is_nan_false. Qed.

(** Multiplying by a float that is not below zero keeps the order, as long
    as no product is a NaN. *)
Lemma mul_le_mono_l (c a b : float) :
  (c <? 0) = false -> (a <=? b) = true ->
  is_nan (c * a) = false -> is_nan (c * b) = false ->
  (c * a <=? c * b) = true.
Proof.
  rewrite ltb_0_false, !is_nan_false_SF, !leb_spec, !mul_spec.
  pose proof (Prim2SF_valid c) as Vc. pose proof (Prim2SF_valid a) as Va.
  pose proof (Prim2SF_valid b) as Vb.
  intros Hc Hle Hna Hnb.
  destruct (Prim2SF c) as [sc|sc| |sc mc ec].
  - destruct (Prim2SF a) as [sa|sa| |sa ma ea],
             (Prim2SF b) as [sb|sb| |sb mb eb];
      cbn in *; try congruence; reflexivity.
  - destruct sc; [discriminate Hc|].
    destruct (Prim2SF a) as [sa|[|]| |[|] ma ea],
             (Prim2SF b) as [sb|[|]| |[|] mb eb];
      cbn [SF64mul SFmul xorb] in *; try congruence; try reflexivity;
      discriminate Hle.
  - exfalso. apply Hna. reflexivity.
  - destruct sc; [discriminate Hc|].
    apply SFmul_finite_mono; assumption.
Qed.

(** Dividing by a float above zero keeps the order, as long as no quotient
    is a NaN. *)
Lemma div_le_mono_r (a b c : float) :
  (0 <? c) = true -> (a <=? b) = true ->
  is_nan (a / c) = false -> is_nan (b / c) = false ->
  (a / c <=? b / c) = true.
Proof.
  rewrite ltb_0_true, !is_nan_false_SF, !leb_spec, !div_spec.
  pose proof (Prim2SF_valid a) as Va. pose proof (Prim2SF_valid b) as Vb.
  intros Hc Hle Hna Hnb.
  destruct (Prim2SF c) as [sc|sc| |sc mc ec]; try discriminate Hc.
  - destruct sc; [discriminate Hc|].
    destruct (Prim2SF a) as [sa|sa| |sa ma ea],
             (Prim2SF b) as [sb|sb| |sb mb eb];
      cbn in *; try congruence; reflexivity.
  - destruct sc; [discriminate Hc|].
    apply SFdiv_finite_mono; assumption.
Qed.

Local Open Scope R_scope.

(** [ceil_scaled z e] is the least integer that is not below [z * 2^e]. *)
Lemma ceil_scaled_spec (z e : Z) :
  IZR (ceil_scaled z e) - 1 < IZR z * bpow e <= IZR (ceil_scaled z e).
Proof.
  unfold ceil_scaled. destruct (Z.leb_spec 0 e) as [He|He].
  - rewrite mult_IZR, IZR_pow2 by assumption. lra.
  - set (k := (- e)%Z).
    assert (Hk : (0 < 2 ^ k)%Z) by (apply Z.pow_pos_nonneg; lia).
    pose proof (Z_div_mod (- z) (2 ^ k) ltac:(lia)) as Hdiv.
    unfold Z.div. destruct (Z.div_eucl (- z) (2 ^ k)) as [w r].
    destruct Hdiv as [Heq [Hr0 Hr1]].
    assert (HP : bpow e * IZR (2 ^ k) = 1).
    { rewrite IZR_pow2 by lia. rewrite <- bpow_add.
      replace (e + k)%Z with 0%Z by lia. reflexivity. }
    assert (Hz : IZR z = - (IZR (2 ^ k) * IZR w) - IZR r).
    { rewrite <- mult_IZR, <- opp_IZR, <- minus_IZR. f_equal. lia. }
    apply IZR_le in Hr0. apply IZR_lt in Hr1. apply IZR_lt in Hk.
    pose proof (bpow_pos e) as HB.
    rewrite opp_IZR, Hz.
    set (W := IZR w) in *. set (Rr := IZR r) in *.
    set (P := IZR (2 ^ k)) in *. set (Bv := bpow e) in *.
    clearbody W Rr P Bv.
    assert (HW : (- (P * W) - Rr) * Bv = - W - Rr * Bv).
    { replace ((- (P * W) - Rr) * Bv) with (- ((Bv * P) * W) - Rr * Bv)
        by ring.
      rewrite HP. ring. }
    rewrite HW.
    assert (HR0 : 0 <= Rr * Bv) by (apply Rmult_le_pos; lra).
    assert (HR1 : Rr * Bv < P * Bv) by (apply Rmult_lt_compat_r; lra).
    rewrite (Rmult_comm P Bv), HP in HR1. lra.
Qed.

Lemma math_ceil_Ok (x : float) (c : Z) :
  math_ceil x = Ok c ->
  is_finite_SF (Prim2SF x) = true /\
  IZR c - 1 < SF2R (Prim2SF x) <= IZR c.
Proof.
  unfold math_ceil.
  destruct (Prim2SF x) as [s|s| |s m e]; try discriminate; intros [= <-];
    (split; [reflexivity|]); cbn [SF2R].
  - lra.
  - apply ceil_scaled_spec.
Qed.

(** [math.ceil] keeps the order. *)
Lemma math_ceil_mono (a b : float) (ca cb : Z) :
  (a <=? b)%float = true -> math_ceil a = Ok ca -> math_ceil b = Ok cb ->
  (ca <= cb)%Z.
Proof.
  rewrite leb_spec. intros Hle Ha Hb.
  destruct (math_ceil_Ok _ _ Ha) as [Fa [Ha1 _]].
  destruct (math_ceil_Ok _ _ Hb) as [Fb [_ Hb2]].
  pose proof (SFleb_value _ _ (Prim2SF_valid a) (Prim2SF_valid b) Fa Fb Hle).
  assert (IZR ca < IZR cb + 1) by lra.
  rewrite <- plus_IZR in H0. apply lt_IZR in H0. lia.
Qed.

End Monotone.

Module Intervals.

Import FloatFacts Rounding Monotone Order.

Lemma leb_trans (a b c : float) :
  (a <=? b) = true -> (b <=? c) = true -> (a <=? c) = true.
Proof. rewrite !leb_spec. apply SFleb_trans. Qed.

Lemma mul_comm (a b : float) : a * b = b * a.
Proof. apply Prim2SF_inj. rewrite !mul_spec. apply SFmul_comm. Qed.

Lemma mul_le_mono_r (c a b : float) :
  (c <? 0) = false -> (a <=? b) = true ->
  is_nan (a * c) = false -> is_nan (b * c) = false ->
  (a * c <=? b * c) = true.
Proof.
  rewrite (mul_comm a c), (mul_comm b c). apply mul_le_mono_l.
Qed.

(** Dividing a number that is not below zero by a larger positive number
    gives less, as long as no quotient is a NaN. *)
Lemma div_le_antitone (a c c' : float) :
  (a <? 0) = false -> (0 <? c) = true -> (c <=? c') = true ->
  is_nan (a / c) = false -> is_nan (a / c') = false ->
  (a / c' <=? a / c) = true.
Proof.
  rewrite ltb_0_false, ltb_0_true, !is_nan_false, !leb_spec, !div_spec.
  pose proof (Prim2SF_valid c) as Vc. pose proof (Prim2SF_valid c') as Vc'.
  intros Ha Hc Hle Hn Hn'.
  destruct (Prim2SF a) as [sa|[|]| |[|] ma ea]; try discriminate Ha.
  - destruct (Prim2SF c) as [sc|[|]| |[|] mc ec]; try discriminate Hc;
      destruct (Prim2SF c') as [sc'|[|]| |[|] mc' ec']; try discriminate Hle;
      reflexivity.
  - destruct (Prim2SF c) as [sc|[|]| |[|] mc ec]; try discriminate Hc;
      destruct (Prim2SF c') as [sc'|[|]| |[|] mc' ec']; try discriminate Hle;
      try reflexivity; exfalso; (apply Hn; reflexivity) ||
                                (apply Hn'; reflexivity).
  - exfalso. apply Hn. reflexivity.
  - destruct (Prim2SF c) as [sc|[|]| |[|] mc ec]; try discriminate Hc;
      destruct (Prim2SF c') as [sc'|[|]| |[|] mc' ec']; try discriminate Hle.
    + reflexivity.
    + apply SFleb_signed_zero_l.
      apply (SFdiv_finite_signed false false).
    + apply SFdiv_finite_antitone; assumption.
Qed.

(** Finite numbers, seen through [Prim2SF]. *)
Lemma is_finite_spec (x : float) :
  is_finite x = is_finite_SF (Prim2SF x).
Proof.
  unfold is_finite, is_infinity.
  destruct (is_nan x) eqn:N.
  - apply is_nan_spec in N. rewrite N. reflexivity.
  - apply is_nan_false in N. cbn [negb andb].
    rewrite eqb_spec, abs_spec.
    change (Prim2SF infinity) with (S754_infinity false).
    destruct (Prim2SF x) as [s|s| |s m e]; try reflexivity.
    exfalso. apply N. reflexivity.
Qed.

Lemma is_finite_not_nan (x : float) : is_finite x = true -> is_nan x = false.
Proof. unfold is_finite. destruct (is_nan x); [discriminate|reflexivity]. Qed.

Lemma mul_finite_not_nan (a b : float) :
  is_finite a = true -> is_finite b = true -> is_nan (a * b) = false.
Proof.
  rewrite !is_finite_spec, is_nan_false, mul_spec.
  pose proof (Prim2SF_valid a) as Va. pose proof (Prim2SF_valid b) as Vb.
  destruct (Prim2SF a) as [sa|sa| |sa ma ea]; try discriminate;
    destruct (Prim2SF b) as [sb|sb| |sb mb eb]; try discriminate;
    intros _ _; try discriminate.
  destruct (SFmul_finite_signed sa sb ma mb ea eb Va Vb); discriminate.
Qed.

Lemma div_finite_not_nan (a b : float) :
  is_finite a = true -> (0 <? b) = true -> is_nan (a / b) = false.
Proof.
  rewrite is_finite_spec, ltb_0_true, is_nan_false, div_spec.
  destruct (Prim2SF a) as [sa|sa| |sa ma ea]; try discriminate;
    destruct (Prim2SF b) as [sb|[|]| |[|] mb eb]; try discriminate;
    intros _ _; try discriminate.
  destruct (SFdiv_finite_signed sa false ma mb ea eb); discriminate.
Qed.

(** ** Intervals with positive finite ends *)

Definition within (lo hi x : float) : bool := (lo <=? x) && (x <=? hi).

Lemma within_bounds (lo hi x : float) :
  within lo hi x = true <-> (lo <=? x) = true /\ (x <=? hi) = true.
Proof. unfold within. apply andb_true_iff. Qed.

Lemma leb_finite_r (x hi : float) :
  (0 <? x) = true -> (x <=? hi) = true -> is_finite hi = true ->
  is_finite x = true.
Proof.
  rewrite ltb_0_true, leb_spec, !is_finite_spec.
  destruct (Prim2SF x) as [s|[|]| |[|] m e]; try discriminate;
    destruct (Prim2SF hi) as [sh|[|]| |[|] mh eh]; try discriminate;
    reflexivity.
Qed.

Lemma ltb_leb_trans (lo x : float) :
  (0 <? lo) = true -> (lo <=? x) = true -> (0 <? x) = true.
Proof.
  rewrite !ltb_0_true, leb_spec.
  destruct (Prim2SF lo) as [s|[|]| |[|] m e]; try discriminate;
    destruct (Prim2SF x) as [sh|[|]| |[|] mh eh]; try discriminate;
    reflexivity.
Qed.

Section Within.

Variables lo1 hi1 lo2 hi2 a b : float.
Hypothesis lo1_pos : (0 <? lo1) = true.
Hypothesis lo2_pos : (0 <? lo2) = true.
Hypothesis hi1_finite : is_finite hi1 = true.
Hypothesis hi2_finite : is_finite hi2 = true.
Hypothesis a_within : within lo1 hi1 a = true.
Hypothesis b_within : within lo2 hi2 b = true.

Lemma within_facts :
  ((lo1 <=? a) = true /\ (a <=? hi1) = true /\
   (lo2 <=? b) = true /\ (b <=? hi2) = true) /\
  ((0 <? a) = true /\ (0 <? b) = true /\ (0 <? hi1) = true /\
   (0 <? hi2) = true) /\
  (is_finite lo1 = true /\ is_finite lo2 = true /\
   is_finite a = true /\ is_finite b = true).
Proof.
  apply within_bounds in a_within, b_within.
  destruct a_within as [La Ha], b_within as [Lb Hb].
  pose proof (ltb_leb_trans _ _ lo1_pos La) as Pa.
  pose proof (ltb_leb_trans _ _ lo2_pos Lb) as Pb.
  pose proof (leb_finite_r _ _ Pa Ha hi1_finite) as Fa.
  pose proof (leb_finite_r _ _ Pb Hb hi2_finite) as Fb.
  repeat split; try assumption.
  - exact (ltb_leb_trans _ _ Pa Ha).
  - exact (ltb_leb_trans _ _ Pb Hb).
  - exact (leb_finite_r _ _ lo1_pos La Fa).
  - exact (leb_finite_r _ _ lo2_pos Lb Fb).
Qed.

(** The product of two numbers within positive bounds is within the
    products of the bounds. *)
Lemma mul_within : within (lo1 * lo2) (hi1 * hi2) (a * b) = true.
Proof.
  destruct within_facts as ((La & Ha & Lb & Hb) & (Pa & Pb & Ph1 & Ph2) &
                            (Fl1 & Fl2 & Fa & Fb)).
  apply within_bounds. split.
  - apply (leb_trans _ (lo1 * b)).
    + apply mul_le_mono_l; try assumption.
      * apply positive_not_negative, lo1_pos.
      * apply mul_finite_not_nan; assumption.
      * apply mul_finite_not_nan; assumption.
    + apply mul_le_mono_r; try assumption.
      * apply positive_not_negative, Pb.
      * apply mul_finite_not_nan; assumption.
      * apply mul_finite_not_nan; assumption.
  - apply (leb_trans _ (hi1 * b)).
    + apply mul_le_mono_r; try assumption.
      * apply positive_not_negative, Pb.
      * apply mul_finite_not_nan; assumption.
      * apply mul_finite_not_nan; assumption.
    + apply mul_le_mono_l; try assumption.
      * apply positive_not_negative, Ph1.
      * apply mul_finite_not_nan; assumption.
      * apply mul_finite_not_nan; assumption.
Qed.

(** The quotient is within the quotients of the opposite bounds. *)
Lemma div_within : within (lo1 / hi2) (hi1 / lo2) (a / b) = true.
Proof.
  destruct within_facts as ((La & Ha & Lb & Hb) & (Pa & Pb & Ph1 & Ph2) &
                            (Fl1 & Fl2 & Fa & Fb)).
  apply within_bounds. split.
  - apply (leb_trans _ (lo1 / b)).
    + apply div_le_antitone; try assumption.
      * apply positive_not_negative, lo1_pos.
      * apply div_finite_not_nan; assumption.
      * apply div_finite_not_nan; assumption.
    + apply div_le_mono_r; try assumption.
      * apply div_finite_not_nan; assumption.
      * apply div_finite_not_nan; assumption.
  - apply (leb_trans _ (hi1 / b)).
    + apply div_le_mono_r; try assumption.
      * apply div_finite_not_nan; assumption.
      * apply div_finite_not_nan; assumption.
    + apply div_le_antitone; try assumption.
      * apply positive_not_negative, Ph1.
      * apply div_finite_not_nan; assumption.
      * apply div_finite_not_nan; assumption.
Qed.

End Within.

End Intervals.

Module Conversions.

Import FloatFacts Rounding Monotone Order.

Local Open Scope R_scope.

Lemma Zdigits2_shift (m d : positive) :
  Zdigits2 (Z.pos (shift_pos d m)) = (Zdigits2 (Z.pos m) + Z.pos d)%Z.
Proof.
  rewrite shift_pos_correct. change (Z.pow_pos 2 d) with (2 ^ Z.pos d)%Z.
  pose proof (digits2_pos_spec m) as [Hl Hu].
  change (Zdigits2 (Z.pos m)) with (Z.pos (digits2_pos m)).
  set (g := Z.pos (digits2_pos m)) in *.
  assert (Hp : (0 < 2 ^ Z.pos d)%Z) by (apply Z.pow_pos_nonneg; lia).
  apply Z.le_antisymm.
  - apply Zdigits2_le; try lia.
    rewrite Z.pow_add_r by lia. nia.
  - replace (g + Z.pos d)%Z with (g - 1 + Z.pos d + 1)%Z by lia.
    apply Zdigits2_ge; [lia|].
    rewrite Z.pow_add_r by lia. nia.
Qed.

(** Aligning a mantissa keeps the value and prepares the rounding. *)
Lemma shl_align_located (m : positive) (e : Z) :
  let '(mz, ez) :=
    shl_align m e (fexp prec emax (Z.pos (digits2_pos m) + e)) in
  located (IZR (Z.pos m) * bpow e) (Z.pos mz) ez loc_Exact /\
  (ez <= fexp prec emax (Zdigits2 (Z.pos mz) + ez))%Z.
Proof.
  unfold shl_align.
  set (e' := fexp prec emax (Z.pos (digits2_pos m) + e)).
  assert (He' : e' = fexp prec emax (Z.pos (digits2_pos m) + e))
    by reflexivity.
  destruct (e' - e)%Z as [|p|d] eqn:E.
  - split; [reflexivity|].
    change (Zdigits2 (Z.pos m)) with (Z.pos (digits2_pos m)). lia.
  - split; [reflexivity|].
    change (Zdigits2 (Z.pos m)) with (Z.pos (digits2_pos m)). lia.
  - change (Pos.iter xO m d) with (shift_pos d m). split.
    + cbn [located]. rewrite shift_pos_correct.
      change (Z.pow_pos 2 d) with (2 ^ Z.pos d)%Z.
      rewrite mult_IZR, IZR_pow2 by lia.
      replace e with (Z.pos d + e')%Z by lia. rewrite bpow_add. ring.
    + rewrite Zdigits2_shift.
      change (Zdigits2 (Z.pos m)) with (Z.pos (digits2_pos m)).
      replace (Z.pos (digits2_pos m) + Z.pos d + e')%Z
        with (Z.pos (digits2_pos m) + e)%Z by lia.
      lia.
Qed.

(** An integer up to [2^53] is converted to a float that is not above
    [2^53]. *)
Lemma binary_normalize_small (n : Z) :
  (0 <= n <= 2 ^ 53)%Z ->
  SFleb (binary_normalize prec emax n 0 false)
        (S754_finite false 4503599627370496 1) = true.
Proof.
  intros [H0 H1]. destruct n as [|m|m]; [reflexivity| |lia].
  cbn [binary_normalize]. unfold binary_round.
  pose proof (shl_align_located m 0) as H.
  destruct (shl_align m 0 _) as [mz ez]. destruct H as [Hl Hp].
  change (S754_finite false 4503599627370496 1)
    with (binary_round_aux prec emax false (2 ^ 53) 0 loc_Exact).
  apply (binary_round_aux_mono (IZR (Z.pos m) * bpow 0)
           (IZR (2 ^ 53) * bpow 0) (Z.pos mz) ez (2 ^ 53) 0
           loc_Exact loc_Exact).
  - lia.
  - exact Hl.
  - exact Hp.
  - lia.
  - reflexivity.
  - vm_compute. discriminate.
  - apply IZR_le in H1. pose proof (bpow_pos 0). nra.
Qed.

Lemma float_of_int_small (n : Z) :
  (0 <= n <= 2 ^ 53)%Z -> exists x : float, float_of_int n = Ok x.
Proof.
  intros Hn. unfold float_of_int.
  pose proof (binary_normalize_small n Hn) as Hle.
  pose proof (binary_normalize_not_negative n 0 (proj1 Hn)) as Hs.
  destruct (binary_normalize prec emax n 0 false) as [s|[|]| |s m e];
    try discriminate; eexists; reflexivity.
Qed.

(** A finite float has a ceiling. *)
Lemma math_ceil_finite (x : float) :
  is_finite x = true -> exists c : Z, math_ceil x = Ok c.
Proof.
  unfold is_finite, math_ceil. intros H.
  apply andb_true_iff in H. destruct H as [Hn Hi].
  apply negb_true_iff in Hn, Hi. apply is_nan_false in Hn.
  revert Hi. unfold is_infinity. rewrite eqb_spec, abs_spec.
  change (Prim2SF infinity) with (S754_infinity false).
  destruct (Prim2SF x) as [s|s| |s m e]; try discriminate;
    try (intros _; eexists; reflexivity).
  congruence.
Qed.

End Conversions.

(** ** Sums of positive numbers, and opposites *)

Module Sums.

Import FloatFacts Rounding Monotone Order Conversions.

Local Open Scope R_scope.

Lemma shl_align_value (m : positive) (e ez : Z) :
  (ez <= e)%Z ->
  IZR (Z.pos (fst (shl_align m e ez))) * bpow ez = IZR (Z.pos m) * bpow e.
Proof.
  intros Hle. unfold shl_align.
  destruct (ez - e)%Z as [|p|d] eqn:E; cbn [fst].
  - replace ez with e by lia. reflexivity.
  - lia.
  - change (Pos.iter xO m d) with (shift_pos d m).
    rewrite shift_pos_correct.
    change (Z.pow_pos 2 d) with (2 ^ Z.pos d)%Z.
    rewrite mult_IZR, IZR_pow2 by lia.
    replace e with (Z.pos d + ez)%Z by lia. rewrite bpow_add. ring.
Qed.

(** The sum of two positive finite numbers is rounded from their exact
    sum. *)
Lemma SFadd_finite_pos_located (m1 m2 : positive) (e1 e2 : Z) :
  exists (mz : positive) (ez : Z),
    SF64add (S754_finite false m1 e1) (S754_finite false m2 e2)
    = binary_round_aux prec emax false (Z.pos mz) ez loc_Exact /\
    located (IZR (Z.pos m1) * bpow e1 + IZR (Z.pos m2) * bpow e2)
      (Z.pos mz) ez loc_Exact /\
    (ez <= fexp prec emax (Zdigits2 (Z.pos mz) + ez))%Z.
Proof.
  unfold SF64add, SFadd. cbv zeta. cbn [cond_Zopp].
  change (IntDef.Z.min e1 e2) with (Z.min e1 e2).
  set (ez := Z.min e1 e2).
  pose proof (shl_align_value m1 e1 ez ltac:(lia)) as V1.
  pose proof (shl_align_value m2 e2 ez ltac:(lia)) as V2.
  set (a := fst (shl_align m1 e1 ez)) in *.
  set (b := fst (shl_align m2 e2 ez)) in *.
  change (Z.pos a + Z.pos b)%Z with (Z.pos (a + b)).
  cbn [binary_normalize]. unfold binary_round.
  pose proof (shl_align_located (a + b) ez) as H.
  destruct (shl_align (a + b) ez _) as [mz ez'].
  destruct H as [Hl Hp].
  exists mz, ez'. split; [reflexivity|]. split; [|exact Hp].
  cbn [located] in *. rewrite <- Hl, <- V1, <- V2.
  rewrite Pos2Z.inj_add, plus_IZR. ring.
Qed.

Lemma SFadd_finite_pos_mono (m1 m2 m1' m2' : positive) (e1 e2 e1' e2' : Z) :
  SpecFloat.bounded prec emax m1 e1 = true ->
  SpecFloat.bounded prec emax m2 e2 = true ->
  SpecFloat.bounded prec emax m1' e1' = true ->
  SpecFloat.bounded prec emax m2' e2' = true ->
  SFleb (S754_finite false m1 e1) (S754_finite false m1' e1') = true ->
  SFleb (S754_finite false m2 e2) (S754_finite false m2' e2') = true ->
  SFleb (SF64add (S754_finite false m1 e1) (S754_finite false m2 e2))
        (SF64add (S754_finite false m1' e1') (S754_finite false m2' e2'))
  = true.
Proof.
  intros B1 B2 B1' B2' L1 L2.
  pose proof (SFleb_finite_pos_value _ _ _ _ B1 B1' L1) as V1.
  pose proof (SFleb_finite_pos_value _ _ _ _ B2 B2' L2) as V2.
  destruct (SFadd_finite_pos_located m1 m2 e1 e2)
    as (mz & ez & -> & Hl & Hp).
  destruct (SFadd_finite_pos_located m1' m2' e1' e2')
    as (mz' & ez' & -> & Hl' & Hp').
  apply (binary_round_aux_mono _ _ _ _ _ _ _ _ (Pos2Z.is_nonneg mz) Hl Hp
           (Pos2Z.is_nonneg mz') Hl' Hp').
  lra.
Qed.

Local Open Scope float_scope.

Lemma positive_finite_SF (x : float) :
  (0 <? x) = true -> is_finite x = true ->
  exists (m : positive) (e : Z),
    Prim2SF x = S754_finite false m e /\
    SpecFloat.bounded prec emax m e = true.
Proof.
  rewrite ltb_0_true, Intervals.is_finite_spec.
  pose proof (Prim2SF_valid x) as V.
  destruct (Prim2SF x) as [s|s| |[|] m e]; try discriminate.
  intros _ _. exists m, e. split; [reflexivity|exact V].
Qed.

(** Adding positive finite numbers keeps the order. *)
Lemma add_le_mono_pos (a a' b b' : float) :
  (0 <? a) = true -> (a <=? a') = true -> is_finite a' = true ->
  (0 <? b) = true -> (b <=? b') = true -> is_finite b' = true ->
  (a + b <=? a' + b') = true.
Proof.
  intros Pa La Fa' Pb Lb Fb'.
  pose proof (Intervals.ltb_leb_trans _ _ Pa La) as Pa'.
  pose proof (Intervals.ltb_leb_trans _ _ Pb Lb) as Pb'.
  pose proof (Intervals.leb_finite_r _ _ Pa La Fa') as Fa.
  pose proof (Intervals.leb_finite_r _ _ Pb Lb Fb') as Fb.
  destruct (positive_finite_SF _ Pa Fa) as (ma & ea & Ea & Ba).
  destruct (positive_finite_SF _ Pb Fb) as (mb & eb & Eb & Bb).
  destruct (positive_finite_SF _ Pa' Fa') as (ma' & ea' & Ea' & Ba').
  destruct (positive_finite_SF _ Pb' Fb') as (mb' & eb' & Eb' & Bb').
  revert La Lb. rewrite !leb_spec, !add_spec, Ea, Eb, Ea', Eb'.
  apply SFadd_finite_pos_mono; assumption.
Qed.

Section AddWithin.

Variables lo1 hi1 lo2 hi2 a b : float.
Hypothesis lo1_pos : (0 <? lo1) = true.
Hypothesis lo2_pos : (0 <? lo2) = true.
Hypothesis hi1_finite : is_finite hi1 = true.
Hypothesis hi2_finite : is_finite hi2 = true.
Hypothesis a_within : Intervals.within lo1 hi1 a = true.
Hypothesis b_within : Intervals.within lo2 hi2 b = true.

(** The sum of two numbers within positive bounds is within the sums of
    the bounds. *)
Lemma add_within : Intervals.within (lo1 + lo2) (hi1 + hi2) (a + b) = true.
Proof.
  destruct (Intervals.within_facts _ _ _ _ _ _ lo1_pos lo2_pos hi1_finite
              hi2_finite a_within b_within)
    as ((La & Ha & Lb & Hb) & (Pa & Pb & Ph1 & Ph2) & (Fl1 & Fl2 & Fa & Fb)).
  apply Intervals.within_bounds. split.
  - apply add_le_mono_pos; assumption.
  - apply add_le_mono_pos; assumption.
Qed.

End AddWithin.

(** The opposite of a number within bounds is within the opposite
    bounds. *)
Lemma opp_within (lo hi x : float) :
  Intervals.within lo hi x = true ->
  Intervals.within (- hi) (- lo) (- x) = true.
Proof.
  intros H. apply Intervals.within_bounds in H. destruct H as [L U].
  apply Intervals.within_bounds.
  rewrite !leb_spec, !opp_spec, !SFleb_opp, <- !leb_spec. auto.
Qed.

(** A number whose opposite is positive and finite. *)
Lemma opp_positive_finite (x : float) :
  (0 <? - x) = true -> is_finite (- x) = true ->
  (x <? 0) = true /\ (x =? 0) = false /\ is_finite x = true.
Proof.
  rewrite ltb_0_true, !Intervals.is_finite_spec, opp_spec, eqb_spec,
    ltb_spec, Prim2SF_zero.
  destruct (Prim2SF x) as [s|s| |[|] m e]; try discriminate; auto.
Qed.

End Sums.

(** ** More retention time, more pipe *)

Lemma not_negative_positive (x : float) :
  (x <? 0) = false -> (x =? 0) = false -> is_nan x = false ->
  (0 <? x) = true.
Proof.
  intros Hneg Hz Hnan.
  pose proof (FloatFacts.magnitude_positive x Hnan Hz) as H.
  rewrite Hneg in H. exact H.
Qed.

Lemma not_nan_div_l (a b : float) : is_nan (a / b) = false -> is_nan a = false.
Proof.
  intros H. destruct (is_nan a) eqn:E; [|reflexivity].
  rewrite (ZeroFacts.div_nan_l a b E) in H. discriminate.
Qed.

Lemma not_nan_div_r (a b : float) : is_nan (a / b) = false -> is_nan b = false.
Proof.
  intros H. destruct (is_nan b) eqn:E; [|reflexivity].
  rewrite (ZeroFacts.div_nan_r a b E) in H. discriminate.
Qed.

Section Area.

Context {libm : Libm}.

(** The cross-section of a run that returns is above zero: its square is not
    below zero, the division by it went through, and a NaN would have
    reached [math.ceil]. *)
Lemma run_area_positive
    (flow_m3_h retention_time_s straight_segment_m d d2 len segs : float)
    (c : Z) :
  py_pow d 2 = Ok d2 ->
  py_truediv (flow_m3_h / 3600 * retention_time_s) (math_pi * d2 / 4)
  = Ok len ->
  py_truediv len straight_segment_m = Ok segs ->
  math_ceil segs = Ok c ->
  (0 <? math_pi * d2 / 4) = true /\ is_nan len = false /\
  is_nan segs = false.
Proof.
  intros Hd2 Hlen Hsegs Hc.
  pose proof (ZeroFacts.math_ceil_Ok_not_nan _ _ Hc) as Nsegs.
  apply py_truediv_Ok in Hsegs. destruct Hsegs as [_ ->].
  pose proof (not_nan_div_l _ _ Nsegs) as Nlen.
  apply py_truediv_Ok in Hlen. destruct Hlen as [Za ->].
  split; [|split; assumption].
  apply not_negative_positive.
  - apply FloatFacts.div_not_negative; try reflexivity.
    apply FloatFacts.mul_not_negative; [reflexivity|].
    apply (py_pow_2_not_negative _ _ Hd2).
  - exact Za.
  - exact (not_nan_div_r _ _ Nlen).
Qed.

End Area.

(** X9: with a flow that is not negative and a positive straight-segment
    length, a longer retention time never gives a shorter pipe or fewer
    straight segments, U-turns or elbows: of two calls that differ in the
    retention time only and both return, the one with the longer time has the
    larger or equal [length_m], [n_straights], [n_uturns] and [elbows_90]. *)
Theorem retention_time_monotone {libm : Libm}
    (flow_m3_h diameter_mm roughness_mm rho mu_mpa_s straight_segment_m
     k_elbow_90 : float) (io : bool)
    (retention_time_s retention_time_s' : float) (r r' : coil_result) :
  (0 <=? flow_m3_h) = true -> (0 <? straight_segment_m) = true ->
  (retention_time_s <=? retention_time_s') = true ->
  calculate_retention_coil flow_m3_h retention_time_s diameter_mm
    roughness_mm rho mu_mpa_s straight_segment_m k_elbow_90 io = Ok r ->
  calculate_retention_coil flow_m3_h retention_time_s' diameter_mm
    roughness_mm rho mu_mpa_s straight_segment_m k_elbow_90 io = Ok r' ->
  (required_volume_m3 r <=? required_volume_m3 r') = true /\
  (length_m r <=? length_m r') = true /\
  (n_straights r <= n_straights r')%Z /\
  (n_uturns r <= n_uturns r')%Z /\
  (elbows_90 r <= elbows_90 r')%Z.
Proof.
  intros Hflow Hseg Ht H H'.
  destruct (calculate_Ok_run _ _ _ _ _ _ _ _ _ _ H)
    as [d2 segs ef v2 ld c Hd2 _ _ Hvol Hlen Hsegs Hc Hn Hu He
          _ _ _ _ _ _ _ _ _].
  destruct (calculate_Ok_run _ _ _ _ _ _ _ _ _ _ H')
    as [d2' segs' ef' v2' ld' c' Hd2' _ _ Hvol' Hlen' Hsegs' Hc' Hn' Hu' He'
          _ _ _ _ _ _ _ _ _].
  assert (d2' = d2) by congruence. subst d2'.
  rewrite Hvol in Hlen. rewrite Hvol' in Hlen'.
  destruct (run_area_positive _ _ _ _ _ _ _ _ Hd2 Hlen Hsegs Hc)
    as (Harea & Nlen & Nsegs).
  destruct (run_area_positive _ _ _ _ _ _ _ _ Hd2 Hlen' Hsegs' Hc')
    as (_ & Nlen' & Nsegs').
  apply py_truediv_Ok in Hlen, Hlen', Hsegs, Hsegs'.
  destruct Hlen as [_ Elen]. destruct Hlen' as [_ Elen'].
  destruct Hsegs as [_ ->]. destruct Hsegs' as [_ ->].
  rewrite Elen in Nlen. rewrite Elen' in Nlen'.
  assert (Hq : (flow_m3_h / 3600 <? 0) = false).
  { apply FloatFacts.div_not_negative; try reflexivity.
    apply FloatFacts.leb_0_not_negative, Hflow. }
  assert (Lvol : (required_volume_m3 r <=? required_volume_m3 r') = true).
  { rewrite Hvol, Hvol'.
    apply Monotone.mul_le_mono_l; try assumption.
    - exact (not_nan_div_l _ _ Nlen).
    - exact (not_nan_div_l _ _ Nlen'). }
  assert (Llen : (length_m r <=? length_m r') = true).
  { rewrite Elen, Elen'. rewrite Hvol, Hvol' in Lvol.
    apply Monotone.div_le_mono_r; assumption. }
  assert (Lc : (c <= c')%Z).
  { apply (Monotone.math_ceil_mono _ _ _ _
             (Monotone.div_le_mono_r _ _ _ Hseg Llen Nsegs Nsegs') Hc Hc'). }
  repeat split; try assumption; lia.
Qed.

(** One minute and a quarter of an hour in the same pipe. *)
Lemma retention_time_monotone_witness :
  exists r r' : coil_result,
    calculate_retention_coil (libm := square_libm)
      0.01 60 25 0.0015 998 1 2 0.9 true = Ok r /\
    calculate_retention_coil (libm := square_libm)
      0.01 900 25 0.0015 998 1 2 0.9 true = Ok r' /\
    (length_m r <=? length_m r') = true /\
    n_straights r = 1%Z /\ n_straights r' = 3%Z /\
    (elbows_90 r <= elbows_90 r')%Z.
Proof.
  destruct (calculate_retention_coil (libm := square_libm)
              0.01 60 25 0.0015 998 1 2 0.9 true) as [r|e] eqn:E;
    [|vm_compute in E; discriminate].
  destruct (calculate_retention_coil (libm := square_libm)
              0.01 900 25 0.0015 998 1 2 0.9 true) as [r'|e] eqn:E';
    [|vm_compute in E'; discriminate].
  exists r, r'. split; [reflexivity|]. split; [reflexivity|].
  destruct (retention_time_monotone (libm := square_libm)
              0.01 25 0.0015 998 1 2 0.9 true 60 900 r r'
              eq_refl eq_refl eq_refl E E') as (_ & Hl & _ & _ & He).
  split; [exact Hl|].
  vm_compute in E, E'. injection E as <-. injection E' as <-.
  repeat split. exact He.
Defined.

(** ** The layout grows with the retention time *)

(** C7: for valid inputs (positive flow, retention time, diameter, density,
    viscosity and straight-segment length) that differ in the retention time
    only, the call with the larger retention time gives an [n_straights], a
    [length_m] and an [elbows_90] that are not smaller than those of the call
    with the shorter one. *)
Theorem segment_monotonicity {libm : Libm}
    (flow_m3_h diameter_mm roughness_mm rho mu_mpa_s straight_segment_m
     k_elbow_90 : float) (io : bool)
    (retention_time_s retention_time_s' : float) (r r' : coil_result) :
  (0 <? flow_m3_h) = true -> (0 <? diameter_mm) = true ->
  (0 <? rho) = true -> (0 <? mu_mpa_s) = true ->
  (0 <? straight_segment_m) = true ->
  (0 <? retention_time_s) = true ->
  (retention_time_s <=? retention_time_s') = true ->
  calculate_retention_coil flow_m3_h retention_time_s diameter_mm
    roughness_mm rho mu_mpa_s straight_segment_m k_elbow_90 io = Ok r ->
  calculate_retention_coil flow_m3_h retention_time_s' diameter_mm
    roughness_mm rho mu_mpa_s straight_segment_m k_elbow_90 io = Ok r' ->
  (n_straights r <= n_straights r')%Z /\
  (length_m r <=? length_m r') = true /\
  (elbows_90 r <= elbows_90 r')%Z.
Proof.
  intros Hflow _ _ _ Hseg _ Ht H H'.
  destruct (calculate_Ok_run _ _ _ _ _ _ _ _ _ _ H)
    as [d2 segs ef v2 ld c Hd2 _ _ Hvol Hlen Hsegs Hc Hn Hu He
          _ _ _ _ _ _ _ _ _].
  destruct (calculate_Ok_run _ _ _ _ _ _ _ _ _ _ H')
    as [d2' segs' ef' v2' ld' c' Hd2' _ _ Hvol' Hlen' Hsegs' Hc' Hn' Hu' He'
          _ _ _ _ _ _ _ _ _].
  assert (d2' = d2) by congruence. subst d2'.
  rewrite Hvol in Hlen. rewrite Hvol' in Hlen'.
  destruct (run_area_positive _ _ _ _ _ _ _ _ Hd2 Hlen Hsegs Hc)
    as (Harea & Nlen & Nsegs).
  destruct (run_area_positive _ _ _ _ _ _ _ _ Hd2 Hlen' Hsegs' Hc')
    as (_ & Nlen' & Nsegs').
  apply py_truediv_Ok in Hlen, Hlen', Hsegs, Hsegs'.
  destruct Hlen as [_ Elen]. destruct Hlen' as [_ Elen'].
  destruct Hsegs as [_ ->]. destruct Hsegs' as [_ ->].
  assert (Hq : (flow_m3_h / 3600 <? 0) = false).
  { apply FloatFacts.div_not_negative; try reflexivity.
    apply FloatFacts.positive_not_negative, Hflow. }
  assert (Llen : (length_m r <=? length_m r') = true).
  { rewrite Elen, Elen'. rewrite Elen in Nlen. rewrite Elen' in Nlen'.
    apply Monotone.div_le_mono_r; try assumption.
    apply Monotone.mul_le_mono_l; try assumption.
    - exact (not_nan_div_l _ _ Nlen).
    - exact (not_nan_div_l _ _ Nlen'). }
  assert (Lc : (c <= c')%Z).
  { apply (Monotone.math_ceil_mono _ _ _ _
             (Monotone.div_le_mono_r _ _ _ Hseg Llen Nsegs Nsegs') Hc Hc'). }
  split; [lia|]. split; [exact Llen|lia].
Qed.

(** Water for one minute and for a quarter of an hour: one segment and no
    elbow against three segments and four elbows. *)
Lemma segment_monotonicity_witness :
  exists r r' : coil_result,
    calculate_retention_coil (libm := square_libm)
      0.01 60 25 0.0015 998 1 2 0.9 true = Ok r /\
    calculate_retention_coil (libm := square_libm)
      0.01 900 25 0.0015 998 1 2 0.9 true = Ok r' /\
    (n_straights r, elbows_90 r) = (1, 0)%Z /\
    (n_straights r', elbows_90 r') = (3, 4)%Z /\
    (length_m r <=? length_m r') = true.
Proof.
  destruct (calculate_retention_coil (libm := square_libm)
              0.01 60 25 0.0015 998 1 2 0.9 true) as [r|e] eqn:E;
    [|vm_compute in E; discriminate].
  destruct (calculate_retention_coil (libm := square_libm)
              0.01 900 25 0.0015 998 1 2 0.9 true) as [r'|e] eqn:E';
    [|vm_compute in E'; discriminate].
  exists r, r'. split; [reflexivity|]. split; [reflexivity|].
  destruct (segment_monotonicity (libm := square_libm)
              0.01 25 0.0015 998 1 2 0.9 true 60 900 r r'
              eq_refl eq_refl eq_refl eq_refl eq_refl eq_refl eq_refl E E')
    as (_ & Hl & _).
  split; [|split; [|exact Hl]].
  - vm_compute in E. injection E as <-. reflexivity.
  - vm_compute in E'. injection E' as <-. reflexivity.
Defined.

(** ** What rounding returns is a float, and numbers from zero up *)

Module Validity.

Import FloatFacts Rounding Order Conversions.

Lemma bounded_intro (m : positive) (e : Z) :
  (Z.pos m < 2 ^ 53)%Z -> (-1074 <= e <= 971)%Z ->
  ((-1074 < e)%Z -> (2 ^ 52 <= Z.pos m)%Z) ->
  SpecFloat.bounded prec emax m e = true.
Proof.
  intros Hu He Hl. unfold SpecFloat.bounded, canonical_mantissa.
  rewrite andb_true_iff. change (emax - prec)%Z with 971%Z.
  rewrite Z.eqb_eq, Z.leb_le, fexp_eq.
  change (Z.pos (digits2_pos m)) with (Zdigits2 (Z.pos m)).
  pose proof (Zdigits2_le (Z.pos m) 53 ltac:(lia) ltac:(lia) Hu) as D.
  assert (D1 : (1 <= Zdigits2 (Z.pos m))%Z) by (cbn; lia).
  destruct (Z.eq_dec e (-1074)) as [->|Hne].
  - lia.
  - pose proof (Zdigits2_ge (Z.pos m) 52 ltac:(lia) (Hl ltac:(lia))). lia.
Qed.

Lemma finish_valid (s : bool) (m2 e1 : Z) :
  (0 <= m2 <= 2 ^ 53)%Z -> (-1074 <= e1)%Z ->
  ((-1074 < e1)%Z -> (2 ^ 52 <= m2)%Z) ->
  valid_binary (finish s m2 e1) = true.
Proof.
  intros Hm He Hn. unfold finish.
  destruct (Z.eqb_spec m2 0) as [_|H0]; [reflexivity|].
  destruct (Z.eqb_spec m2 (2 ^ 53)) as [_|H1].
  - destruct (Z.leb_spec (e1 + 1) 971); [|reflexivity].
    cbn [SpecFloat.valid_binary]. apply bounded_intro.
    + reflexivity.
    + lia.
    + intros _. vm_compute. discriminate.
  - destruct (Z.leb_spec e1 971); [|reflexivity].
    cbn [SpecFloat.valid_binary].
    apply bounded_intro; rewrite ?Z2Pos.id by lia; lia.
Qed.

(** Rounding returns a float of the format. *)
Lemma binary_round_aux_valid (s : bool) (x : R) (m e : Z) (l : location) :
  (0 <= m)%Z -> located x m e l ->
  (e <= fexp prec emax (Zdigits2 m + e))%Z ->
  valid_binary (binary_round_aux prec emax s m e l) = true.
Proof.
  intros Hm Hl Hp.
  pose proof (shr_fexp_stage1 x m e l Hm Hl Hp) as Hs.
  pose proof (binary_round_aux_finish s m e l) as Hf.
  destruct (shr_fexp prec emax m e l) as [mrs e1].
  destruct Hs as (_ & Hb & He & Hn).
  rewrite Hf by assumption.
  pose proof (round_nearest_even_ge (shr_m mrs) (loc_of_shr_record mrs)).
  apply finish_valid; try assumption.
  - destruct (round_nearest_even_cases (shr_m mrs) (loc_of_shr_record mrs))
      as [-> | ->]; lia.
  - intros H1. specialize (Hn H1). lia.
Qed.

Lemma binary_normalize_valid (n : Z) :
  valid_binary (binary_normalize prec emax n 0 false) = true.
Proof.
  destruct n as [|m|m]; [reflexivity| |]; cbn [binary_normalize];
    unfold binary_round;
    pose proof (shl_align_located m 0) as H;
    destruct (shl_align m 0 _) as [mz ez]; destruct H as [Hl Hp];
    exact (binary_round_aux_valid _ _ _ _ _ (Pos2Z.is_nonneg mz) Hl Hp).
Qed.

Local Open Scope float_scope.

(** The float of an integer, seen through [Prim2SF]. *)
Lemma float_of_int_spec (n : Z) (x : float) :
  float_of_int n = Ok x ->
  Prim2SF x = binary_normalize prec emax n 0 false.
Proof.
  intros H. rewrite (float_of_int_Ok _ _ H).
  apply Prim2SF_SF2Prim, binary_normalize_valid.
Qed.

(** The float of an integer between 0 and [2^53] is between them too. *)
Lemma float_of_int_bounds (n : Z) (x : float) :
  (0 <= n <= 2 ^ 53)%Z -> float_of_int n = Ok x ->
  (0 <=? x) = true /\ (x <=? 0x1p53) = true.
Proof.
  intros Hn H. pose proof (float_of_int_spec _ _ H) as E.
  pose proof (binary_normalize_small n Hn) as Hle.
  pose proof (binary_normalize_not_negative n 0 (proj1 Hn)) as Hs.
  rewrite leb_0_true, leb_spec, E.
  change (Prim2SF 0x1p53) with (S754_finite false 4503599627370496 1).
  split; [split; [exact Hs|]|exact Hle].
  intros N. rewrite N in Hle. discriminate.
Qed.

End Validity.

Module UpTo.

Import FloatFacts Rounding Order Monotone.

(** Between zero and a bound. *)
Definition upto (hi x : float) : bool := (0 <=? x) && (x <=? hi).

Lemma upto_bounds (hi x : float) :
  upto hi x = true <-> (0 <=? x) = true /\ (x <=? hi) = true.
Proof. unfold upto. apply andb_true_iff. Qed.

Lemma upto_finite (hi x : float) :
  is_finite hi = true -> upto hi x = true -> is_finite x = true.
Proof.
  rewrite upto_bounds, leb_0_true, leb_spec, !Intervals.is_finite_spec.
  intros Fh [[Hs Hn] Hle].
  destruct (Prim2SF x) as [s|[|]| |[|] m e]; try discriminate;
    try reflexivity; try congruence.
  destruct (Prim2SF hi) as [sh|sh| |[|] mh eh]; discriminate.
Qed.

Lemma within_upto (lo hi x : float) :
  (0 <? lo) = true -> Intervals.within lo hi x = true -> upto hi x = true.
Proof.
  intros Hlo H. apply Intervals.within_bounds in H. destruct H as [L U].
  apply upto_bounds. split; [|exact U].
  apply (Intervals.leb_trans _ lo); [|exact L].
  revert Hlo. rewrite ltb_spec, leb_spec. unfold SFltb, SFleb.
  destruct (SFcompare _ _) as [[| |]|]; congruence.
Qed.

Lemma upto_widen (hi hi' x : float) :
  (hi <=? hi') = true -> upto hi x = true -> upto hi' x = true.
Proof.
  intros Hh H. apply upto_bounds in H. destruct H as [L U].
  apply upto_bounds. split; [exact L|].
  exact (Intervals.leb_trans _ _ _ U Hh).
Qed.

Lemma not_negative_leb_0 (x : float) :
  (x <? 0) = false -> is_nan x = false -> (0 <=? x) = true.
Proof.
  rewrite ltb_0_false, is_nan_false, leb_0_true. auto.
Qed.

(** The product of two numbers from zero up to finite bounds is between
    zero and the product of the bounds. *)
Lemma mul_upto (hi1 hi2 a b : float) :
  is_finite hi1 = true -> is_finite hi2 = true ->
  upto hi1 a = true -> upto hi2 b = true ->
  upto (hi1 * hi2) (a * b) = true.
Proof.
  intros F1 F2 Wa Wb.
  pose proof (upto_finite _ _ F1 Wa) as Fa.
  pose proof (upto_finite _ _ F2 Wb) as Fb.
  apply upto_bounds in Wa, Wb. destruct Wa as [La Ua], Wb as [Lb Ub].
  pose proof (leb_0_not_negative _ La) as Na.
  pose proof (leb_0_not_negative _ Lb) as Nb.
  pose proof (leb_0_not_negative _ (Intervals.leb_trans _ _ _ La Ua)) as N1.
  apply upto_bounds. split.
  - apply not_negative_leb_0.
    + apply mul_not_negative; assumption.
    + apply Intervals.mul_finite_not_nan; assumption.
  - apply (Intervals.leb_trans _ (hi1 * b)).
    + apply Intervals.mul_le_mono_r; try assumption;
        apply Intervals.mul_finite_not_nan; assumption.
    + apply mul_le_mono_l; try assumption;
        apply Intervals.mul_finite_not_nan; assumption.
Qed.

Lemma add_zero_l (a b : float) :
  (a =? 0) = true -> (b =? 0) = false -> a + b = b.
Proof.
  rewrite eqb_0_true. intros Ha Hb. apply Prim2SF_inj. rewrite add_spec.
  assert (Hb' : sf_is_zero (Prim2SF b) = false).
  { destruct (sf_is_zero (Prim2SF b)) eqn:E; [|reflexivity].
    apply eqb_0_true in E. congruence. }
  destruct (Prim2SF a) as [sa|sa| |sa ma ea]; try discriminate.
  destruct (Prim2SF b) as [sb|sb| |sb mb eb]; try discriminate;
    reflexivity.
Qed.

Lemma add_zero_r (a b : float) :
  (a =? 0) = false -> (b =? 0) = true -> a + b = a.
Proof.
  rewrite eqb_0_true. intros Ha Hb. apply Prim2SF_inj. rewrite add_spec.
  assert (Ha' : sf_is_zero (Prim2SF a) = false).
  { destruct (sf_is_zero (Prim2SF a)) eqn:E; [|reflexivity].
    apply eqb_0_true in E. congruence. }
  destruct (Prim2SF b) as [sb|sb| |sb mb eb]; try discriminate.
  destruct (Prim2SF a) as [sa|sa| |sa ma ea]; try discriminate;
    reflexivity.
Qed.

Lemma add_zero_zero (a b hi : float) :
  (a =? 0) = true -> (b =? 0) = true -> (0 <? hi) = true ->
  upto hi (a + b) = true.
Proof.
  rewrite !eqb_0_true, ltb_0_true, upto_bounds, leb_0_true, leb_spec,
    add_spec.
  destruct (Prim2SF a) as [[|]|sa| |sa ma ea]; try discriminate;
    destruct (Prim2SF b) as [[|]|sb| |sb mb eb]; try discriminate;
    destruct (Prim2SF hi) as [sh|[|]| |[|] mh eh]; try discriminate;
    intros _ _ _; (split; [split; [reflexivity|discriminate]|reflexivity]).
Qed.

Lemma positive_of_nonzero (x : float) :
  (0 <=? x) = true -> (x =? 0) = false -> (0 <? x) = true.
Proof.
  intros L Z. apply not_negative_positive.
  - apply leb_0_not_negative, L.
  - exact Z.
  - apply is_nan_false. apply leb_0_true in L. tauto.
Qed.

(** The sum of two numbers from zero up to positive finite bounds is
    between zero and the sum of the bounds, when the sum of the bounds is not
    below either. *)
Lemma add_upto (hi1 hi2 a b : float) :
  (0 <? hi1) = true -> (0 <? hi2) = true ->
  is_finite hi1 = true -> is_finite hi2 = true ->
  (hi1 <=? hi1 + hi2) = true -> (hi2 <=? hi1 + hi2) = true ->
  upto hi1 a = true -> upto hi2 b = true ->
  upto (hi1 + hi2) (a + b) = true.
Proof.
  intros P1 P2 F1 F2 S1 S2 Wa Wb.
  apply upto_bounds in Wa, Wb. destruct Wa as [La Ua], Wb as [Lb Ub].
  destruct (a =? 0) eqn:Za, (b =? 0) eqn:Zb.
  - apply add_zero_zero; try assumption.
    exact (Intervals.ltb_leb_trans _ _ P1 S1).
  - rewrite (add_zero_l _ _ Za Zb). apply upto_bounds. split; [exact Lb|].
    exact (Intervals.leb_trans _ _ _ Ub S2).
  - rewrite (add_zero_r _ _ Za Zb). apply upto_bounds. split; [exact La|].
    exact (Intervals.leb_trans _ _ _ Ua S1).
  - pose proof (positive_of_nonzero _ La Za) as Pa.
    pose proof (positive_of_nonzero _ Lb Zb) as Pb.
    pose proof (Sums.add_le_mono_pos _ _ _ _ Pa Ua F1 Pb Ub F2) as U.
    apply upto_bounds. split; [|exact U].
    apply not_negative_leb_0.
    + apply add_not_negative; apply leb_0_not_negative; assumption.
    + apply is_nan_false. intros N. revert U. rewrite leb_spec, N.
      discriminate.
Qed.

End UpTo.

(** ** Sums of numbers from zero up, and floats of integers, in order *)

Module Sums0.

Import FloatFacts Rounding Monotone Order Conversions Sums.

Local Open Scope R_scope.

(** Rounding a float of the format returns it. *)
Lemma binary_round_aux_exact (s : bool) (m : positive) (e : Z) :
  SpecFloat.bounded prec emax m e = true ->
  binary_round_aux prec emax s (Z.pos m) e loc_Exact = S754_finite s m e.
Proof.
  intros Hb. destruct (bounded_mantissa _ _ Hb) as [Hu _].
  destruct (bounded_spec _ _ Hb) as (_ & He & _).
  pose proof (binary_round_aux_finish s (Z.pos m) e loc_Exact) as Hf.
  rewrite shr_fexp_exact_small in Hf by lia.
  cbn [shr_m] in Hf. rewrite Hf by lia.
  unfold finish. cbn [loc_of_shr_record shr_r shr_s round_nearest_even].
  destruct (Z.eqb_spec (Z.pos m) 0) as [H0|_]; [lia|].
  destruct (Z.eqb_spec (Z.pos m) (2 ^ 53)) as [H1|_]; [lia|].
  destruct (Z.leb_spec e 971); [reflexivity|lia].
Qed.

(** A positive finite number is not above its sum with another. *)
Lemma SFadd_finite_pos_ge_l (m1 m2 : positive) (e1 e2 : Z) :
  SpecFloat.bounded prec emax m1 e1 = true ->
  SFleb (S754_finite false m1 e1)
        (SF64add (S754_finite false m1 e1) (S754_finite false m2 e2)) = true.
Proof.
  intros B1.
  destruct (SFadd_finite_pos_located m1 m2 e1 e2)
    as (mz & ez & -> & Hl & Hp).
  rewrite <- (binary_round_aux_exact false m1 e1 B1) at 1.
  destruct (bounded_spec _ _ B1) as (_ & _ & _ & Hc).
  apply (binary_round_aux_mono (IZR (Z.pos m1) * bpow e1)
           (IZR (Z.pos m1) * bpow e1 + IZR (Z.pos m2) * bpow e2) (Z.pos m1) e1
           (Z.pos mz) ez loc_Exact loc_Exact).
  - lia.
  - reflexivity.
  - lia.
  - lia.
  - exact Hl.
  - exact Hp.
  - pose proof (F2R_pos m2 e2). lra.
Qed.

Lemma SFadd_finite_pos_ge_r (m1 m2 : positive) (e1 e2 : Z) :
  SpecFloat.bounded prec emax m2 e2 = true ->
  SFleb (S754_finite false m2 e2)
        (SF64add (S754_finite false m1 e1) (S754_finite false m2 e2)) = true.
Proof.
  intros B2.
  destruct (SFadd_finite_pos_located m1 m2 e1 e2)
    as (mz & ez & -> & Hl & Hp).
  rewrite <- (binary_round_aux_exact false m2 e2 B2) at 1.
  destruct (bounded_spec _ _ B2) as (_ & _ & _ & Hc).
  apply (binary_round_aux_mono (IZR (Z.pos m2) * bpow e2)
           (IZR (Z.pos m1) * bpow e1 + IZR (Z.pos m2) * bpow e2) (Z.pos m2) e2
           (Z.pos mz) ez loc_Exact loc_Exact).
  - lia.
  - reflexivity.
  - lia.
  - lia.
  - exact Hl.
  - exact Hp.
  - pose proof (F2R_pos m1 e1). lra.
Qed.

Lemma SFadd_finite_pos_signed (m1 m2 : positive) (e1 e2 : Z) :
  signed_as false
    (SF64add (S754_finite false m1 e1) (S754_finite false m2 e2)).
Proof.
  destruct (SFadd_finite_pos_located m1 m2 e1 e2)
    as (mz & ez & -> & Hl & Hp).
  exact (binary_round_aux_signed _ _ _ _ _ (Pos2Z.is_nonneg mz) Hl Hp).
Qed.

(** Zero, a positive number or the positive infinity. *)
Definition from_zero_up (x : spec_float) : bool :=
  match x with
  | S754_zero _ => true
  | S754_infinity s | S754_finite s _ _ => negb s
  | S754_nan => false
  end.

(** Adding numbers from zero up keeps the order. *)
Lemma SFadd_mono (a a' b b' : spec_float) :
  valid_binary a = true -> valid_binary a' = true ->
  valid_binary b = true -> valid_binary b' = true ->
  from_zero_up a = true -> from_zero_up b = true ->
  SFleb a a' = true -> SFleb b b' = true ->
  SFleb (SF64add a b) (SF64add a' b') = true.
Proof.
  intros Va Va' Vb Vb' Pa Pb La Lb.
  destruct a as [sa|[|]| |[|] ma ea]; try discriminate;
    destruct a' as [sa'|[|]| |[|] ma' ea']; try discriminate;
    destruct b as [sb|[|]| |[|] mb eb]; try discriminate;
    destruct b' as [sb'|[|]| |[|] mb' eb']; try discriminate;
    cbn [valid_binary] in *;
    try (destruct sa, sb; reflexivity);
    try (destruct sa', sb'; reflexivity);
    try (destruct sa, sb, sa', sb'; reflexivity);
    try reflexivity; try assumption.
  all: try (apply SFleb_signed_zero_l, SFadd_finite_pos_signed).
  all: try (apply (SFleb_signed_infinity_r false),
             SFadd_finite_pos_signed).
  all: try (destruct sa, sb; apply SFleb_signed_zero_l,
             SFadd_finite_pos_signed).
  all: try (destruct sa, sb;
            change (SFleb (S754_zero false)
                      (SF64add (S754_finite false ma' ea')
                         (S754_finite false mb' eb')) = true);
            apply SFleb_signed_zero_l, SFadd_finite_pos_signed).
  - (* 0 + b <= a' + b' *)
    change (SF64add (S754_zero sa) (S754_finite false mb eb))
      with (S754_finite false mb eb).
    apply (SFleb_trans _ _ _ Lb). apply SFadd_finite_pos_ge_r, Vb'.
  - (* a + 0 <= a' + b' *)
    change (SF64add (S754_finite false ma ea) (S754_zero sb))
      with (S754_finite false ma ea).
    apply (SFleb_trans _ _ _ La). apply SFadd_finite_pos_ge_l, Va'.
  - apply SFadd_finite_pos_mono; assumption.
Qed.

Lemma binary_normalize_mono (n n' : Z) :
  (0 <= n <= n')%Z ->
  SFleb (binary_normalize prec emax n 0 false)
        (binary_normalize prec emax n' 0 false) = true.
Proof.
  intros [H0 H1].
  destruct n' as [|m'|m']; [|  |lia].
  { replace n with 0%Z by lia. reflexivity. }
  assert (S' : signed_as false (binary_normalize prec emax (Z.pos m') 0 false)
               /\ forall m : positive, (Z.pos m <= Z.pos m')%Z ->
                  SFleb (binary_normalize prec emax (Z.pos m) 0 false)
                        (binary_normalize prec emax (Z.pos m') 0 false)
                  = true).
  { cbn [binary_normalize]. unfold binary_round.
    pose proof (shl_align_located m' 0) as H'.
    destruct (shl_align m' 0 _) as [mz' ez']. destruct H' as [Hl' Hp'].
    split.
    - exact (binary_round_aux_signed _ _ _ _ _ (Pos2Z.is_nonneg mz')
               Hl' Hp').
    - intros m Hm.
      pose proof (shl_align_located m 0) as H.
      destruct (shl_align m 0 _) as [mz ez]. destruct H as [Hl Hp].
      apply (binary_round_aux_mono _ _ _ _ _ _ _ _ (Pos2Z.is_nonneg mz)
               Hl Hp (Pos2Z.is_nonneg mz') Hl' Hp').
      apply IZR_le in Hm. pose proof (bpow_pos 0). nra. }
  destruct S' as [Sg Hm].
  destruct n as [|m|m]; [|apply Hm; lia|lia].
  apply SFleb_signed_zero_l, Sg.
Qed.

Local Open Scope float_scope.

Lemma from_zero_up_spec (x : float) :
  (0 <=? x) = true <-> from_zero_up (Prim2SF x) = true.
Proof.
  rewrite leb_0_true.
  destruct (Prim2SF x) as [s|[|]| |[|] m e]; cbn;
    intuition (discriminate || congruence).
Qed.

(** Adding numbers that are not below zero keeps the order. *)
Lemma add_le_mono (a a' b b' : float) :
  (0 <=? a) = true -> (0 <=? b) = true ->
  (a <=? a') = true -> (b <=? b') = true ->
  (a + b <=? a' + b') = true.
Proof.
  rewrite !from_zero_up_spec, !leb_spec, !add_spec.
  apply SFadd_mono; apply Prim2SF_valid.
Qed.

(** Larger integers have larger floats. *)
Lemma float_of_int_mono (n n' : Z) (x x' : float) :
  (0 <= n <= n')%Z ->
  float_of_int n = Ok x -> float_of_int n' = Ok x' -> (x <=? x') = true.
Proof.
  intros Hn H H'.
  rewrite leb_spec, (Validity.float_of_int_spec _ _ H),
    (Validity.float_of_int_spec _ _ H').
  apply binary_normalize_mono, Hn.
Qed.

End Sums0.

(** ** More flow, more pipe *)

Lemma not_nan_mul_l (a b : float) : is_nan (a * b) = false -> is_nan a = false.
Proof.
  rewrite !FloatFacts.is_nan_false, mul_spec. intros H E. apply H.
  rewrite E. reflexivity.
Qed.

Lemma not_nan_mul_r (a b : float) : is_nan (a * b) = false -> is_nan b = false.
Proof.
  rewrite !FloatFacts.is_nan_false, mul_spec. intros H E. apply H.
  rewrite E. destruct (Prim2SF a); reflexivity.
Qed.

(** When [q * t / a] is a number, so is [q / a]. *)
Lemma div_not_nan_of_product (q t a : float) :
  is_nan (q * t / a) = false -> is_nan (q / a) = false.
Proof.
  rewrite !FloatFacts.is_nan_false, !div_spec, mul_spec.
  destruct (Prim2SF q) as [sq|sq| |sq mq eq],
           (Prim2SF a) as [sa|sa| |sa ma ea];
    intros H; try discriminate;
    try (destruct (Order.SFdiv_finite_signed sq sa mq ma eq ea);
         discriminate);
    exfalso; apply H; destruct (Prim2SF t) as [st|st| |st mt et];
    try reflexivity.
  destruct (SF64mul _ _); reflexivity.
Qed.

(** X10: with a retention time that is not negative and a positive
    straight-segment length, a larger flow never gives a slower stream, a
    shorter pipe or fewer straight segments, U-turns or elbows: of two calls
    that differ in the flow only and both return, the one with the larger flow
    has the larger or equal [flow_m3_s], [velocity], [required_volume_m3],
    [length_m], [n_straights], [n_uturns] and [elbows_90]. *)
Theorem flow_monotone {libm : Libm}
    (retention_time_s diameter_mm roughness_mm rho mu_mpa_s straight_segment_m
     k_elbow_90 : float) (io : bool)
    (flow_m3_h flow_m3_h' : float) (r r' : coil_result) :
  (0 <=? retention_time_s) = true -> (0 <? straight_segment_m) = true ->
  (flow_m3_h <=? flow_m3_h') = true ->
  calculate_retention_coil flow_m3_h retention_time_s diameter_mm
    roughness_mm rho mu_mpa_s straight_segment_m k_elbow_90 io = Ok r ->
  calculate_retention_coil flow_m3_h' retention_time_s diameter_mm
    roughness_mm rho mu_mpa_s straight_segment_m k_elbow_90 io = Ok r' ->
  (flow_m3_s r <=? flow_m3_s r') = true /\
  (velocity r <=? velocity r') = true /\
  (required_volume_m3 r <=? required_volume_m3 r') = true /\
  (length_m r <=? length_m r') = true /\
  (n_straights r <= n_straights r')%Z /\
  (n_uturns r <= n_uturns r')%Z /\
  (elbows_90 r <= elbows_90 r')%Z.
Proof.
  intros Ht Hseg Hflow H H'.
  destruct (calculate_Ok_run _ _ _ _ _ _ _ _ _ _ H)
    as [d2 segs ef v2 ld c Hd2 Hq Hv Hvol Hlen Hsegs Hc Hn Hu He
          _ _ _ _ _ _ _ _ _].
  destruct (calculate_Ok_run _ _ _ _ _ _ _ _ _ _ H')
    as [d2' segs' ef' v2' ld' c' Hd2' Hq' Hv' Hvol' Hlen' Hsegs' Hc' Hn' Hu'
          He' _ _ _ _ _ _ _ _ _].
  assert (d2' = d2) by congruence. subst d2'.
  rewrite Hvol in Hlen. rewrite Hvol' in Hlen'.
  destruct (run_area_positive _ _ _ _ _ _ _ _ Hd2 Hlen Hsegs Hc)
    as (Harea & Nlen & Nsegs).
  destruct (run_area_positive _ _ _ _ _ _ _ _ Hd2 Hlen' Hsegs' Hc')
    as (_ & Nlen' & Nsegs').
  apply py_truediv_Ok in Hlen, Hlen', Hsegs, Hsegs', Hv, Hv'.
  destruct Hlen as [_ Elen]. destruct Hlen' as [_ Elen'].
  destruct Hsegs as [_ ->]. destruct Hsegs' as [_ ->].
  destruct Hv as [_ Ev]. destruct Hv' as [_ Ev'].
  rewrite Elen in Nlen. rewrite Elen' in Nlen'.
  pose proof (not_nan_div_l _ _ Nlen) as Nvol.
  pose proof (not_nan_div_l _ _ Nlen') as Nvol'.
  assert (Lq : (flow_m3_s r <=? flow_m3_s r') = true).
  { rewrite Hq, Hq'. apply Monotone.div_le_mono_r; try assumption.
    - reflexivity.
    - exact (not_nan_mul_l _ _ Nvol).
    - exact (not_nan_mul_l _ _ Nvol'). }
  rewrite Hq, Hq' in Lq.
  assert (Lv : (velocity r <=? velocity r') = true).
  { rewrite Ev, Ev'. apply Monotone.div_le_mono_r; try assumption.
    - exact (div_not_nan_of_product _ _ _ Nlen).
    - exact (div_not_nan_of_product _ _ _ Nlen'). }
  assert (Lvol : (required_volume_m3 r <=? required_volume_m3 r') = true).
  { rewrite Hvol, Hvol'. apply Intervals.mul_le_mono_r; try assumption.
    apply FloatFacts.leb_0_not_negative, Ht. }
  assert (Llen : (length_m r <=? length_m r') = true).
  { rewrite Elen, Elen'. rewrite Hvol, Hvol' in Lvol.
    apply Monotone.div_le_mono_r; assumption. }
  assert (Lc : (c <= c')%Z).
  { apply (Monotone.math_ceil_mono _ _ _ _
             (Monotone.div_le_mono_r _ _ _ Hseg Llen Nsegs Nsegs') Hc Hc'). }
  rewrite Hq, Hq'.
  repeat split; try assumption; lia.
Qed.

(** Five and ten cubic metres an hour through the same pipe. *)
Lemma flow_monotone_witness :
  exists r r' : coil_result,
    calculate_retention_coil (libm := square_libm)
      5 60 25 0.0015 998 1 2 0.9 true = Ok r /\
    calculate_retention_coil (libm := square_libm)
      10 60 25 0.0015 998 1 2 0.9 true = Ok r' /\
    (velocity r <=? velocity r') = true /\
    (length_m r <=? length_m r') = true /\
    (n_straights r <= n_straights r')%Z.
Proof.
  destruct (calculate_retention_coil (libm := square_libm)
              5 60 25 0.0015 998 1 2 0.9 true) as [r|e] eqn:E;
    [|vm_compute in E; discriminate].
  destruct (calculate_retention_coil (libm := square_libm)
              10 60 25 0.0015 998 1 2 0.9 true) as [r'|e] eqn:E';
    [|vm_compute in E'; discriminate].
  exists r, r'. split; [reflexivity|]. split; [reflexivity|].
  destruct (flow_monotone (libm := square_libm)
              60 25 0.0015 998 1 2 0.9 true 5 10 r r'
              eq_refl eq_refl eq_refl E E') as (_ & Hv & _ & Hl & Hn & _).
  repeat split; assumption.
Defined.

(** ** No field is negative *)

(** What is not below zero is at least zero or is a NaN. *)
Lemma not_negative_cases (x : float) :
  (x <? 0) = false -> (0 <=? x) = true \/ is_nan x = true.
Proof.
  intros H. destruct (is_nan x) eqn:N; [right; reflexivity|left].
  exact (UpTo.not_negative_leb_0 _ H N).
Qed.

(** C10, as the code has it: for positive flow, retention time, diameter,
    straight-segment length and density and an elbow factor that is not
    below zero, no field of a returned record other than [re] is negative.
    The flow, the velocity, the volume and the length are at least zero, and
    so are the three counts; the friction factor, the total resistance and
    the three pressure drops are at least zero or a NaN; and so is [re] when
    the viscosity is positive.  In exact real arithmetic the length is the
    velocity times the retention time. *)
Theorem no_field_is_negative {libm : Libm}
    (flow_m3_h retention_time_s diameter_mm roughness_mm rho mu_mpa_s
     straight_segment_m k_elbow_90 : float) (io : bool) (r : coil_result) :
  (0 <? flow_m3_h) = true -> (0 <? retention_time_s) = true ->
  (0 <? diameter_mm) = true -> (0 <? straight_segment_m) = true ->
  (0 <? rho) = true -> (0 <=? k_elbow_90) = true ->
  calculate_retention_coil flow_m3_h retention_time_s diameter_mm
    roughness_mm rho mu_mpa_s straight_segment_m k_elbow_90 io = Ok r ->
  ((0 <=? flow_m3_s r) = true /\ (0 <=? velocity r) = true /\
   (0 <=? required_volume_m3 r) = true /\ (0 <=? length_m r) = true /\
   (0 <= n_straights r)%Z /\ (0 <= n_uturns r)%Z /\ (0 <= elbows_90 r)%Z) /\
  (((0 <=? f r) = true \/ is_nan (f r) = true) /\
   ((0 <=? k_total r) = true \/ is_nan (k_total r) = true) /\
   ((0 <=? dp_distributed_pa r) = true \/
    is_nan (dp_distributed_pa r) = true) /\
   ((0 <=? dp_local_pa r) = true \/ is_nan (dp_local_pa r) = true) /\
   ((0 <=? dp_total_pa r) = true \/ is_nan (dp_total_pa r) = true)) /\
  ((0 <? mu_mpa_s) = true ->
   (0 <=? re r) = true \/ is_nan (re r) = true) /\
  (forall q t area : R,
     exact_length q t area = (exact_velocity q area * t)%R).
Proof.
  intros Hflow Ht Hd Hseg Hrho Hk H.
  apply FloatFacts.positive_not_negative in Hflow, Ht, Hd, Hrho.
  apply FloatFacts.leb_0_not_negative in Hk.
  destruct (calculate_Ok_run _ _ _ _ _ _ _ _ _ _ H).
  assert (N1000 : (1000 <? 0) = false) by reflexivity.
  assert (Z1000 : (1000 =? 0) = false) by reflexivity.
  assert (Hq : (flow_m3_h / 3600 <? 0) = false)
    by (apply FloatFacts.div_not_negative; auto).
  assert (Hdm : (diameter_mm / 1000 <? 0) = false)
    by (apply FloatFacts.div_not_negative; auto).
  pose proof (py_pow_2_not_negative _ _ run_pow_d) as Hd2.
  assert (Harea : (math_pi * d2 / 4 <? 0) = false).
  { apply FloatFacts.div_not_negative; auto.
    apply FloatFacts.mul_not_negative; auto. }
  (* the length has passed [math.ceil]: it and what it is made of are
     numbers *)
  pose proof run_length as Rlen. rewrite run_volume in Rlen.
  destruct (run_area_positive _ _ _ _ _ _ _ _ run_pow_d Rlen run_segments
              run_ceil) as (_ & Nlen & _).
  apply py_truediv_Ok in Rlen. destruct Rlen as [_ Elen].
  rewrite Elen in Nlen.
  pose proof (not_nan_div_l _ _ Nlen) as Nvol.
  pose proof (not_nan_mul_l _ _ Nvol) as Nq.
  pose proof (div_not_nan_of_product _ _ _ Nlen) as Nv.
  apply py_truediv_Ok in run_velocity. destruct run_velocity as [Za Hv].
  apply py_truediv_Ok in run_length. destruct run_length as [_ Hlen].
  apply py_truediv_Ok in run_length_over_d.
  destruct run_length_over_d as [Zd ->].
  assert (Hvel : (velocity r <? 0) = false)
    by (rewrite Hv; apply FloatFacts.div_not_negative; auto).
  assert (Hvol : (required_volume_m3 r <? 0) = false)
    by (rewrite run_volume; apply FloatFacts.mul_not_negative; auto).
  assert (Hlength : (length_m r <? 0) = false)
    by (rewrite Hlen; apply FloatFacts.div_not_negative; auto).
  assert (Hn : (0 <= n_straights r)%Z) by lia.
  assert (Hu : (0 <= n_uturns r)%Z) by lia.
  assert (He : (0 <= elbows_90 r)%Z) by lia.
  pose proof (darcy_not_negative _ _ _ _ run_f) as Hf.
  pose proof (float_of_int_not_negative _ _ He run_elbows_f) as Hef.
  assert (Hkt : (k_total r <? 0) = false).
  { rewrite run_k_total. destruct io.
    - apply FloatFacts.add_not_negative; [|reflexivity].
      apply FloatFacts.mul_not_negative; auto.
    - apply FloatFacts.mul_not_negative; auto. }
  pose proof (py_pow_2_not_negative _ _ run_pow_v) as Hv2.
  assert (Hdyn : (rho * v2 / 2 <? 0) = false).
  { apply FloatFacts.div_not_negative; auto.
    apply FloatFacts.mul_not_negative; auto. }
  assert (Hdd : (dp_distributed_pa r <? 0) = false).
  { rewrite run_dp_distributed.
    repeat apply FloatFacts.mul_not_negative; auto.
    apply FloatFacts.div_not_negative; auto. }
  assert (Hdl : (dp_local_pa r <? 0) = false)
    by (rewrite run_dp_local; apply FloatFacts.mul_not_negative; auto).
  assert (Hdt : (dp_total_pa r <? 0) = false)
    by (rewrite run_dp_total; apply FloatFacts.add_not_negative; auto).
  split; [|split; [|split]].
  - repeat split; try assumption; apply UpTo.not_negative_leb_0.
    + rewrite run_flow. exact Hq.
    + rewrite run_flow. exact Nq.
    + exact Hvel.
    + rewrite Hv. exact Nv.
    + exact Hvol.
    + rewrite run_volume. exact Nvol.
    + exact Hlength.
    + rewrite Hlen, run_volume. exact Nlen.
  - repeat split; apply not_negative_cases; assumption.
  - intros Hmu. apply FloatFacts.positive_not_negative in Hmu.
    apply not_negative_cases.
    unfold reynolds_number in run_re.
    apply py_truediv_Ok in run_re. destruct run_re as [Zmu ->].
    apply FloatFacts.div_not_negative; auto.
    + repeat apply FloatFacts.mul_not_negative; auto.
    + apply FloatFacts.div_not_negative; auto.
  - intros q t area. unfold exact_length, exact_velocity, Rdiv. ring.
Qed.

(** Water in the laminar example: every field is at least zero. *)
Lemma no_field_is_negative_witness :
  (0 <=? velocity (laminar_record true)) = true /\
  (0 <=? length_m (laminar_record true)) = true /\
  ((0 <=? dp_total_pa (laminar_record true)) = true \/
   is_nan (dp_total_pa (laminar_record true)) = true) /\
  ((0 <=? re (laminar_record true)) = true \/
   is_nan (re (laminar_record true)) = true).
Proof.
  pose proof (no_field_is_negative (libm := square_libm)
                0.01 60 25 0.0015 998 1 2 0.9 true (laminar_record true)
                eq_refl eq_refl eq_refl eq_refl eq_refl eq_refl
                (laminar_example_Ok 0.0015 true))
    as ((_ & Hv & _ & Hl & _) & (_ & _ & _ & _ & Hdt) & Hre & _).
  split; [exact Hv|]. split; [exact Hl|]. split; [exact Hdt|].
  apply Hre. reflexivity.
Defined.

(** ** Longer straights, fewer turns *)

(** X11: with a flow and a retention time that are not negative, longer
    straight segments never need more of them: of two calls that differ in the
    straight-segment length only and both return, the pipe has the same
    length, and the call with the longer segments has the smaller or equal
    [n_straights], [n_uturns] and [elbows_90]. *)
Theorem longer_segments_fewer_turns {libm : Libm}
    (flow_m3_h retention_time_s diameter_mm roughness_mm rho mu_mpa_s
     k_elbow_90 : float) (io : bool)
    (straight_segment_m straight_segment_m' : float) (r r' : coil_result) :
  (0 <=? flow_m3_h) = true -> (0 <=? retention_time_s) = true ->
  (0 <? straight_segment_m) = true ->
  (straight_segment_m <=? straight_segment_m') = true ->
  calculate_retention_coil flow_m3_h retention_time_s diameter_mm
    roughness_mm rho mu_mpa_s straight_segment_m k_elbow_90 io = Ok r ->
  calculate_retention_coil flow_m3_h retention_time_s diameter_mm
    roughness_mm rho mu_mpa_s straight_segment_m' k_elbow_90 io = Ok r' ->
  length_m r' = length_m r /\
  (n_straights r' <= n_straights r)%Z /\
  (n_uturns r' <= n_uturns r)%Z /\
  (elbows_90 r' <= elbows_90 r)%Z.
Proof.
  intros Hflow Ht Hseg Hle H H'.
  destruct (calculate_Ok_run _ _ _ _ _ _ _ _ _ _ H)
    as [d2 segs ef v2 ld c Hd2 _ _ Hvol Hlen Hsegs Hc Hn Hu He
          _ _ _ _ _ _ _ _ _].
  destruct (calculate_Ok_run _ _ _ _ _ _ _ _ _ _ H')
    as [d2' segs' ef' v2' ld' c' Hd2' _ _ Hvol' Hlen' Hsegs' Hc' Hn' Hu'
          He' _ _ _ _ _ _ _ _ _].
  assert (d2' = d2) by congruence. subst d2'.
  rewrite Hvol in Hlen. rewrite Hvol' in Hlen'.
  assert (Elen : length_m r' = length_m r) by congruence.
  destruct (run_area_positive _ _ _ _ _ _ _ _ Hd2 Hlen Hsegs Hc)
    as (Harea & _ & Nsegs).
  destruct (run_area_positive _ _ _ _ _ _ _ _ Hd2 Hlen' Hsegs' Hc')
    as (_ & _ & Nsegs').
  apply py_truediv_Ok in Hlen, Hsegs, Hsegs'.
  destruct Hlen as [Za Hlen].
  destruct Hsegs as [_ ->]. destruct Hsegs' as [_ ->].
  rewrite Elen in *.
  assert (Hpos : (length_m r <? 0) = false).
  { rewrite Hlen. apply FloatFacts.div_not_negative.
    - apply FloatFacts.mul_not_negative.
      + apply FloatFacts.div_not_negative; try reflexivity.
        apply FloatFacts.leb_0_not_negative, Hflow.
      + apply FloatFacts.leb_0_not_negative, Ht.
    - apply FloatFacts.positive_not_negative, Harea.
    - exact Za. }
  assert (Lc : (c' <= c)%Z).
  { apply (Monotone.math_ceil_mono _ _ _ _
             (Intervals.div_le_antitone _ _ _ Hpos Hseg Hle Nsegs Nsegs')
             Hc' Hc). }
  repeat split; lia.
Qed.

(** A quarter of an hour in segments of 1 m and of 2 m. *)
Lemma longer_segments_fewer_turns_witness :
  exists r r' : coil_result,
    calculate_retention_coil (libm := square_libm)
      0.01 900 25 0.0015 998 1 1 0.9 true = Ok r /\
    calculate_retention_coil (libm := square_libm)
      0.01 900 25 0.0015 998 1 2 0.9 true = Ok r' /\
    n_straights r = 6%Z /\ n_straights r' = 3%Z /\
    (elbows_90 r' <= elbows_90 r)%Z.
Proof.
  destruct (calculate_retention_coil (libm := square_libm)
              0.01 900 25 0.0015 998 1 1 0.9 true) as [r|e] eqn:E;
    [|vm_compute in E; discriminate].
  destruct (calculate_retention_coil (libm := square_libm)
              0.01 900 25 0.0015 998 1 2 0.9 true) as [r'|e] eqn:E';
    [|vm_compute in E'; discriminate].
  exists r, r'. split; [reflexivity|]. split; [reflexivity|].
  destruct (longer_segments_fewer_turns (libm := square_libm)
              0.01 900 25 0.0015 998 1 0.9 true 1 2 r r'
              eq_refl eq_refl eq_refl eq_refl E E') as (_ & _ & _ & He).
  vm_compute in E, E'. injection E as <-. injection E' as <-.
  repeat split. exact He.
Defined.

(** ** The Reynolds number and the laminar friction factor *)

(** When [a / c] is a number and [c'] is a positive number that is not above
    [c], then [a / c'] is a number. *)
Lemma div_not_nan_smaller (a c c' : float) :
  (0 <? c') = true -> (c' <=? c) = true ->
  is_nan (a / c) = false -> is_nan (a / c') = false.
Proof.
  rewrite FloatFacts.ltb_0_true, leb_spec, !FloatFacts.is_nan_false,
    !div_spec.
  destruct (Prim2SF a) as [sa|sa| |sa ma ea],
           (Prim2SF c') as [sc'|[|]| |[|] mc' ec'];
    try discriminate;
    destruct (Prim2SF c) as [sc|[|]| |[|] mc ec];
    try discriminate; intros _ _ H; try discriminate;
    try (exfalso; apply H; reflexivity).
  all: destruct (Order.SFdiv_finite_signed sa false ma mc' ea ec');
    discriminate.
Qed.

(** X12: the Reynolds number grows with the velocity and falls with the
    viscosity: with a density and a diameter that are not negative, a velocity
    that is not negative and is raised, and a positive viscosity that is
    lowered, the Reynolds number does not decrease (when both are numbers). *)
Theorem reynolds_number_monotone
    (rho diameter_m velocity velocity' mu_pa_s mu_pa_s' re re' : float) :
  (0 <=? rho) = true -> (0 <=? diameter_m) = true ->
  (0 <=? velocity) = true -> (velocity <=? velocity') = true ->
  (0 <? mu_pa_s') = true -> (mu_pa_s' <=? mu_pa_s) = true ->
  reynolds_number rho velocity diameter_m mu_pa_s = Ok re ->
  reynolds_number rho velocity' diameter_m mu_pa_s' = Ok re' ->
  is_nan re = false -> is_nan re' = false ->
  (re <=? re') = true.
Proof.
  unfold reynolds_number.
  intros Hrho Hd Hv Hvv Hmu' Hmu H H' N N'.
  apply py_truediv_Ok in H, H'. destruct H as [_ ->], H' as [_ ->].
  apply FloatFacts.leb_0_not_negative in Hrho, Hd, Hv.
  pose proof (not_nan_div_l _ _ N) as Nn.
  pose proof (not_nan_div_l _ _ N') as Nn'.
  pose proof (div_not_nan_smaller _ _ _ Hmu' Hmu N) as Nmid.
  apply (Intervals.leb_trans _ (rho * velocity * diameter_m / mu_pa_s')).
  - apply Intervals.div_le_antitone; try assumption.
    apply FloatFacts.mul_not_negative; [|assumption].
    apply FloatFacts.mul_not_negative; assumption.
  - apply Monotone.div_le_mono_r; try assumption.
    apply Intervals.mul_le_mono_r; try assumption.
    apply Monotone.mul_le_mono_l; try assumption.
    + exact (not_nan_mul_l _ _ Nn).
    + exact (not_nan_mul_l _ _ Nn').
Qed.

(** Water at 1 m/s and milk at half the speed in a 25 mm pipe. *)
Lemma reynolds_number_monotone_witness :
  exists re re' : float,
    reynolds_number 1030 0.5 0.025 0.002 = Ok re /\
    reynolds_number 1030 1 0.025 0.001 = Ok re' /\
    (re <=? re') = true.
Proof.
  exists (1030 * 0.5 * 0.025 / 0.002), (1030 * 1 * 0.025 / 0.001).
  split; [reflexivity|]. split; [reflexivity|].
  apply (reynolds_number_monotone 1030 0.025 0.5 1 0.002 0.001);
    reflexivity.
Defined.

(** Among numbers, what is not below is above or equal. *)
Lemma ltb_leb_total (a b : float) :
  is_nan a = false -> is_nan b = false -> (a <? b) = false ->
  (b <=? a) = true.
Proof.
  rewrite !FloatFacts.is_nan_false, ltb_spec, leb_spec.
  unfold SFltb, SFleb.
  rewrite (FloatFacts.SFcompare_antisym (Prim2SF a) (Prim2SF b)).
  intros Na Nb.
  assert (E : exists c, SFcompare (Prim2SF a) (Prim2SF b) = Some c).
  { destruct (Prim2SF a) as [sa|sa| |sa ma ea],
             (Prim2SF b) as [sb|sb| |sb mb eb]; try congruence;
      eexists; reflexivity. }
  destruct E as [c ->]. destruct c; cbn; congruence.
Qed.

Lemma ltb_leb (a b : float) : (a <? b) = true -> (a <=? b) = true.
Proof.
  rewrite ltb_spec, leb_spec. unfold SFltb, SFleb.
  destruct (SFcompare (Prim2SF a) (Prim2SF b)) as [[| |]|]; congruence.
Qed.

Lemma leb_ltb_trans (a b c : float) :
  (a <=? b) = true -> (b <? c) = true -> (a <? c) = true.
Proof.
  intros Hab Hbc. destruct (a <? c) eqn:E; [reflexivity|exfalso].
  assert (Na : is_nan a = false).
  { apply FloatFacts.is_nan_false. intros N. revert Hab.
    rewrite leb_spec, N. discriminate. }
  assert (Nc : is_nan c = false).
  { apply FloatFacts.is_nan_false. intros N. revert Hbc.
    rewrite ltb_spec, N. unfold SFltb.
    destruct (Prim2SF b); discriminate. }
  pose proof (ltb_leb_total _ _ Na Nc E) as Hca.
  pose proof (Intervals.leb_trans _ _ _ Hca Hab) as Hcb.
  apply FloatFacts.leb_not_ltb in Hcb. congruence.
Qed.

(** X13: in the laminar regime the friction factor falls as the Reynolds
    number grows: for [0 < re <= re' < 2300] the friction factor of [re'] is
    not above that of [re]. *)
Theorem laminar_friction_antitone {libm : Libm}
    (re re' roughness_m diameter_m f f' : float) :
  (0 <? re) = true -> (re <=? re') = true -> (re' <? 2300) = true ->
  darcy_friction_factor re roughness_m diameter_m = Ok f ->
  darcy_friction_factor re' roughness_m diameter_m = Ok f' ->
  (f' <=? f) = true.
Proof.
  intros Hre Hle Hlam.
  pose proof (Intervals.ltb_leb_trans _ _ Hre Hle) as Hre'.
  pose proof (leb_ltb_trans _ _ _ Hle Hlam) as Hlam0.
  unfold darcy_friction_factor.
  rewrite (FloatFacts.positive_not_leb_0 _ Hre),
    (FloatFacts.positive_not_leb_0 _ Hre'), Hlam, Hlam0.
  intros H H'. apply py_truediv_Ok in H, H'.
  destruct H as [_ ->], H' as [_ ->].
  assert (F2300 : is_finite 2300 = true) by reflexivity.
  assert (Fre' : is_finite re' = true).
  { apply (Intervals.leb_finite_r _ 2300); try assumption.
    apply ltb_leb. exact Hlam. }
  assert (Fre : is_finite re = true)
    by exact (Intervals.leb_finite_r _ _ Hre Hle Fre').
  apply Intervals.div_le_antitone; try assumption; try reflexivity;
    apply Intervals.div_finite_not_nan; try assumption; reflexivity.
Qed.

(** A Reynolds number of 500 and one of 2000. *)
Lemma laminar_friction_antitone_witness :
  exists f f' : float,
    darcy_friction_factor (libm := square_libm) 500 0.0000015 0.025 = Ok f /\
    darcy_friction_factor (libm := square_libm) 2000 0.0000015 0.025 = Ok f' /\
    (f' <=? f) = true.
Proof.
  exists (64 / 500), (64 / 2000).
  split; [reflexivity|]. split; [reflexivity|].
  apply (laminar_friction_antitone (libm := square_libm)
           500 2000 0.0000015 0.025); reflexivity.
Defined.

(** ** The number of straight segments *)

(** X14: [n_straights] is the least integer from 1 on that is not below the
    quotient of the length and the straight-segment length, as the floats give
    it: it is at least 1 and not below the quotient, and no integer from 1 on
    that is not below the quotient is smaller. *)
Theorem n_straights_is_least {libm : Libm}
    (flow_m3_h retention_time_s diameter_mm roughness_mm rho mu_mpa_s
     straight_segment_m k_elbow_90 : float) (io : bool) (r : coil_result) :
  calculate_retention_coil flow_m3_h retention_time_s diameter_mm
    roughness_mm rho mu_mpa_s straight_segment_m k_elbow_90 io = Ok r ->
  let quotient := Rounding.SF2R (Prim2SF (length_m r / straight_segment_m)) in
  is_finite (length_m r / straight_segment_m) = true /\
  (1 <= n_straights r)%Z /\
  (quotient <= IZR (n_straights r))%R /\
  forall k : Z, (1 <= k)%Z -> (quotient <= IZR k)%R -> (n_straights r <= k)%Z.
Proof.
  intros H.
  destruct (calculate_Ok_run _ _ _ _ _ _ _ _ _ _ H)
    as [d2 segs ef v2 ld c _ _ _ _ _ Hsegs Hc Hn _ _ _ _ _ _ _ _ _ _ _].
  apply py_truediv_Ok in Hsegs. destruct Hsegs as [_ ->].
  destruct (Monotone.math_ceil_Ok _ _ Hc) as [Hf [Hlo Hhi]].
  cbv zeta. rewrite Intervals.is_finite_spec, Hn.
  split; [exact Hf|]. split; [lia|]. split.
  - apply Rle_trans with (1 := Hhi). apply IZR_le. lia.
  - intros k Hk Hq.
    assert (Hlt : (IZR c < IZR k + 1)%R) by lra.
    rewrite <- plus_IZR in Hlt. apply lt_IZR in Hlt. lia.
Qed.

(** A quarter of an hour of 0.01 m3/h in a 25 mm pipe, in segments of 2 m:
    three segments. *)
Lemma n_straights_is_least_witness :
  exists r : coil_result,
    calculate_retention_coil (libm := square_libm)
      0.01 900 25 0.0015 998 1 2 0.9 true = Ok r /\
    n_straights r = 3%Z /\
    (Rounding.SF2R (Prim2SF (length_m r / 2)) <= 3)%R.
Proof.
  destruct (calculate_retention_coil (libm := square_libm)
              0.01 900 25 0.0015 998 1 2 0.9 true) as [r|e] eqn:E;
    [|vm_compute in E; discriminate].
  exists r. split; [reflexivity|].
  destruct (n_straights_is_least (libm := square_libm)
              0.01 900 25 0.0015 998 1 2 0.9 true r E) as (_ & _ & Hq & _).
  assert (Hn : n_straights r = 3%Z).
  { vm_compute in E. injection E as <-. reflexivity. }
  split; [exact Hn|]. rewrite Hn in Hq. exact Hq.
Defined.

(** ** More retention time, more pressure drop *)

Lemma not_nan_add (a b : float) :
  is_nan (a + b) = false -> is_nan a = false /\ is_nan b = false.
Proof.
  rewrite !FloatFacts.is_nan_false, add_spec. intros H.
  split; intros E; apply H; rewrite E; [reflexivity|].
  destruct (Prim2SF a); reflexivity.
Qed.

(** X15: with a flow, a retention time, a diameter, a density and an elbow
    factor that are not negative and a positive straight-segment length, a
    longer retention time never lowers the resistance or a pressure drop: of
    two calls that differ in the retention time only and both return, with
    total pressure drops that are numbers, the one with the longer time has
    the larger or equal [k_total], [dp_distributed_pa], [dp_local_pa] and
    [dp_total_pa]. *)
Theorem retention_time_raises_pressure_drop {libm : Libm}
    (flow_m3_h diameter_mm roughness_mm rho mu_mpa_s straight_segment_m
     k_elbow_90 : float) (io : bool)
    (retention_time_s retention_time_s' : float) (r r' : coil_result) :
  (0 <=? flow_m3_h) = true -> (0 <=? diameter_mm) = true ->
  (0 <=? rho) = true -> (0 <? straight_segment_m) = true ->
  (0 <=? k_elbow_90) = true ->
  (0 <=? retention_time_s) = true ->
  (retention_time_s <=? retention_time_s') = true ->
  calculate_retention_coil flow_m3_h retention_time_s diameter_mm
    roughness_mm rho mu_mpa_s straight_segment_m k_elbow_90 io = Ok r ->
  calculate_retention_coil flow_m3_h retention_time_s' diameter_mm
    roughness_mm rho mu_mpa_s straight_segment_m k_elbow_90 io = Ok r' ->
  is_nan (dp_total_pa r) = false -> is_nan (dp_total_pa r') = false ->
  (k_total r <=? k_total r') = true /\
  (dp_distributed_pa r <=? dp_distributed_pa r') = true /\
  (dp_local_pa r <=? dp_local_pa r') = true /\
  (dp_total_pa r <=? dp_total_pa r') = true.
Proof.
  intros Hflow Hd Hrho Hseg Hk Ht0 Ht H H' N N'.
  destruct (calculate_Ok_run _ _ _ _ _ _ _ _ _ _ H)
    as [d2 segs ef v2 ld c Hd2 _ Hv Hvol Hlen Hsegs Hc Hn Hu He Hre
          Hf Hef Hkt Hv2 Hld Hdd Hdl Hdt].
  destruct (calculate_Ok_run _ _ _ _ _ _ _ _ _ _ H')
    as [d2' segs' ef' v2' ld' c' Hd2' _ Hv' Hvol' Hlen' Hsegs' Hc' Hn' Hu'
          He' Hre' Hf' Hef' Hkt' Hv2' Hld' Hdd' Hdl' Hdt'].
  assert (d2' = d2) by congruence. subst d2'.
  assert (Ev : velocity r' = velocity r) by congruence.
  rewrite Ev in Hre', Hv2'.
  assert (Ere : re r' = re r) by congruence. rewrite Ere in Hf'.
  assert (Ef : f r' = f r) by congruence.
  assert (v2' = v2) by congruence. subst v2'.
  (* the layout *)
  rewrite Hvol in Hlen. rewrite Hvol' in Hlen'.
  destruct (run_area_positive _ _ _ _ _ _ _ _ Hd2 Hlen Hsegs Hc)
    as (Harea & Nlen & Nsegs).
  destruct (run_area_positive _ _ _ _ _ _ _ _ Hd2 Hlen' Hsegs' Hc')
    as (_ & Nlen' & Nsegs').
  apply py_truediv_Ok in Hlen, Hlen', Hsegs, Hsegs', Hld, Hld'.
  destruct Hlen as [Za Elen]. destruct Hlen' as [_ Elen'].
  destruct Hsegs as [_ ->]. destruct Hsegs' as [_ ->].
  destruct Hld as [Zd ->]. destruct Hld' as [_ ->].
  assert (Hq : (flow_m3_h / 3600 <? 0) = false).
  { apply FloatFacts.div_not_negative; try reflexivity.
    apply FloatFacts.leb_0_not_negative, Hflow. }
  assert (Llen : (length_m r <=? length_m r') = true).
  { rewrite Elen, Elen'. rewrite Elen in Nlen. rewrite Elen' in Nlen'.
    apply Monotone.div_le_mono_r; try assumption.
    apply Monotone.mul_le_mono_l; try assumption.
    - exact (not_nan_div_l _ _ Nlen).
    - exact (not_nan_div_l _ _ Nlen'). }
  assert (Lc : (c <= c')%Z).
  { apply (Monotone.math_ceil_mono _ _ _ _
             (Monotone.div_le_mono_r _ _ _ Hseg Llen Nsegs Nsegs') Hc Hc'). }
  assert (Plen : (length_m r <? 0) = false).
  { rewrite Elen. apply FloatFacts.div_not_negative.
    - apply FloatFacts.mul_not_negative; [exact Hq|].
      apply FloatFacts.leb_0_not_negative, Ht0.
    - apply FloatFacts.positive_not_negative, Harea.
    - exact Za. }
  (* what is a number *)
  rewrite Hdt in N. rewrite Hdt' in N'.
  destruct (not_nan_add _ _ N) as [Ndd Ndl].
  destruct (not_nan_add _ _ N') as [Ndd' Ndl'].
  rewrite Hdd in Ndd. rewrite Hdd', Ef in Ndd'.
  rewrite Hdl in Ndl. rewrite Hdl' in Ndl'.
  pose proof (not_nan_mul_l _ _ Ndd) as Nfl.
  pose proof (not_nan_mul_l _ _ Ndd') as Nfl'.
  pose proof (not_nan_mul_r _ _ Nfl) as Nld.
  pose proof (not_nan_mul_r _ _ Nfl') as Nld'.
  pose proof (not_nan_mul_r _ _ Ndd) as Ndyn.
  pose proof (not_nan_mul_l _ _ Ndl) as Nk.
  pose proof (not_nan_mul_l _ _ Ndl') as Nk'.
  (* the signs *)
  assert (Pdyn : (rho * v2 / 2 <? 0) = false).
  { apply FloatFacts.div_not_negative; try reflexivity.
    apply FloatFacts.mul_not_negative.
    - apply FloatFacts.leb_0_not_negative, Hrho.
    - exact (py_pow_2_not_negative _ _ Hv2). }
  assert (Pd : (0 <? diameter_mm / 1000) = true).
  { apply not_negative_positive.
    - apply FloatFacts.div_not_negative; try reflexivity.
      apply FloatFacts.leb_0_not_negative, Hd.
    - exact Zd.
    - exact (not_nan_div_r _ _ Nld). }
  pose proof (darcy_not_negative _ _ _ _ Hf) as Pf.
  assert (Pef : (0 <= elbows_90 r <= elbows_90 r')%Z) by lia.
  pose proof (float_of_int_not_negative _ _ (proj1 Pef) Hef) as Pe.
  pose proof (FloatFacts.leb_0_not_negative _ Hk) as Pk.
  assert (Pld : (length_m r / (diameter_mm / 1000) <? 0) = false).
  { apply FloatFacts.div_not_negative; try assumption.
    apply FloatFacts.positive_not_negative, Pd. }
  (* the order *)
  assert (Lld : (length_m r / (diameter_mm / 1000)
                 <=? length_m r' / (diameter_mm / 1000)) = true)
    by (apply Monotone.div_le_mono_r; assumption).
  assert (Ldd : (dp_distributed_pa r <=? dp_distributed_pa r') = true).
  { rewrite Hdd, Hdd', Ef.
    apply Intervals.mul_le_mono_r; try assumption.
    apply Monotone.mul_le_mono_l; assumption. }
  assert (Lef : (ef <=? ef') = true)
    by exact (Sums0.float_of_int_mono _ _ _ _ Pef Hef Hef').
  assert (Lk : (k_total r <=? k_total r') = true).
  { rewrite Hkt in Nk |- *. rewrite Hkt' in Nk' |- *. destruct io.
    - destruct (not_nan_add _ _ Nk) as [Nek _].
      destruct (not_nan_add _ _ Nk') as [Nek' _].
      apply Sums0.add_le_mono; try reflexivity.
      + apply UpTo.not_negative_leb_0; [|exact Nek].
        apply FloatFacts.mul_not_negative; assumption.
      + apply Intervals.mul_le_mono_r; assumption.
    - apply Intervals.mul_le_mono_r; assumption. }
  assert (Ldl : (dp_local_pa r <=? dp_local_pa r') = true).
  { rewrite Hdl, Hdl'. apply Intervals.mul_le_mono_r; assumption. }
  split; [exact Lk|]. split; [exact Ldd|]. split; [exact Ldl|].
  rewrite Hdt, Hdt'. apply Sums0.add_le_mono; try assumption.
  - rewrite Hdd. apply UpTo.not_negative_leb_0; [|exact Ndd].
    apply FloatFacts.mul_not_negative; [|exact Pdyn].
    apply FloatFacts.mul_not_negative; assumption.
  - rewrite Hdl. apply UpTo.not_negative_leb_0; [|exact Ndl].
    apply FloatFacts.mul_not_negative; [|exact Pdyn].
    rewrite Hkt. destruct io.
    + apply FloatFacts.add_not_negative; [|reflexivity].
      apply FloatFacts.mul_not_negative; assumption.
    + apply FloatFacts.mul_not_negative; assumption.
Qed.

(** One minute and a quarter of an hour in the same pipe. *)
Lemma retention_time_raises_pressure_drop_witness :
  exists r r' : coil_result,
    calculate_retention_coil (libm := square_libm)
      0.01 60 25 0.0015 998 1 2 0.9 true = Ok r /\
    calculate_retention_coil (libm := square_libm)
      0.01 900 25 0.0015 998 1 2 0.9 true = Ok r' /\
    (k_total r <=? k_total r') = true /\
    (dp_total_pa r <=? dp_total_pa r') = true.
Proof.
  destruct (calculate_retention_coil (libm := square_libm)
              0.01 60 25 0.0015 998 1 2 0.9 true) as [r|e] eqn:E;
    [|vm_compute in E; discriminate].
  destruct (calculate_retention_coil (libm := square_libm)
              0.01 900 25 0.0015 998 1 2 0.9 true) as [r'|e] eqn:E';
    [|vm_compute in E'; discriminate].
  exists r, r'. split; [reflexivity|]. split; [reflexivity|].
  assert (N : is_nan (dp_total_pa r) = false).
  { vm_compute in E. injection E as <-. reflexivity. }
  assert (N' : is_nan (dp_total_pa r') = false).
  { vm_compute in E'. injection E' as <-. reflexivity. }
  destruct (retention_time_raises_pressure_drop (libm := square_libm)
              0.01 25 0.0015 998 1 2 0.9 true 60 900 r r'
              eq_refl eq_refl eq_refl eq_refl eq_refl eq_refl eq_refl
              E E' N N') as (Hk & _ & _ & Hdt).
  split; assumption.
Defined.

(** ** The page's call *)

Lemma eqb_leb (a b : float) : (a =? b) = true -> (b <=? a) = true.
Proof.
  rewrite eqb_spec, leb_spec. unfold SFeqb, SFleb.
  rewrite (FloatFacts.SFcompare_antisym (Prim2SF a) (Prim2SF b)).
  destruct (SFcompare (Prim2SF a) (Prim2SF b)) as [[| |]|]; cbn; congruence.
Qed.

Lemma below_1_not_1 (x hi : float) :
  (x <=? hi) = true -> (hi <? 1) = true -> (x =? 1) = false.
Proof.
  intros Hx Hhi. destruct (x =? 1) eqn:E; [exfalso|reflexivity].
  apply eqb_leb in E.
  pose proof (Intervals.leb_trans _ _ _ E Hx) as H.
  apply FloatFacts.leb_not_ltb in H. congruence.
Qed.

Lemma within_widen (lo hi lo' hi' x : float) :
  (lo' <=? lo) = true -> (hi <=? hi') = true ->
  Intervals.within lo hi x = true -> Intervals.within lo' hi' x = true.
Proof.
  intros Hlo Hhi H. apply Intervals.within_bounds in H. destruct H as [L U].
  apply Intervals.within_bounds. split.
  - exact (Intervals.leb_trans _ _ _ Hlo L).
  - exact (Intervals.leb_trans _ _ _ U Hhi).
Qed.

Lemma within_positive_finite (lo hi x : float) :
  (0 <? lo) = true -> is_finite hi = true ->
  Intervals.within lo hi x = true ->
  (0 <? x) = true /\ is_finite x = true.
Proof.
  intros Hlo Hhi H. apply Intervals.within_bounds in H. destruct H as [L U].
  pose proof (Intervals.ltb_leb_trans _ _ Hlo L) as P.
  split; [exact P|]. exact (Intervals.leb_finite_r _ _ P U Hhi).
Qed.

Lemma is_finite_parts (x : float) :
  is_finite x = true -> is_nan x = false /\ is_infinity x = false.
Proof.
  unfold is_finite. destruct (is_nan x), (is_infinity x); try discriminate.
  auto.
Qed.

Section Squares.

Context {libm : Libm}.

(** The square of a positive finite number is the C library's, unless the
    library answers with an infinity. *)
Lemma py_pow_2_positive (x : float) :
  (0 <? x) = true -> is_finite x = true ->
  is_finite (libm_pow x 2) = true ->
  py_pow x 2 = Ok (if x =? 1 then 1 else libm_pow x 2).
Proof.
  intros Hpos Hfin Hsq. rewrite py_pow_2_unfold.
  destruct (is_finite_parts _ Hfin) as [-> ->].
  destruct (is_finite_parts _ Hsq) as [_ Hi].
  rewrite (FloatFacts.positive_not_eqb_0 _ Hpos),
    (FloatFacts.positive_not_negative _ Hpos).
  cbv zeta. destruct (x =? 1); [reflexivity|]. rewrite Hi. reflexivity.
Qed.

End Squares.

Lemma eqb_leb_l (a b : float) : (a =? b) = true -> (a <=? b) = true.
Proof.
  rewrite eqb_spec, leb_spec. unfold SFeqb, SFleb.
  destruct (SFcompare (Prim2SF a) (Prim2SF b)) as [[| |]|]; congruence.
Qed.

Lemma above_1_not_1 (x lo : float) :
  (lo <=? x) = true -> (1 <? lo) = true -> (x =? 1) = false.
Proof.
  intros Hx Hlo. destruct (x =? 1) eqn:E; [exfalso|reflexivity].
  apply eqb_leb_l in E.
  pose proof (Intervals.leb_trans _ _ _ Hx E) as H.
  apply FloatFacts.leb_not_ltb in H. congruence.
Qed.

Section Library.

Context {libm : Libm}.

(** A positive finite number other than 1 to the power 0.9 is the C
    library's, unless the library answers with an infinity. *)
Lemma py_pow_09_positive (x : float) :
  (0 <? x) = true -> is_finite x = true -> (x =? 1) = false ->
  is_finite (libm_pow x 0.9) = true ->
  py_pow x 0.9 = Ok (libm_pow x 0.9).
Proof.
  intros Hpos Hfin H1 Hp. unfold py_pow.
  change (0.9 =? 0) with false. change (is_nan 0.9) with false.
  change (is_infinity 0.9) with false.
  destruct (is_finite_parts _ Hfin) as [-> ->].
  destruct (is_finite_parts _ Hp) as [_ Hi].
  rewrite (FloatFacts.positive_not_eqb_0 _ Hpos),
    (FloatFacts.positive_not_negative _ Hpos).
  cbn [andb]. cbv beta iota zeta. rewrite H1, Hi. reflexivity.
Qed.

(** The logarithm of a positive finite number is the C library's, when that
    is finite. *)
Lemma math_log10_positive (x : float) :
  (0 <? x) = true -> is_finite x = true ->
  is_finite (libm_log10 x) = true ->
  math_log10 x = Ok (libm_log10 x).
Proof.
  intros Hpos Hfin Hl. unfold math_log10. rewrite Hfin, Hpos. cbv zeta.
  destruct (is_finite_parts _ Hl) as [-> ->]. reflexivity.
Qed.

End Library.

(** The square of a positive finite number is 1 or the C library's. *)
Lemma within_square {libm : Libm} (lo hi x : float) :
  (0 <? x) = true -> is_finite x = true ->
  Intervals.within lo hi 1 = true ->
  Intervals.within lo hi (libm_pow x 2) = true ->
  is_finite hi = true -> (0 <? lo) = true ->
  exists y : float, py_pow x 2 = Ok y /\ Intervals.within lo hi y = true.
Proof.
  intros Px Fx W1 W Fh Pl.
  destruct (within_positive_finite _ _ _ Pl Fh W) as [_ Fy].
  rewrite (py_pow_2_positive _ Px Fx Fy).
  destruct (x =? 1); eexists; (split; [reflexivity|assumption]).
Qed.

(** ** What the page asks of the C library

    The C library's [pow] and [log10] enter the call of the page at four
    places.  Of the squares the page asks that the square of a diameter
    between 5 mm and 0.3 m, in metres, is between 2e-5 and 0.1 (the exact
    squares are between 2.5e-5 and 0.09), and that the square of a velocity
    between 1e-5 and 4000 m/s is between 5e-11 and 2e7 (the exact squares
    are between 1e-10 and 1.6e7). *)
Definition squares_fit (libm : Libm) : Prop :=
  (forall x : float, Intervals.within 0.005 0.3 x = true ->
     Intervals.within 2e-5 0.1 (libm_pow x 2) = true) /\
  (forall x : float, Intervals.within 1e-5 4000 x = true ->
     Intervals.within 5e-11 2e7 (libm_pow x 2) = true).

(** Of the turbulent branch it asks that a Reynolds number between 2300 and
    1e10 to the power 0.9 is between 1000 and 1e10 (the exact powers are
    between 1061 and 1e9), that the logarithm of a number between 5e-8 and
    0.06 is between -8 and -1 (the exact logarithms are between -7.4 and
    -1.2), and that the square of a number between 1 and 8 is between 0.5
    and 100. *)
Definition turbulent_fit (libm : Libm) : Prop :=
  (forall x : float, Intervals.within 2300 1e10 x = true ->
     Intervals.within 1000 1e10 (libm_pow x 0.9) = true) /\
  (forall x : float, Intervals.within 5e-8 0.06 x = true ->
     Intervals.within (-8) (-1) (libm_log10 x) = true) /\
  (forall x : float, Intervals.within 1 8 x = true ->
     Intervals.within 0.5 100 (libm_pow x 2) = true).

(** A number that can be shown: finite and not below zero. *)
Definition shown (x : float) : bool := is_finite x && (0 <=? x).

Lemma upto_shown (hi x : float) :
  is_finite hi = true -> UpTo.upto hi x = true -> shown x = true.
Proof.
  intros Fh W. unfold shown. rewrite (UpTo.upto_finite _ _ Fh W).
  apply UpTo.upto_bounds in W. destruct W as [-> _]. reflexivity.
Qed.

Lemma within_shown (lo hi x : float) :
  (0 <? lo) = true -> is_finite hi = true ->
  Intervals.within lo hi x = true -> shown x = true.
Proof.
  intros Pl Fh W. apply (upto_shown hi); [exact Fh|].
  exact (UpTo.within_upto _ _ _ Pl W).
Qed.

(** Dividing by 1000 keeps a number between zero and a finite bound so. *)
Lemma shown_per_1000 (hi x : float) :
  is_finite hi = true -> is_finite (hi / 1000) = true ->
  UpTo.upto hi x = true -> shown (x / 1000) = true.
Proof.
  intros Fh Fh' W. pose proof (UpTo.upto_finite _ _ Fh W) as Fx.
  apply UpTo.upto_bounds in W. destruct W as [L U].
  assert (N : is_nan (x / 1000) = false)
    by (apply Intervals.div_finite_not_nan; [exact Fx|reflexivity]).
  apply (upto_shown (hi / 1000)); [exact Fh'|].
  apply UpTo.upto_bounds. split.
  - apply UpTo.not_negative_leb_0; [|exact N].
    apply FloatFacts.div_not_negative; try reflexivity.
    apply FloatFacts.leb_0_not_negative, L.
  - apply Monotone.div_le_mono_r; try assumption; try reflexivity.
    apply Intervals.is_finite_not_nan, Fh'.
Qed.

(** From the bounds of two numbers to the bounds of their product, quotient
    or sum; the side conditions are about the bounds alone and are
    computed. *)
Ltac interval_step lem Wa Wb W :=
  pose proof (fun p1 p2 f1 f2 => lem _ _ _ _ _ _ p1 p2 f1 f2 Wa Wb) as W;
  specialize (W eq_refl eq_refl eq_refl eq_refl).

Ltac positive_finite W P F :=
  let H := fresh in
  pose proof (fun p f => within_positive_finite _ _ _ p f W) as H;
  destruct (H eq_refl eq_refl) as [P F]; clear H.

Ltac widen W := refine (within_widen _ _ _ _ _ _ _ W); reflexivity.

Ltac upto_of_within W U :=
  pose proof (fun p => UpTo.within_upto _ _ _ p W) as U;
  specialize (U eq_refl).

Ltac upto_mul Wa Wb W :=
  pose proof (fun f1 f2 => UpTo.mul_upto _ _ _ _ f1 f2 Wa Wb) as W;
  specialize (W eq_refl eq_refl).

Ltac upto_add Wa Wb W :=
  pose proof (fun p1 p2 f1 f2 s1 s2 =>
                UpTo.add_upto _ _ _ _ p1 p2 f1 f2 s1 s2 Wa Wb) as W;
  specialize (W eq_refl eq_refl eq_refl eq_refl eq_refl eq_refl).

Ltac show_within W :=
  let H := fresh in
  pose proof (fun p f => within_shown _ _ _ p f W) as H;
  rewrite (H eq_refl eq_refl); clear H.

Ltac show_upto U :=
  let H := fresh in
  pose proof (fun f => upto_shown _ _ f U) as H;
  rewrite (H eq_refl); clear H.

Ltac show_per_1000 U :=
  let H := fresh in
  pose proof (fun f f' => shown_per_1000 _ _ f f' U) as H;
  rewrite (H eq_refl eq_refl); clear H.

Section PageCall.

Context {libm : Libm}.

(** The two parts of [squares_fit]. *)
Hypothesis pow_2_diameter :
  forall x : float, Intervals.within 0.005 0.3 x = true ->
    Intervals.within 2e-5 0.1 (libm_pow x 2) = true.
Hypothesis pow_2_velocity :
  forall x : float, Intervals.within 1e-5 4000 x = true ->
    Intervals.within 5e-11 2e7 (libm_pow x 2) = true.

Variable fluid_option : string.
Variables rho mu flow_m3_h retention_time_s diameter_mm roughness_mm
  straight_segment_m k_elbow_90 : float.
Variable include_io : bool.

Hypothesis rho_in_range :
  Page.in_range (Page.rho_input fluid_option) rho = true.
Hypothesis mu_in_range :
  Page.in_range (Page.mu_input fluid_option) mu = true.
Hypothesis flow_in_range :
  Page.in_range Page.flow_m3_h_input flow_m3_h = true.
Hypothesis retention_time_in_range :
  Page.in_range Page.retention_time_s_input retention_time_s = true.
Hypothesis diameter_in_range :
  Page.in_range Page.diameter_mm_input diameter_mm = true.
Hypothesis straight_segment_in_range :
  Page.in_range Page.straight_segment_m_input straight_segment_m = true.

(** The steps of the call before the friction factor, with the bounds of
    what they compute. *)
Lemma page_call_bounds :
  let diameter_m := diameter_mm / 1000 in
  let d2 := libm_pow diameter_m 2 in
  let area := math_pi * d2 / 4 in
  let q := flow_m3_h / 3600 in
  let velocity := q / area in
  let volume := q * retention_time_s in
  let length_m := volume / area in
  let re := rho * velocity * diameter_m / (mu / 1000) in
  py_pow diameter_m 2 = Ok d2 /\
  ((area =? 0) = false /\ (straight_segment_m =? 0) = false /\
   (mu / 1000 =? 0) = false /\ (diameter_m =? 0) = false) /\
  (exists c : Z,
     math_ceil (length_m / straight_segment_m) = Ok c /\
     (c <= 63661978)%Z) /\
  (Intervals.within 0.005 0.3 diameter_m = true /\
   Intervals.within 2.7e-6 0.056 q = true /\
   Intervals.within 1e-5 4000 velocity = true /\
   Intervals.within 2.7e-6 201 volume = true /\
   Intervals.within 3e-5 1.3e7 length_m = true /\
   Intervals.within 1e-4 2.6e9 (length_m / diameter_m) = true /\
   Intervals.within 1e-4 1e10 re = true /\
   Intervals.within 800 1300 rho = true).
Proof.
  cbv zeta.
  pose proof rho_in_range as Wrho.
  change (Intervals.within 800 1300 rho = true) in Wrho.
  pose proof mu_in_range as Wmu.
  change (Intervals.within 0.2 500 mu = true) in Wmu.
  pose proof flow_in_range as Wflow.
  change (Intervals.within 0.01 200 flow_m3_h = true) in Wflow.
  pose proof retention_time_in_range as Wt.
  change (Intervals.within 1 3600 retention_time_s = true) in Wt.
  pose proof diameter_in_range as Wdmm.
  change (Intervals.within 5 300 diameter_mm = true) in Wdmm.
  pose proof straight_segment_in_range as Wseg.
  change (Intervals.within 0.2 20 straight_segment_m = true) in Wseg.
  assert (W1000 : Intervals.within 1000 1000 1000 = true) by reflexivity.
  assert (W3600 : Intervals.within 3600 3600 3600 = true) by reflexivity.
  assert (W4 : Intervals.within 4 4 4 = true) by reflexivity.
  assert (Wpi : Intervals.within math_pi math_pi math_pi = true)
    by reflexivity.
  interval_step Intervals.div_within Wflow W3600 Wq.
  interval_step Intervals.div_within Wdmm W1000 Wd.
  interval_step Intervals.div_within Wmu W1000 Wmupa.
  assert (Wd2 : Intervals.within 2e-5 0.1 (libm_pow (diameter_mm / 1000) 2)
                = true).
  { apply pow_2_diameter. widen Wd. }
  interval_step Intervals.mul_within Wpi Wd2 Wpd.
  interval_step Intervals.div_within Wpd W4 Warea.
  interval_step Intervals.div_within Wq Warea Wv.
  interval_step Intervals.mul_within Wq Wt Wvol.
  interval_step Intervals.div_within Wvol Warea Wlen.
  interval_step Intervals.div_within Wlen Wseg Wsegs.
  interval_step Intervals.div_within Wlen Wd Wld.
  interval_step Intervals.mul_within Wrho Wv Wrv.
  interval_step Intervals.mul_within Wrv Wd Wrvd.
  interval_step Intervals.div_within Wrvd Wmupa Wre.
  positive_finite Wd Pd Fd. positive_finite Wd2 Pd2 Fd2.
  positive_finite Warea Pa Fa. positive_finite Wseg Ps Fs.
  positive_finite Wmupa Pm Fm. positive_finite Wsegs Pg Fg.
  split.
  { rewrite (py_pow_2_positive _ Pd Fd Fd2).
    apply Intervals.within_bounds in Wd. destruct Wd as [_ Ud].
    rewrite (below_1_not_1 _ _ Ud eq_refl). reflexivity. }
  split.
  { repeat split; apply FloatFacts.positive_not_eqb_0; assumption. }
  split.
  { destruct (Conversions.math_ceil_finite _ Fg) as [c Hc].
    exists c. split; [exact Hc|].
    apply Intervals.within_bounds in Wsegs. destruct Wsegs as [_ Us].
    refine (Monotone.math_ceil_mono _ _ _ _ Us Hc _).
    vm_compute. reflexivity. }
  repeat split;
    [widen Wd|widen Wq|widen Wv|widen Wvol|widen Wlen|widen Wld|widen Wre
    |exact Wrho].
Qed.

Lemma velocity_square (v : float) :
  Intervals.within 1e-5 4000 v = true ->
  exists v2 : float,
    py_pow v 2 = Ok v2 /\ Intervals.within 5e-11 2e7 v2 = true.
Proof.
  intros W. positive_finite W P F.
  apply within_square; try assumption; try reflexivity.
  apply pow_2_velocity, W.
Qed.

(** The call of the page stands or falls with the friction factor. *)
Lemma page_call_outcome :
  exists re : float,
    Intervals.within 1e-4 1e10 re = true /\
    match darcy_friction_factor re (roughness_mm / 1000) (diameter_mm / 1000)
    with
    | Ok _ =>
        exists r : coil_result,
          Page.results rho mu flow_m3_h retention_time_s diameter_mm
            roughness_mm straight_segment_m k_elbow_90 include_io = Ok r
    | Raise e =>
        Page.results rho mu flow_m3_h retention_time_s diameter_mm
          roughness_mm straight_segment_m k_elbow_90 include_io = Raise e
    end.
Proof.
  pose proof page_call_bounds as H. cbv zeta in H.
  destruct H as (Hd2 & (Za & Zs & Zm & Zd) & (c & Hc & Hcb) &
                 (_ & _ & Wv & _ & _ & _ & Wre & _)).
  destruct (velocity_square _ Wv) as (v2 & Hv2 & _).
  eexists. split; [exact Wre|].
  unfold Page.results, calculate_retention_coil.
  rewrite Hd2. cbn [bind].
  rewrite !(py_truediv_nonzero _ _ Za). cbn [bind].
  rewrite (py_truediv_nonzero _ _ Zs). cbn [bind]. rewrite Hc. cbn [bind].
  unfold reynolds_number. rewrite (py_truediv_nonzero _ _ Zm). cbn [bind].
  destruct (darcy_friction_factor _ _ _) as [f|e]; cbn [bind];
    [|reflexivity].
  destruct (Conversions.float_of_int_small
              (Z.max 0 (Z.max 1 c - 1) * 2)) as [ef Hef].
  { change (2 ^ 53)%Z with 9007199254740992%Z. lia. }
  rewrite Hef. cbn [bind]. rewrite Hv2. cbn [bind].
  rewrite (py_truediv_nonzero _ _ Zd). cbn [bind].
  eexists. reflexivity.
Qed.

(** The three parts of [turbulent_fit]. *)
Hypothesis pow_09_reynolds :
  forall x : float, Intervals.within 2300 1e10 x = true ->
    Intervals.within 1000 1e10 (libm_pow x 0.9) = true.
Hypothesis log10_argument :
  forall x : float, Intervals.within 5e-8 0.06 x = true ->
    Intervals.within (-8) (-1) (libm_log10 x) = true.
Hypothesis pow_2_logarithm :
  forall x : float, Intervals.within 1 8 x = true ->
    Intervals.within 0.5 100 (libm_pow x 2) = true.

(** With such a library the friction factor is computed, and is between
    0.0025 and 640000, for every Reynolds number between 1e-4 and 1e10,
    roughness between 0.1 um and 1 mm and diameter between 5 mm and
    0.3 m. *)
Lemma darcy_returns (re roughness_m diameter_m : float) :
  Intervals.within 1e-4 1e10 re = true ->
  Intervals.within (0.0001 / 1000) (1 / 1000) roughness_m = true ->
  Intervals.within 0.005 0.3 diameter_m = true ->
  exists f : float,
    darcy_friction_factor re roughness_m diameter_m = Ok f /\
    Intervals.within 0.0025 640000 f = true.
Proof.
  intros Wre0 Wrough Wd.
  positive_finite Wre0 Pre Fre.
  pose proof Wre0 as Bre. apply Intervals.within_bounds in Bre.
  destruct Bre as [Lre0 Ure].
  assert (W64 : Intervals.within 64 64 64 = true) by reflexivity.
  assert (W025 : Intervals.within 0.25 0.25 0.25 = true) by reflexivity.
  unfold darcy_friction_factor.
  rewrite (FloatFacts.positive_not_leb_0 _ Pre).
  destruct (re <? 2300) eqn:L.
  { rewrite (py_truediv_nonzero _ _ (FloatFacts.positive_not_eqb_0 _ Pre)).
    eexists. split; [reflexivity|].
    assert (Wlam : Intervals.within 1e-4 2300 re = true).
    { apply Intervals.within_bounds. split; [exact Lre0|].
      apply ltb_leb, L. }
    interval_step Intervals.div_within W64 Wlam Wf. widen Wf. }
  assert (Lre : (2300 <=? re) = true).
  { apply ltb_leb_total; try assumption; try reflexivity.
    apply Intervals.is_finite_not_nan, Fre. }
  assert (Wre : Intervals.within 2300 1e10 re = true).
  { apply Intervals.within_bounds. split; assumption. }
  pose proof (pow_09_reynolds _ Wre) as Wp.
  assert (W37 : Intervals.within 3.7 3.7 3.7 = true) by reflexivity.
  assert (W574 : Intervals.within 5.74 5.74 5.74 = true) by reflexivity.
  interval_step Intervals.div_within Wrough Wd Wrel.
  interval_step Intervals.div_within Wrel W37 Wrel37.
  interval_step Intervals.div_within W574 Wp Wt.
  interval_step Sums.add_within Wrel37 Wt Warg.
  assert (Wl : Intervals.within (-8) (-1)
                 (libm_log10 (roughness_m / diameter_m / 3.7
                              + 5.74 / libm_pow re 0.9)) = true).
  { apply log10_argument. widen Warg. }
  pose proof (Sums.opp_within _ _ _ Wl) as Wnl.
  assert (Wsq : Intervals.within 0.5 100
                  (libm_pow (- libm_log10 (roughness_m / diameter_m / 3.7
                                           + 5.74 / libm_pow re 0.9)) 2)
                = true).
  { apply pow_2_logarithm. widen Wnl. }
  positive_finite Wd Pd Fd. positive_finite Wp Pp Fp.
  positive_finite Warg Pa Fa. positive_finite Wnl Pn Fn.
  positive_finite Wsq Ps Fs.
  destruct (Sums.opp_positive_finite _ Pn Fn) as (Nl & Zl & Fl).
  rewrite (py_truediv_nonzero _ _ (FloatFacts.positive_not_eqb_0 _ Pd)).
  cbn [bind].
  rewrite (py_pow_09_positive _ Pre Fre (above_1_not_1 _ _ Lre eq_refl) Fp).
  cbn [bind].
  rewrite (py_truediv_nonzero _ _ (FloatFacts.positive_not_eqb_0 _ Pp)).
  cbn [bind].
  rewrite (math_log10_positive _ Pa Fa Fl). cbn [bind].
  rewrite py_pow_2_unfold.
  destruct (is_finite_parts _ Fl) as [-> ->]. rewrite Zl, Nl. cbv zeta.
  destruct (is_finite_parts _ Fs) as [_ ->].
  destruct (_ =? 1); cbn [bind].
  - eexists. split; reflexivity.
  - rewrite (py_truediv_nonzero _ _ (FloatFacts.positive_not_eqb_0 _ Ps)).
    eexists. split; [reflexivity|].
    interval_step Intervals.div_within W025 Wsq Wf. widen Wf.
Qed.

Variable roughness_source : string.

Hypothesis roughness_in_range :
  Page.in_range (Page.roughness_mm_input roughness_source) roughness_mm
  = true.

Lemma roughness_within :
  Intervals.within (0.0001 / 1000) (1 / 1000) (roughness_mm / 1000) = true.
Proof.
  assert (W : Intervals.within 0.0001 1 roughness_mm = true).
  { pose proof roughness_in_range as H. unfold Page.roughness_mm_input in H.
    destruct (String.eqb roughness_source _);
      [|destruct (String.eqb roughness_source _)].
    - change (Intervals.within 0.0005 0.1 roughness_mm = true) in H.
      widen H.
    - change (Intervals.within 0.001 0.2 roughness_mm = true) in H.
      widen H.
    - exact H. }
  assert (W1000 : Intervals.within 1000 1000 1000 = true) by reflexivity.
  interval_step Intervals.div_within W W1000 Wr. exact Wr.
Qed.

(** With the turbulent branch covered, the call returns. *)
Lemma page_call_Ok :
  exists r : coil_result,
    Page.results rho mu flow_m3_h retention_time_s diameter_mm roughness_mm
      straight_segment_m k_elbow_90 include_io = Ok r.
Proof.
  destruct page_call_outcome as (re & Wre & H).
  pose proof page_call_bounds as S. cbv zeta in S.
  destruct S as (_ & _ & _ & Wd & _).
  destruct (darcy_returns re _ _ Wre roughness_within Wd) as (f & D & _).
  rewrite D in H. exact H.
Qed.

Hypothesis k_elbow_90_in_range :
  Page.in_range Page.k_elbow_90_input k_elbow_90 = true.

(** What the call returns can be shown. *)
Lemma page_call_fields (r : coil_result) :
  Page.results rho mu flow_m3_h retention_time_s diameter_mm roughness_mm
    straight_segment_m k_elbow_90 include_io = Ok r ->
  forallb shown (Page.metric_values r) = true /\
  (0 <= elbows_90 r <= 127323954)%Z.
Proof.
  unfold Page.results. intros R.
  destruct (calculate_Ok_run _ _ _ _ _ _ _ _ _ _ R)
    as [d2 segs ef v2 ld c Hd2 Hq Hv Hvol Hlen Hsegs Hc Hn Hu He Hre
          Hf Hef Hk Hv2 Hld Hdd Hdl Hdt].
  pose proof page_call_bounds as B. cbv zeta in B.
  destruct B as (Ed2 & _ & (c0 & Hc0 & Hcb) &
                 (Wd & Wq & Wv & Wvol & Wlen & Wld & Wre & Wrho)).
  rewrite Ed2 in Hd2. injection Hd2 as <-.
  apply py_truediv_Ok in Hv. destruct Hv as [_ Ev].
  rewrite <- Ev in Wv, Wre.
  rewrite Hvol in Hlen. apply py_truediv_Ok in Hlen.
  destruct Hlen as [_ El]. rewrite <- El in Wlen, Wld, Hc0.
  apply py_truediv_Ok in Hsegs. destruct Hsegs as [_ ->].
  rewrite Hc0 in Hc. injection Hc as <-.
  unfold reynolds_number in Hre. apply py_truediv_Ok in Hre.
  destruct Hre as [_ Ere]. rewrite <- Ere in Wre.
  destruct (darcy_returns _ _ _ Wre roughness_within Wd) as (f0 & Df & Wf).
  rewrite Df in Hf. injection Hf as Ef. rewrite Ef in Wf.
  destruct (velocity_square _ Wv) as (v2' & Hv2' & Wv2).
  rewrite Hv2' in Hv2. injection Hv2 as ->.
  apply py_truediv_Ok in Hld. destruct Hld as [_ ->].
  assert (Hel : (0 <= elbows_90 r <= 127323954)%Z) by lia.
  assert (Hel' : (0 <= elbows_90 r <= 2 ^ 53)%Z)
    by (change (2 ^ 53)%Z with 9007199254740992%Z; lia).
  destruct (Validity.float_of_int_bounds _ _ Hel' Hef) as [Lef Uef].
  assert (Wef : UpTo.upto 0x1p53 ef = true)
    by (apply UpTo.upto_bounds; split; assumption).
  pose proof k_elbow_90_in_range as Wk.
  change (Intervals.within 0.1 2 k_elbow_90 = true) in Wk.
  assert (W2 : Intervals.within 2 2 2 = true) by reflexivity.
  interval_step Intervals.mul_within Wrho Wv2 Wrv2.
  interval_step Intervals.div_within Wrv2 W2 Wdyn.
  interval_step Intervals.mul_within Wf Wld Wfl.
  interval_step Intervals.mul_within Wfl Wdyn Wdd.
  rewrite <- Hdd in Wdd.
  upto_of_within Wk Uk. upto_of_within Wdyn Udyn. upto_of_within Wdd Udd.
  upto_mul Wef Uk Uefk.
  assert (Uktot : UpTo.upto (0x1p53 * 2 + 1.5) (k_total r) = true).
  { rewrite Hk. destruct include_io.
    - assert (U15 : UpTo.upto 1.5 1.5 = true) by reflexivity.
      upto_add Uefk U15 U. exact U.
    - refine (UpTo.upto_widen _ _ _ _ Uefk). reflexivity. }
  upto_mul Uktot Udyn Udl. rewrite <- Hdl in Udl.
  upto_add Udd Udl Udt. rewrite <- Hdt in Udt.
  split; [|exact Hel].
  cbn [forallb Page.metric_values].
  show_within Wlen.
  show_upto Uktot.
  show_within Wv.
  show_within Wre.
  show_within Wf.
  show_per_1000 Udd.
  show_per_1000 Udl.
  show_per_1000 Udt.
  reflexivity.
Qed.

End PageCall.

Lemma in_ranges_each (fluid_option roughness_source : string)
    (rho mu flow_m3_h retention_time_s diameter_mm roughness_mm
     straight_segment_m k_elbow_90 : float) :
  Page.in_ranges fluid_option roughness_source rho mu flow_m3_h
    retention_time_s diameter_mm roughness_mm straight_segment_m k_elbow_90
  = true ->
  Page.in_range (Page.rho_input fluid_option) rho = true /\
  Page.in_range (Page.mu_input fluid_option) mu = true /\
  Page.in_range Page.flow_m3_h_input flow_m3_h = true /\
  Page.in_range Page.retention_time_s_input retention_time_s = true /\
  Page.in_range Page.diameter_mm_input diameter_mm = true /\
  Page.in_range (Page.roughness_mm_input roughness_source) roughness_mm
  = true /\
  Page.in_range Page.straight_segment_m_input straight_segment_m = true /\
  Page.in_range Page.k_elbow_90_input k_elbow_90 = true.
Proof.
  unfold Page.in_ranges. intros H.
  do 7 (apply andb_true_iff in H; destruct H as [H ?]).
  repeat split; assumption.
Qed.

(** X16: when the C library squares within the bounds of [squares_fit], then
    for all that the sidebar can hand over (whatever product and kind of pipe
    are selected, and whatever numbers are entered within the bounds of the
    inputs) the call of the page returns a result, unless the friction factor
    raises, which it does only in the turbulent branch: at a Reynolds number
    of 2300 or more. *)
Theorem page_call_raises_only_in_turbulent_branch {libm : Libm}
    (fluid_option roughness_source : string)
    (rho mu flow_m3_h retention_time_s diameter_mm roughness_mm
     straight_segment_m k_elbow_90 : float) (include_io : bool) :
  squares_fit libm ->
  Page.in_ranges fluid_option roughness_source rho mu flow_m3_h
    retention_time_s diameter_mm roughness_mm straight_segment_m k_elbow_90
  = true ->
  (exists r : coil_result,
     Page.results rho mu flow_m3_h retention_time_s diameter_mm roughness_mm
       straight_segment_m k_elbow_90 include_io = Ok r) \/
  (exists (re : float) (e : py_exception),
     (2300 <=? re) = true /\
     darcy_friction_factor re (roughness_mm / 1000) (diameter_mm / 1000)
     = Raise e /\
     Page.results rho mu flow_m3_h retention_time_s diameter_mm roughness_mm
       straight_segment_m k_elbow_90 include_io = Raise e).
Proof.
  intros [S1 S2] R.
  destruct (in_ranges_each _ _ _ _ _ _ _ _ _ _ R)
    as (Rrho & Rmu & Rflow & Rt & Rd & _ & Rseg & _).
  destruct (page_call_outcome S1 S2 fluid_option rho mu flow_m3_h
              retention_time_s diameter_mm roughness_mm straight_segment_m
              k_elbow_90 include_io Rrho Rmu Rflow Rt Rd Rseg)
    as (re & Wre & H).
  destruct (darcy_friction_factor re _ _) as [f|e] eqn:D; [left; exact H|].
  right. exists re, e. split; [|split; [exact D|exact H]].
  positive_finite Wre Pre Fre.
  revert D. unfold darcy_friction_factor.
  rewrite (FloatFacts.positive_not_leb_0 _ Pre).
  destruct (re <? 2300) eqn:L.
  - rewrite (py_truediv_nonzero _ _ (FloatFacts.positive_not_eqb_0 _ Pre)).
    discriminate.
  - intros _. apply ltb_leb_total; try assumption; try reflexivity.
    apply Intervals.is_finite_not_nan, Fre.
Qed.

(** X17: when the C library is within the bounds of [squares_fit] and of
    [turbulent_fit], the call of the page returns a result for all that the
    sidebar can hand over: no choice of product and kind of pipe and no
    numbers within the bounds of the inputs make it raise an exception. *)
Theorem page_call_returns {libm : Libm}
    (fluid_option roughness_source : string)
    (rho mu flow_m3_h retention_time_s diameter_mm roughness_mm
     straight_segment_m k_elbow_90 : float) (include_io : bool) :
  squares_fit libm -> turbulent_fit libm ->
  Page.in_ranges fluid_option roughness_source rho mu flow_m3_h
    retention_time_s diameter_mm roughness_mm straight_segment_m k_elbow_90
  = true ->
  exists r : coil_result,
    Page.results rho mu flow_m3_h retention_time_s diameter_mm roughness_mm
      straight_segment_m k_elbow_90 include_io = Ok r.
Proof.
  intros [S1 S2] (T1 & T2 & T3) R.
  destruct (in_ranges_each _ _ _ _ _ _ _ _ _ _ R)
    as (Rrho & Rmu & Rflow & Rt & Rd & Rrough & Rseg & _).
  exact (page_call_Ok S1 S2 fluid_option rho mu flow_m3_h retention_time_s
           diameter_mm roughness_mm straight_segment_m k_elbow_90 include_io
           Rrho Rmu Rflow Rt Rd Rseg T1 T2 T3 roughness_source Rrough).
Qed.

(** X18: when the C library is within the bounds of [squares_fit] and of
    [turbulent_fit], every float the page formats into a metric is a finite
    number that is not below zero (never an infinity, a NaN or a negative
    number), for all that the sidebar can hand over: the length, the total
    resistance, the velocity, the Reynolds number, the friction factor and the
    three pressure drops in kPa; and the number of elbows is between 0 and
    127323954. *)
Theorem page_shows_numbers {libm : Libm}
    (fluid_option roughness_source : string)
    (rho mu flow_m3_h retention_time_s diameter_mm roughness_mm
     straight_segment_m k_elbow_90 : float) (include_io : bool)
    (r : coil_result) :
  squares_fit libm -> turbulent_fit libm ->
  Page.in_ranges fluid_option roughness_source rho mu flow_m3_h
    retention_time_s diameter_mm roughness_mm straight_segment_m k_elbow_90
  = true ->
  Page.results rho mu flow_m3_h retention_time_s diameter_mm roughness_mm
    straight_segment_m k_elbow_90 include_io = Ok r ->
  forallb shown (Page.metric_values r) = true /\
  (0 <= elbows_90 r <= 127323954)%Z.
Proof.
  intros [S1 S2] (T1 & T2 & T3) R.
  destruct (in_ranges_each _ _ _ _ _ _ _ _ _ _ R)
    as (Rrho & Rmu & Rflow & Rt & Rd & Rrough & Rseg & Rk).
  exact (page_call_fields S1 S2 fluid_option rho mu flow_m3_h
           retention_time_s diameter_mm roughness_mm straight_segment_m
           k_elbow_90 include_io Rrho Rmu Rflow Rt Rd Rseg T1 T2 T3
           roughness_source Rrough Rk r).
Qed.

(** A coarse stand-in for the C library, enough to run the turbulent
    branch: it squares by multiplying, answers 1000 for any other power and
    -2 for any logarithm. *)
Definition coarse_pow (x y : float) : float :=
  if y =? 2 then x * x else 1000.

Lemma coarse_pow_not_negative (x y : float) :
  (0 <? x) = true -> (coarse_pow x y <? 0) = false.
Proof.
  intros H. unfold coarse_pow. destruct (y =? 2); [|reflexivity].
  apply FloatFacts.mul_not_negative;
    apply FloatFacts.positive_not_negative, H.
Qed.

Definition coarse_libm : Libm :=
  {| libm_pow := coarse_pow;
     libm_log10 := fun _ => -2;
     libm_pow_not_negative := coarse_pow_not_negative |}.

(** Multiplying keeps the squares within the bounds. *)
Lemma coarse_libm_squares_fit : squares_fit coarse_libm.
Proof.
  split; intros x W;
    change (libm_pow (Libm := coarse_libm) x 2) with (x * x);
    interval_step Intervals.mul_within W W Wxx; widen Wxx.
Qed.

Lemma coarse_libm_turbulent_fit : turbulent_fit coarse_libm.
Proof.
  split; [|split]; intros x W; try reflexivity.
  change (libm_pow (Libm := coarse_libm) x 2) with (x * x).
  interval_step Intervals.mul_within W W Wxx. widen Wxx.
Qed.

(** The page as it opens: water, 5 m3/h, one minute, a 25 mm smooth pipe in
    segments of 2 m. *)
Lemma page_call_raises_only_in_turbulent_branch_witness :
  (exists r : coil_result,
     Page.results (libm := coarse_libm) 998 1 5 60 25 0.0015 2 0.9 true
     = Ok r) \/
  (exists (re : float) (e : py_exception),
     (2300 <=? re) = true /\
     darcy_friction_factor (libm := coarse_libm) re (0.0015 / 1000)
       (25 / 1000) = Raise e /\
     Page.results (libm := coarse_libm) 998 1 5 60 25 0.0015 2 0.9 true
     = Raise e).
Proof.
  apply (page_call_raises_only_in_turbulent_branch (libm := coarse_libm)
           "Вода (20°C)"%string
           "Неръждаема хранителна тръба (гладка)"%string
           998 1 5 60 25 0.0015 2 0.9 true coarse_libm_squares_fit).
  reflexivity.
Defined.

(** Cream at the largest flow in the narrowest pipe, through technical
    steel. *)
Lemma page_call_returns_witness :
  exists r : coil_result,
    Page.results (libm := coarse_libm) 1010 5 200 3600 5 0.045 0.2 2 false
    = Ok r.
Proof.
  apply (page_call_returns (libm := coarse_libm)
           "Сметана 20% (~20°C)"%string "Техническа стомана"%string
           1010 5 200 3600 5 0.045 0.2 2 false
           coarse_libm_squares_fit coarse_libm_turbulent_fit).
  reflexivity.
Defined.

(** The page as it opens, with milk. *)
Lemma page_shows_numbers_witness :
  exists r : coil_result,
    Page.results (libm := coarse_libm) 1030 2 5 60 25 0.0015 2 0.9 true
    = Ok r /\
    forallb shown (Page.metric_values r) = true /\
    (0 <= elbows_90 r <= 127323954)%Z.
Proof.
  destruct (Page.results (libm := coarse_libm) 1030 2 5 60 25 0.0015 2 0.9
              true) as [r|e] eqn:E; [|vm_compute in E; discriminate].
  exists r. split; [reflexivity|].
  apply (page_shows_numbers (libm := coarse_libm)
           "Мляко (цяло, ~20°C)"%string
           "Неръждаема хранителна тръба (гладка)"%string
           1030 2 5 60 25 0.0015 2 0.9 true r
           coarse_libm_squares_fit coarse_libm_turbulent_fit eq_refl E).
Defined.
